(** * Market Moodboard Agent: response normalisation, input schema and
      consistency harness

    A shallow embedding of the parts of the agent that turn the model's
    reply into the returned object ([handler] of the [analyzeMoodboard]
    entrypoint), of the inference client [callGLM46], of the zod schemas and
    of the consistency script, together with the properties the design
    document states about them.  The configuration module and the request
    the client sends are embedded as well, and further properties that the
    code itself shows come after the claims of the design document.

    JavaScript strings are sequences of UTF-16 code units; they are modelled
    as lists of [N].  Numbers are modelled as exact decimals (IEEE-754
    rounding is not modelled).  An [await] either settles, with a value or
    an exception, or stays pending for ever; time enters through the
    readings of the clock and through the delay after which the inference
    endpoint answers. *)

From Stdlib Require Import String Ascii.
From Stdlib Require Import List NArith ZArith QArith Lia Bool.
From Stdlib Require DecimalN.
Import ListNotations.
Close Scope Q_scope.
Open Scope N_scope.

Set Warnings "-register-all".

(* ================================================================== *)
(** * JavaScript strings and the regular expressions of the handler *)
(* ================================================================== *)

Module JS.

Definition jsstring := list N.

(** An ASCII literal as a JavaScript string. *)
Definition js (s : string) : jsstring :=
  map N_of_ascii (list_ascii_of_string s).

(** The same, with every apostrophe standing for a double quote, so that
    JSON texts can be written down legibly. *)
Definition jsq (s : string) : jsstring :=
  map (fun c => if N.eqb c 39 then 34%N else c) (js s).

Fixpoint eqb (a b : jsstring) : bool :=
  match a, b with
  | [], [] => true
  | x :: a', y :: b' => N.eqb x y && eqb a' b'
  | _, _ => false
  end.

(** [\s] of a regular expression, which is also what [trim] removes:
    WhiteSpace and LineTerminator of ECMA-262. *)
Definition is_space (c : N) : bool :=
  (N.leb 9 c && N.leb c 13) || N.eqb c 32 || N.eqb c 160
  || N.eqb c 5760 || (N.leb 8192 c && N.leb c 8202)
  || N.eqb c 8232 || N.eqb c 8233 || N.eqb c 8239 || N.eqb c 8287
  || N.eqb c 12288 || N.eqb c 65279.

(** [[\s\S]]: every code unit. *)
Definition any (c : N) : bool := is_space c || negb (is_space c).

(** ** A backtracking matcher for the shapes of pattern the source uses:
    a sequence of single-character classes and greedy starred classes. *)

Inductive atom :=
| One (p : N -> bool)     (* one code unit of the class *)
| Many (p : N -> bool).   (* p*, greedy *)

Definition regex := list atom.

(** Greedy iteration: take a code unit of the class and go on; when the
    rest of the pattern then fails, give the unit back and try the
    continuation here. *)
Fixpoint many (p : N -> bool)
         (k : jsstring -> option (jsstring * jsstring))
         (s : jsstring) : option (jsstring * jsstring) :=
  match s with
  | c :: s' =>
      if p c then
        match many p k s' with
        | Some (m, rest) => Some (c :: m, rest)
        | None => k s
        end
      else k s
  | [] => k []
  end.

(** Match the pattern at the start of [s]: the matched text and what
    follows it. *)
Fixpoint match_here (r : regex) (s : jsstring)
  : option (jsstring * jsstring) :=
  match r with
  | [] => Some ([], s)
  | One p :: r' =>
      match s with
      | c :: s' =>
          if p c then
            match match_here r' s' with
            | Some (m, rest) => Some (c :: m, rest)
            | None => None
            end
          else None
      | [] => None
      end
  | Many p :: r' => many p (match_here r') s
  end.

(** Leftmost match: text before, match, text after. *)
Fixpoint search (r : regex) (s : jsstring)
  : option (jsstring * jsstring * jsstring) :=
  match match_here r s with
  | Some (m, rest) => Some ([], m, rest)
  | None =>
      match s with
      | [] => None
      | c :: s' =>
          match search r s' with
          | Some (b, m, a) => Some (c :: b, m, a)
          | None => None
          end
      end
  end.

(** [s.match(r)] for a pattern without the [g] flag: [None] is [null],
    [Some m] is an array whose element 0 is [m]. *)
Definition String_match (r : regex) (s : jsstring) : option jsstring :=
  match search r s with
  | Some (_, m, _) => Some m
  | None => None
  end.

(** [s.replace(r, repl)] for a pattern with the [g] flag.  [skip] counts
    the code units of the current match still to be dropped.  After an
    empty match the scan moves on by one code unit. *)
Fixpoint replace_from (r : regex) (repl : jsstring) (skip : nat)
         (s : jsstring) : jsstring :=
  match s with
  | [] =>
      match skip, match_here r [] with
      | O, Some _ => repl
      | _, _ => []
      end
  | c :: s' =>
      match skip with
      | S k => replace_from r repl k s'
      | O =>
          match match_here r s with
          | Some (m, _) =>
              match length m with
              | O => repl ++ c :: replace_from r repl 0 s'
              | S k => repl ++ replace_from r repl k s'
              end
          | None => c :: replace_from r repl 0 s'
          end
      end
  end.

Definition String_replace_all (r : regex) (repl s : jsstring) : jsstring :=
  replace_from r repl 0 s.

Fixpoint drop_space (s : jsstring) : jsstring :=
  match s with
  | c :: s' => if is_space c then drop_space s' else s
  | [] => []
  end.

(** [s.trim()]. *)
Definition String_trim (s : jsstring) : jsstring :=
  rev (drop_space (rev (drop_space s))).

(** [s.split(sep)[0]] for a one-unit separator: the text before its first
    occurrence, the whole string when there is none. *)
Fixpoint before_first (sep : N) (s : jsstring) : jsstring :=
  match s with
  | [] => []
  | c :: s' => if N.eqb c sep then [] else c :: before_first sep s'
  end.

(** A literal as a pattern. *)
Definition lit (s : jsstring) : regex := map (fun c => One (N.eqb c)) s.

(** Truthiness of a string. *)
Definition nonempty (s : jsstring) : bool :=
  match s with [] => false | _ => true end.

End JS.
Export JS.

(* ================================================================== *)
(** * JSON: values, [JSON.parse] and [JSON.stringify] *)
(* ================================================================== *)

Module Json.

(** ** Numbers

    A number is a sign, its significant decimal digits and the position
    of the decimal point: the value is [0.d1 d2 ... dk * 10^point].  Zero
    is [Number false [] 0]; otherwise the first and the last digit are
    not 0. *)

Record number := Number { neg : bool; digits : list N; point : Z }.

Definition zero : number := Number false [] 0.

Definition is_digit (c : N) : bool := N.leb 48 c && N.leb c 57.
Definition digit_val (c : N) : N := c - 48.
Definition digit_char (d : N) : N := 48 + d.

Fixpoint drop_zeros (ds : list N) : list N :=
  match ds with
  | d :: ds' => if N.eqb d 0 then drop_zeros ds' else ds
  | [] => []
  end.

(** Remove leading zeros (each moves the point one place to the left)
    and trailing zeros. *)
Definition normalize_number (sg : bool) (ds : list N) (pt : Z) : number :=
  let ds1 := drop_zeros ds in
  let pt1 := (pt - (Z.of_nat (length ds) - Z.of_nat (length ds1)))%Z in
  match rev (drop_zeros (rev ds1)) with
  | [] => zero
  | ds2 => Number sg ds2 pt1
  end.

Fixpoint uint_digits (u : Decimal.uint) : list N :=
  match u with
  | Decimal.Nil => []
  | Decimal.D0 u => 0%N :: uint_digits u
  | Decimal.D1 u => 1%N :: uint_digits u
  | Decimal.D2 u => 2%N :: uint_digits u
  | Decimal.D3 u => 3%N :: uint_digits u
  | Decimal.D4 u => 4%N :: uint_digits u
  | Decimal.D5 u => 5%N :: uint_digits u
  | Decimal.D6 u => 6%N :: uint_digits u
  | Decimal.D7 u => 7%N :: uint_digits u
  | Decimal.D8 u => 8%N :: uint_digits u
  | Decimal.D9 u => 9%N :: uint_digits u
  end.

Fixpoint digits_uint (ds : list N) : Decimal.uint :=
  match ds with
  | [] => Decimal.Nil
  | d :: ds' =>
      let u := digits_uint ds' in
      match d with
      | 0 => Decimal.D0 u | 1 => Decimal.D1 u | 2 => Decimal.D2 u
      | 3 => Decimal.D3 u | 4 => Decimal.D4 u | 5 => Decimal.D5 u
      | 6 => Decimal.D6 u | 7 => Decimal.D7 u | 8 => Decimal.D8 u
      | _ => Decimal.D9 u
      end%N
  end.

(** The digits of a natural number, and back. *)
Definition N_digits (n : N) : list N := uint_digits (N.to_uint n).
Definition N_of_digits (ds : list N) : N := N.of_uint (digits_uint ds).

Definition N_text (n : N) : jsstring := map digit_char (N_digits n).

(** The number an integer denotes. *)
Definition number_of_Z (z : Z) : number :=
  let ds := N_digits (Z.abs_N z) in
  normalize_number (Z.ltb z 0) ds (Z.of_nat (length ds)).

(** The exact value, for comparisons. *)
Definition number_to_Q (n : number) : Q :=
  let m := Z.of_N (N_of_digits (digits n)) in
  let e := (point n - Z.of_nat (length (digits n)))%Z in
  ((if neg n then (- m)%Z else m) # 1) * Qpower (10 # 1) e.

Definition number_leb (a b : number) : bool :=
  Qle_bool (number_to_Q a) (number_to_Q b).

Definition number_is_zero (n : number) : bool :=
  match digits n with [] => true | _ => false end.

(** The maximal prefix of [s] in the class [p], and the rest. *)
Fixpoint span (p : N -> bool) (s : jsstring) : jsstring * jsstring :=
  match s with
  | c :: s' =>
      if p c then let (a, b) := span p s' in (c :: a, b) else ([], s)
  | [] => ([], [])
  end.

(** The integer part of a literal: one digit, or several not starting
    with 0. *)
Definition int_part_ok (ds : jsstring) : bool :=
  match ds with
  | [] => false
  | [_] => true
  | d :: _ => negb (N.eqb d 48)
  end.

(** The optional fraction of a literal: a dot and at least one digit. *)
Definition fraction_part (r : jsstring) : option (jsstring * jsstring) :=
  match r with
  | c :: r' =>
      if N.eqb c 46 then
        let (fp, r2) := span is_digit r' in
        match fp with [] => None | _ => Some (fp, r2) end
      else Some ([], r)
  | [] => Some ([], [])
  end.

(** The optional exponent: e or E, an optional sign, at least one digit. *)
Definition exponent_part (r : jsstring) : option (Z * jsstring) :=
  match r with
  | c :: r' =>
      if N.eqb c 101 || N.eqb c 69 then
        let (esg, r'') :=
          match r' with
          | s :: r'' =>
              if N.eqb s 45 then (true, r'')
              else if N.eqb s 43 then (false, r'')
              else (false, r')
          | [] => (false, [])
          end in
        let (ep, r3) := span is_digit r'' in
        match ep with
        | [] => None
        | _ =>
            let x := Z.of_N (N_of_digits (map digit_val ep)) in
            Some ((if esg then - x else x)%Z, r3)
        end
      else Some (0%Z, r)
  | [] => Some (0%Z, [])
  end.

(** A literal without its sign: an integer part that is 0 or starts with
    a digit from 1 to 9, then the fraction and the exponent, and nothing
    after them. *)
Definition unsigned_literal (sg : bool) (r0 : jsstring) : option number :=
  let (ip, r1) := span is_digit r0 in
  if int_part_ok ip then
    match fraction_part r1 with
    | None => None
    | Some (fp, r2) =>
        match exponent_part r2 with
        | Some (x, []) =>
            Some (normalize_number sg (map digit_val (ip ++ fp))
                                   (Z.of_nat (length ip) + x))
        | _ => None
        end
    end
  else None.

(** A JSON number literal, with its optional minus sign. *)
Definition number_of_literal (l : jsstring) : option number :=
  match l with
  | c :: r =>
      if N.eqb c 45 then unsigned_literal true r else unsigned_literal false l
  | [] => None
  end.

(** [Number::toString] in radix 10, on a normalized number: first
    without the sign, for the digits [d :: ds] and the point at [p]. *)
Definition unsigned_text (d : N) (ds : list N) (p : Z) : jsstring :=
  let dc := map digit_char (d :: ds) in
  let k := Z.of_nat (length dc) in
  if (k <=? p)%Z && (p <=? 21)%Z then dc ++ repeat 48%N (Z.to_nat (p - k))
  else if (0 <? p)%Z && (p <=? 21)%Z then
    firstn (Z.to_nat p) dc ++ js "." ++ skipn (Z.to_nat p) dc
  else if (-6 <? p)%Z && (p <=? 0)%Z then
    js "0." ++ repeat 48%N (Z.to_nat (- p)) ++ dc
  else
    digit_char d
      :: (match ds with [] => [] | _ => js "." ++ map digit_char ds end)
      ++ js "e" ++ (if (p - 1 <? 0)%Z then js "-" else js "+")
      ++ N_text (Z.abs_N (p - 1)).

Definition number_text (n : number) : jsstring :=
  match digits n with
  | [] => js "0"
  | d :: ds => (if neg n then js "-" else []) ++ unsigned_text d ds (point n)
  end.

(** ** Values *)

Inductive value :=
| JNull
| JBool (b : bool)
| JNum (n : number)
| JStr (s : jsstring)
| JArr (l : list value)
| JObj (l : list (jsstring * value)).

(** An object is the list of its own properties in property order:
    array-index keys first, ascending, then the others in the order of
    their creation. *)
Definition object := list (jsstring * value).

(** Canonical numeric strings below 2^32 - 1. *)
Definition array_index (k : jsstring) : option N :=
  if forallb is_digit k then
    let n := N_of_digits (map digit_val k) in
    if JS.eqb k (N_text n) && N.ltb n 4294967295 then Some n else None
  else None.

Fixpoint has_key (k : jsstring) (o : object) : bool :=
  match o with
  | [] => false
  | (k', _) :: o' => JS.eqb k k' || has_key k o'
  end.

(** [o[k]]; [None] is [undefined]. *)
Fixpoint get (k : jsstring) (o : object) : option value :=
  match o with
  | [] => None
  | (k', v) :: o' => if JS.eqb k k' then Some v else get k o'
  end.

Fixpoint replace_value (k : jsstring) (v : value) (o : object) : object :=
  match o with
  | [] => []
  | (k', v') :: o' =>
      if JS.eqb k k' then (k', v) :: o' else (k', v') :: replace_value k v o'
  end.

(** A new array-index key goes before the first key that is not a
    smaller array index. *)
Fixpoint insert_index (i : N) (k : jsstring) (v : value) (o : object)
  : object :=
  match o with
  | [] => [(k, v)]
  | (k', v') :: o' =>
      match array_index k' with
      | Some j =>
          if N.ltb j i then (k', v') :: insert_index i k v o'
          else (k, v) :: o
      | None => (k, v) :: o
      end
  end.

(** [o[k] = v] on an ordinary object. *)
Definition set (k : jsstring) (v : value) (o : object) : object :=
  if has_key k o then replace_value k v o
  else
    match array_index k with
    | Some i => insert_index i k v o
    | None => o ++ [(k, v)]
    end.

(** ** Tokens and the lexer *)

Inductive token :=
| TLBrace | TRBrace | TLBracket | TRBracket | TColon | TComma
| TString (s : jsstring)
| TNumber (n : number)
| TTrue | TFalse | TNull.

Inductive lstate :=
| LDefault
| LString (acc : jsstring)
| LEscape (acc : jsstring)
| LUnicode (acc : jsstring) (count : nat) (v : N)
| LNumber (l : jsstring)
| LWord (w : jsstring).

(** JSON white space: tab, line feed, carriage return, space. *)
Definition is_json_ws (c : N) : bool :=
  N.eqb c 9 || N.eqb c 10 || N.eqb c 13 || N.eqb c 32.

Definition is_number_char (c : N) : bool :=
  is_digit c || N.eqb c 45 || N.eqb c 43 || N.eqb c 46
  || N.eqb c 101 || N.eqb c 69.

Definition is_lower (c : N) : bool := N.leb 97 c && N.leb c 122.

Definition hex_val (c : N) : option N :=
  if is_digit c then Some (c - 48)
  else if N.leb 97 c && N.leb c 102 then Some (c - 87)
  else if N.leb 65 c && N.leb c 70 then Some (c - 55)
  else None.

Definition hex_char (d : N) : N := if N.ltb d 10 then 48 + d else 87 + d.

Definition word_token (w : jsstring) : option token :=
  if JS.eqb w (js "true") then Some TTrue
  else if JS.eqb w (js "false") then Some TFalse
  else if JS.eqb w (js "null") then Some TNull
  else None.

(** A code unit seen between tokens. *)
Definition lex_default (toks : list token) (c : N)
  : option (lstate * list token) :=
  if is_json_ws c then Some (LDefault, toks)
  else if N.eqb c 123 then Some (LDefault, TLBrace :: toks)
  else if N.eqb c 125 then Some (LDefault, TRBrace :: toks)
  else if N.eqb c 91 then Some (LDefault, TLBracket :: toks)
  else if N.eqb c 93 then Some (LDefault, TRBracket :: toks)
  else if N.eqb c 58 then Some (LDefault, TColon :: toks)
  else if N.eqb c 44 then Some (LDefault, TComma :: toks)
  else if N.eqb c 34 then Some (LString [], toks)
  else if is_digit c || N.eqb c 45 then Some (LNumber [c], toks)
  else if is_lower c then Some (LWord [c], toks)
  else None.

Definition lex_step (st : lstate) (toks : list token) (c : N)
  : option (lstate * list token) :=
  match st with
  | LDefault => lex_default toks c
  | LString acc =>
      if N.eqb c 34 then Some (LDefault, TString acc :: toks)
      else if N.eqb c 92 then Some (LEscape acc, toks)
      else if N.ltb c 32 then None
      else Some (LString (acc ++ [c]), toks)
  | LEscape acc =>
      if N.eqb c 34 || N.eqb c 92 || N.eqb c 47
      then Some (LString (acc ++ [c]), toks)
      else if N.eqb c 98 then Some (LString (acc ++ [8%N]), toks)
      else if N.eqb c 102 then Some (LString (acc ++ [12%N]), toks)
      else if N.eqb c 110 then Some (LString (acc ++ [10%N]), toks)
      else if N.eqb c 114 then Some (LString (acc ++ [13%N]), toks)
      else if N.eqb c 116 then Some (LString (acc ++ [9%N]), toks)
      else if N.eqb c 117 then Some (LUnicode acc 0 0, toks)
      else None
  | LUnicode acc count v =>
      match hex_val c with
      | Some h =>
          let v' := (16 * v + h)%N in
          match count with
          | 3%nat => Some (LString (acc ++ [v']), toks)
          | _ => Some (LUnicode acc (S count) v', toks)
          end
      | None => None
      end
  | LNumber l =>
      if is_number_char c then Some (LNumber (l ++ [c]), toks)
      else
        match number_of_literal l with
        | Some n => lex_default (TNumber n :: toks) c
        | None => None
        end
  | LWord w =>
      if is_lower c then Some (LWord (w ++ [c]), toks)
      else
        match word_token w with
        | Some t => lex_default (t :: toks) c
        | None => None
        end
  end.

(** End of the text. *)
Definition lex_end (st : lstate) (toks : list token) : option (list token) :=
  match st with
  | LDefault => Some (rev toks)
  | LNumber l =>
      match number_of_literal l with
      | Some n => Some (rev (TNumber n :: toks))
      | None => None
      end
  | LWord w =>
      match word_token w with
      | Some t => Some (rev (t :: toks))
      | None => None
      end
  | _ => None
  end.

Fixpoint lex_run (st : lstate) (toks : list token) (s : jsstring)
  : option (list token) :=
  match s with
  | [] => lex_end st toks
  | c :: s' =>
      match lex_step st toks c with
      | Some (st', toks') => lex_run st' toks' s'
      | None => None
      end
  end.

Definition lex (s : jsstring) : option (list token) := lex_run LDefault [] s.

(** ** The parser: a stack machine over the tokens *)

(** The containers that are open around the current position. *)
Inductive context :=
| CArr (acc : list value)                  (* elements read so far *)
| CObj (acc : object) (key : jsstring).    (* members so far, pending key *)

Inductive pstate :=
| PValue (stk : list context)              (* a value must follow *)
| PArrStart (stk : list context)           (* after [ *)
| PObjStart (stk : list context)           (* after { *)
| PKey (acc : object) (stk : list context) (* after , in an object *)
| PColon (acc : object) (key : jsstring) (stk : list context)
| PArrNext (acc : list value) (stk : list context)
| PObjNext (acc : object) (stk : list context)
| PDone (v : value).

(** A complete value goes into the innermost open container. *)
Definition plug (v : value) (stk : list context) : pstate :=
  match stk with
  | [] => PDone v
  | CArr acc :: stk' => PArrNext (acc ++ [v]) stk'
  | CObj acc k :: stk' => PObjNext (set k v acc) stk'
  end.

Definition parse_value (stk : list context) (t : token) : option pstate :=
  match t with
  | TString s => Some (plug (JStr s) stk)
  | TNumber n => Some (plug (JNum n) stk)
  | TTrue => Some (plug (JBool true) stk)
  | TFalse => Some (plug (JBool false) stk)
  | TNull => Some (plug JNull stk)
  | TLBracket => Some (PArrStart stk)
  | TLBrace => Some (PObjStart stk)
  | _ => None
  end.

Definition parse_step (st : pstate) (t : token) : option pstate :=
  match st with
  | PValue stk => parse_value stk t
  | PArrStart stk =>
      match t with
      | TRBracket => Some (plug (JArr []) stk)
      | _ => parse_value (CArr [] :: stk) t
      end
  | PObjStart stk =>
      match t with
      | TRBrace => Some (plug (JObj []) stk)
      | TString k => Some (PColon [] k stk)
      | _ => None
      end
  | PKey acc stk =>
      match t with
      | TString k => Some (PColon acc k stk)
      | _ => None
      end
  | PColon acc k stk =>
      match t with
      | TColon => Some (PValue (CObj acc k :: stk))
      | _ => None
      end
  | PArrNext acc stk =>
      match t with
      | TComma => Some (PValue (CArr acc :: stk))
      | TRBracket => Some (plug (JArr acc) stk)
      | _ => None
      end
  | PObjNext acc stk =>
      match t with
      | TComma => Some (PKey acc stk)
      | TRBrace => Some (plug (JObj acc) stk)
      | _ => None
      end
  | PDone _ => None
  end.

Fixpoint parse_run (st : pstate) (ts : list token) : option value :=
  match ts with
  | [] => match st with PDone v => Some v | _ => None end
  | t :: ts' =>
      match parse_step st t with
      | Some st' => parse_run st' ts'
      | None => None
      end
  end.

(** [JSON.parse(text)]; [None] stands for the SyntaxError it throws. *)
Definition JSON_parse (text : jsstring) : option value :=
  match lex text with
  | Some ts => parse_run (PValue []) ts
  | None => None
  end.

(** ** [JSON.stringify] *)

Definition is_high_surrogate (c : N) : bool :=
  N.leb 55296 c && N.leb c 56319.
Definition is_low_surrogate (c : N) : bool :=
  N.leb 56320 c && N.leb c 57343.

(** [\uXXXX], lower-case hexadecimal. *)
Definition unicode_escape (c : N) : jsstring :=
  [92; 117; hex_char (c / 4096 mod 16); hex_char (c / 256 mod 16);
   hex_char (c / 16 mod 16); hex_char (c mod 16)].

Definition escape_unit (c : N) : jsstring :=
  if N.eqb c 8 then js "\b"
  else if N.eqb c 9 then js "\t"
  else if N.eqb c 10 then js "\n"
  else if N.eqb c 12 then js "\f"
  else if N.eqb c 13 then js "\r"
  else if N.eqb c 34 then [92; 34]
  else if N.eqb c 92 then [92; 92]
  else if N.ltb c 32 then unicode_escape c
  else [c].

(** The body of [QuoteJSONString]: a surrogate pair is kept, a lone
    surrogate is escaped. *)
Fixpoint quote_body (s : jsstring) : jsstring :=
  match s with
  | [] => []
  | c :: s' =>
      if is_high_surrogate c then
        match s' with
        | d :: s'' =>
            if is_low_surrogate d then c :: d :: quote_body s''
            else unicode_escape c ++ quote_body s'
        | [] => unicode_escape c
        end
      else if is_low_surrogate c then unicode_escape c ++ quote_body s'
      else escape_unit c ++ quote_body s'
  end.

Definition quote (s : jsstring) : jsstring := 34 :: quote_body s ++ [34].

Fixpoint join (sep : jsstring) (l : list jsstring) : jsstring :=
  match l with
  | [] => []
  | [x] => x
  | x :: l' => x ++ sep ++ join sep l'
  end.

(** [JSON.stringify(v)] with no indentation. *)
Fixpoint JSON_stringify (v : value) : jsstring :=
  match v with
  | JNull => js "null"
  | JBool true => js "true"
  | JBool false => js "false"
  | JNum n => number_text n
  | JStr s => quote s
  | JArr l => js "[" ++ join (js ",") (map JSON_stringify l) ++ js "]"
  | JObj l =>
      js "{"
      ++ join (js ",")
           (map (fun kv => quote (fst kv) ++ js ":" ++ JSON_stringify (snd kv)) l)
      ++ js "}"
  end.

(** ** Well-formed values: the representations of what [JSON.parse]
    returns *)

Definition canonical (n : number) : bool :=
  match digits n with
  | [] => negb (neg n) && Z.eqb (point n) 0
  | d :: _ =>
      forallb (fun x => N.ltb x 10) (digits n)
      && negb (N.eqb d 0) && negb (N.eqb (last (digits n) 1) 0)
  end.

(** A key may follow the properties [acc] in property order: it is new,
    and when it is an array index all of [acc] are smaller array indices. *)
Definition fits (acc : object) (k : jsstring) : bool :=
  negb (has_key k acc)
  && match array_index k with
     | None => true
     | Some i =>
         forallb (fun kv => match array_index (fst kv) with
                            | Some j => N.ltb j i
                            | None => false
                            end) acc
     end.

Fixpoint ordered_from (acc rest : object) : bool :=
  match rest with
  | [] => true
  | (k, v) :: rest' => fits acc k && ordered_from (acc ++ [(k, v)]) rest'
  end.

Fixpoint wf (v : value) : bool :=
  match v with
  | JNum n => canonical n
  | JArr l => forallb wf l
  | JObj o => ordered_from [] o && forallb (fun kv => wf (snd kv)) o
  | _ => true
  end.

(** ** The tokens of a value's text *)

Fixpoint join_tokens (l : list (list token)) : list token :=
  match l with
  | [] => []
  | [x] => x
  | x :: l' => x ++ TComma :: join_tokens l'
  end.

Fixpoint tokens_of (v : value) : list token :=
  match v with
  | JNull => [TNull]
  | JBool true => [TTrue]
  | JBool false => [TFalse]
  | JNum n => [TNumber n]
  | JStr s => [TString s]
  | JArr l => TLBracket :: join_tokens (map tokens_of l) ++ [TRBracket]
  | JObj o =>
      TLBrace
        :: join_tokens
             (map (fun kv => TString (fst kv) :: TColon :: tokens_of (snd kv)) o)
        ++ [TRBrace]
  end.

(** What may follow a value inside a text: nothing, a comma, or a closing
    bracket or brace. *)
Definition delimited (rest : jsstring) : bool :=
  match rest with
  | [] => true
  | c :: _ => N.eqb c 44 || N.eqb c 93 || N.eqb c 125
  end.

(** ** Induction on values, through the lists they contain *)

Fixpoint value_induction (P : value -> Prop)
  (HNull : P JNull) (HBool : forall b, P (JBool b))
  (HNum : forall n, P (JNum n)) (HStr : forall s, P (JStr s))
  (HArr : forall l, Forall P l -> P (JArr l))
  (HObj : forall o, Forall (fun kv => P (snd kv)) o -> P (JObj o))
  (v : value) {struct v} : P v :=
  match v with
  | JNull => HNull
  | JBool b => HBool b
  | JNum n => HNum n
  | JStr s => HStr s
  | JArr l =>
      HArr l ((fix go (l : list value) : Forall P l :=
                 match l with
                 | [] => Forall_nil P
                 | x :: l' =>
                     Forall_cons x
                       (value_induction P HNull HBool HNum HStr HArr HObj x)
                       (go l')
                 end) l)
  | JObj o =>
      HObj o ((fix go (o : object) : Forall (fun kv => P (snd kv)) o :=
                 match o with
                 | [] => Forall_nil _
                 | kv :: o' =>
                     Forall_cons kv
                       (value_induction P HNull HBool HNum HStr HArr HObj (snd kv))
                       (go o')
                 end) o)
  end.

(** The parser, started where a value must follow, reads the tokens of [v]
    as [v]. *)
Definition parses_back (v : value) : Prop :=
  wf v = true ->
  forall stk rest,
    parse_run (PValue stk) (tokens_of v ++ rest) = parse_run (plug v stk) rest.

End Json.
Export Json.

(* ================================================================== *)
(** * Control flow: exceptions, the clock and the calls to the outside *)
(* ================================================================== *)

Module Effects.

(** What a [throw] carries: an [Error] with its message, or a value that
    is not an instance of [Error]. *)
Inductive thrown :=
| JsError (message : jsstring)
| NonError.

(** How a statement, or a promise that settles, ends. *)
Inductive outcome (A : Type) :=
| Return (a : A)
| Throw (e : thrown).
Arguments Return {A} a.
Arguments Throw {A} e.

(** What an [await] waits for: a promise that settles, or one that stays
    pending for ever. *)
Inductive promise (A : Type) :=
| Settled (o : outcome A)
| Pending.
Arguments Settled {A} o.
Arguments Pending {A}.

Coercion Settled : outcome >-> promise.

(** The calls that leave the process. *)
Inductive event :=
| EvNow (reading : N)                                 (* the clock is read *)
| EvGetTopCoins (limit : number) (vs_currency : jsstring)
| EvInference (endpoint model prompt : jsstring).

(** The calls that cost something: the data fetch and the inference. *)
Definition paid_work (e : event) : bool :=
  match e with
  | EvNow _ => false
  | EvGetTopCoins _ _ | EvInference _ _ _ => true
  end.

(** The state threaded through an invocation: how often the clock has
    been read, and what has happened so far (latest first). *)
Record state := State { reads : nat; trace : list event }.

(** An [async] function body: where it ends, or hangs, and in which
    state. *)
Definition M (A : Type) := state -> promise A * state.

Definition ret {A} (a : A) : M A := fun st => (Settled (Return a), st).
Definition throw {A} (e : thrown) : M A := fun st => (Settled (Throw e), st).
Definition bind {A B} (m : M A) (f : A -> M B) : M B :=
  fun st =>
    match m st with
    | (Settled (Return a), st') => f a st'
    | (Settled (Throw e), st') => (Settled (Throw e), st')
    | (Pending, st') => (Pending, st')
    end.
(** [try { m } catch (e) { h e }]: a promise that stays pending inside the
    block never reaches the [catch]. *)
Definition try_catch {A} (m : M A) (h : thrown -> M A) : M A :=
  fun st =>
    match m st with
    | (Settled (Return a), st') => (Settled (Return a), st')
    | (Settled (Throw e), st') => h e st'
    | (Pending, st') => (Pending, st')
    end.
Definition emit (e : event) : M unit :=
  fun st => (Settled (Return tt), State (reads st) (e :: trace st)).
Definition lift {A} (o : outcome A) : M A := fun st => (Settled o, st).
(** [await p] *)
Definition await {A} (p : promise A) : M A := fun st => (p, st).

(** [new Date()] and [Date.now()]: the next reading of the clock. *)
Definition Date_now (clock : nat -> N) : M N :=
  fun st =>
    let t := clock (reads st) in
    (Settled (Return t), State (S (reads st)) (EvNow t :: trace st)).

(** [catch (error) { if (error instanceof Error) throw new Error(prefix +
    error.message); throw new Error(prefix + "Unknown error") }] *)
Definition rethrow {A} (prefix : jsstring) (e : thrown) : M A :=
  match e with
  | JsError msg => throw (JsError (prefix ++ msg))
  | NonError => throw (JsError (prefix ++ js "Unknown error"))
  end.

(** A value without properties. *)
Inductive nullish := Undefined | Null.

(** What a JSON text can denote besides an object or an array. *)
Inductive primitive :=
| PNull
| PBool (b : bool)
| PNum (n : number)
| PStr (s : jsstring).

(** The expressions of [callGLM46] that raise a TypeError on a response
    body that is not as the interfaces [JatevoResponse] and
    [JatevoErrorResponse] declare. *)
Inductive type_error :=
| InPrimitive (data : primitive)   (* "error" in data *)
| ErrorOfNull                      (* errorData.error, on null *)
| MessageOfError (error : nullish) (* errorData.error.message *)
| TextOfError                      (* `${...}` of an object without a text *)
| MessageOfChoice (choice : nullish)   (* responseData.choices[0].message *)
| ContentOfMessage (message : nullish) (* ....message.content *)
| LengthOfContent (content : nullish). (* content.length *)

(** What the JavaScript runtime contributes: the formatting of dates,
    numbers and strings, and the messages of the errors it raises. *)
Record Runtime := {
  toISOString : N -> jsstring;          (* Date.prototype.toISOString *)
  toUpperCase : jsstring -> jsstring;   (* String.prototype.toUpperCase *)
  toFixed2 : number -> jsstring;        (* x.toFixed(2) *)
  abort_message : jsstring;             (* of the error an aborted fetch rejects with *)
  type_error_message : type_error -> jsstring  (* of a TypeError *)
}.

End Effects.
Export Effects.

(** A pair is read against the type it is expected to have, so that an
    outcome can stand where a promise is expected. *)
Arguments pair {A B}%_type_scope & a b.

Declare Scope js_scope.
Notation "x <- m ;; k" := (bind m (fun x => k))
  (at level 61, m at next level, right associativity) : js_scope.
Notation "m ;;; k" := (bind m (fun _ => k))
  (at level 61, right associativity) : js_scope.
Open Scope js_scope.

(* ================================================================== *)
(** * The zod schemas *)
(* ================================================================== *)

Module Zod.

(** A schema reads a possibly [undefined] input ([None]); [None] as a
    result stands for the ZodError. *)
Definition schema (A : Type) := option value -> option A.

Definition z_number : schema number :=
  fun v => match v with Some (JNum n) => Some n | _ => None end.

Definition z_string : schema jsstring :=
  fun v => match v with Some (JStr s) => Some s | _ => None end.

(** [.min(k)] and [.max(k)] on a number: inclusive bounds. *)
Definition z_min (k : Z) (s : schema number) : schema number :=
  fun v =>
    match s v with
    | Some n => if number_leb (number_of_Z k) n then Some n else None
    | None => None
    end.

Definition z_max (k : Z) (s : schema number) : schema number :=
  fun v =>
    match s v with
    | Some n => if number_leb n (number_of_Z k) then Some n else None
    | None => None
    end.

(** [.min(k)] on a string: at least [k] code units. *)
Definition z_string_min (k : nat) (s : schema jsstring) : schema jsstring :=
  fun v =>
    match s v with
    | Some x => if Nat.leb k (length x) then Some x else None
    | None => None
    end.

Definition z_optional {A} (s : schema A) : schema (option A) :=
  fun v =>
    match v with
    | None => Some None
    | Some _ => option_map Some (s v)
    end.

Definition z_default {A} (s : schema (option A)) (d : A) : schema A :=
  fun v =>
    match v with
    | None => Some d
    | Some _ =>
        match s v with
        | Some (Some a) => Some a
        | Some None => Some d
        | None => None
        end
    end.

Fixpoint parse_all {A} (s : schema A) (l : list value) : option (list A) :=
  match l with
  | [] => Some []
  | x :: l' =>
      match s (Some x), parse_all s l' with
      | Some a, Some r => Some (a :: r)
      | _, _ => None
      end
  end.

Definition z_array {A} (s : schema A) : schema (list A) :=
  fun v => match v with Some (JArr l) => parse_all s l | _ => None end.

(** [.min(k)] on an array. *)
Definition z_array_min {A} (k : nat) (s : schema (list A)) : schema (list A) :=
  fun v =>
    match s v with
    | Some l => if Nat.leb k (length l) then Some l else None
    | None => None
    end.

(** The field [k] of an object under a schema; unknown keys are ignored. *)
Definition field {A} (k : string) (s : schema A) (o : object) : option A :=
  s (get (js k) o).

(** ** The input of the entrypoint *)

Record Input := { limit : number; vs_currency : jsstring }.

Definition limit_schema : schema number :=
  z_default (z_optional (z_max 50 (z_min 1 z_number))) (number_of_Z 10).

Definition vs_currency_schema : schema jsstring :=
  z_default (z_optional z_string) (js "usd").

Definition input_schema : schema Input :=
  fun v =>
    match v with
    | Some (JObj o) =>
        match field "limit" limit_schema o,
              field "vs_currency" vs_currency_schema o with
        | Some l, Some c => Some {| limit := l; vs_currency := c |}
        | _, _ => None
        end
    | _ => None
    end.

(** ** The output schemas *)

Record CoinMood := {
  symbol : jsstring;
  mood : jsstring;
  narrative : jsstring;
  score : number;
  price_change_24h : option number;
  market_cap_rank : option number
}.

Record MoodboardOutput := {
  date : jsstring;
  coins : list CoinMood;
  market_sentiment : option jsstring;
  analyzed_at : jsstring
}.

Definition coinMoodSchema : schema CoinMood :=
  fun v =>
    match v with
    | Some (JObj o) =>
        match field "symbol" (z_string_min 1 z_string) o,
              field "mood" (z_string_min 1 z_string) o,
              field "narrative" (z_string_min 1 z_string) o,
              field "score" (z_max 1 (z_min 0 z_number)) o,
              field "price_change_24h" (z_optional z_number) o,
              field "market_cap_rank" (z_optional z_number) o with
        | Some a, Some b, Some c, Some d, Some e, Some f =>
            Some {| symbol := a; mood := b; narrative := c; score := d;
                    price_change_24h := e; market_cap_rank := f |}
        | _, _, _, _, _, _ => None
        end
    | _ => None
    end.

Definition moodboardOutputSchema : schema MoodboardOutput :=
  fun v =>
    match v with
    | Some (JObj o) =>
        match field "date" z_string o,
              field "coins" (z_array_min 1 (z_array coinMoodSchema)) o,
              field "market_sentiment" (z_optional z_string) o,
              field "analyzed_at" z_string o with
        | Some a, Some b, Some c, Some d =>
            Some {| date := a; coins := b; market_sentiment := c;
                    analyzed_at := d |}
        | _, _, _, _ => None
        end
    | _ => None
    end.

End Zod.

(* ================================================================== *)
(** * The inference client ([callGLM46]) *)
(* ================================================================== *)

Module Jatevo.

(** [JatevoResponse.choices[i]]: only the content of the message is
    read; where there is one it is a string, as the interface declares. *)
Record Choice := { content : jsstring }.

(** What keeps [responseData.choices[0].message.content.length] from
    being read: the first value on the way that is [undefined] or [null]. *)
Inductive gap :=
| NoChoice (x : nullish)     (* choices[0] *)
| NoMessage (x : nullish)    (* choices[0].message *)
| NoContent (x : nullish).   (* choices[0].message.content *)

(** The body of an answer: what [await response.text()] and [JSON.parse]
    make of it, as far as the client tells bodies apart. *)
Inductive ApiBody :=
| Stalled                        (* the body never arrives: the promise of
                                    response.text() stays pending *)
| Interrupted (e : thrown)       (* the body breaks off: the promise of
                                    response.text() is rejected *)
| NotJson (syntax_error : jsstring)               (* JSON.parse throws *)
| Primitive (data : primitive)   (* null, a boolean, a number, a string *)
| ErrorNull                      (* an [error] member that is null *)
| ErrorBody (message code type : jsstring)
                                 (* an [error] member that is not null: what
                                    the template literal prints for its
                                    message, code and type *)
| ErrorWithoutText               (* the same, where one of the three is an
                                    object that has no text *)
| Completion (choices : option (list Choice))
                                 (* no [error] member; [choices] is missing
                                    or falsy ([None]), or has length 0, or
                                    starts with a choice whose message has
                                    a content *)
| Incomplete (missing : gap).    (* no [error] member, [choices] neither
                                    falsy nor of length 0, and no content
                                    in its first element *)

Record HttpResponse := { ok : bool; body : ApiBody }.

(** What the endpoint does with a request, in milliseconds from the
    moment [fetch] is called. *)
Inductive Upstream :=
| Answers (after : N) (r : HttpResponse)   (* response headers arrive *)
| Fails (after : N) (e : thrown)           (* the connection fails *)
| Silent.                                  (* nothing ever arrives *)

(** [setTimeout(() => controller.abort(), 60000)] *)
Definition TIMEOUT_MS : N := 60000.

Section Client.

Variable rt : Runtime.
Variable clock : nat -> N.

(** [await fetch(apiEndpoint, { ..., signal: controller.signal })] with
    the abort timer armed: whichever comes first settles the promise.  The
    promise of [fetch] settles when the headers are there. *)
Definition fetch_with_timeout (u : Upstream) : outcome HttpResponse :=
  match u with
  | Answers t r =>
      if N.ltb t TIMEOUT_MS then Return r
      else Throw (JsError (abort_message rt))
  | Fails t e =>
      if N.ltb t TIMEOUT_MS then Throw e
      else Throw (JsError (abort_message rt))
  | Silent => Throw (JsError (abort_message rt))
  end.

Definition TypeError {A} (e : type_error) : promise A :=
  Settled (Throw (JsError (type_error_message rt e))).

(** The statements from [await response.text()] on, inside the [try]
    block.  The timer has been cleared by then ([clearTimeout(timeoutId)]
    comes right after [fetch]): nothing ends the wait for the body. *)
Definition read_answer (modelName : jsstring) (r : HttpResponse)
  : promise jsstring :=
  match body r with
  | Stalled => Pending
  | Interrupted e => Settled (Throw e)
  | NotJson msg =>
      Settled (Throw (JsError
                 (js "Failed to parse Jatevo API response as JSON: " ++ msg)))
  | Primitive data =>
      if ok r then TypeError (InPrimitive data)
      else
        match data with
        | PNull => TypeError ErrorOfNull
        | _ => TypeError (MessageOfError Undefined)
        end
  | ErrorNull => TypeError (MessageOfError Null)
  | ErrorBody message code type =>
      Settled (Throw (JsError (js "Jatevo API error: " ++ message
                                 ++ js " (Code: " ++ code ++ js ", Type: "
                                 ++ type ++ js ")")))
  | ErrorWithoutText => TypeError TextOfError
  | Completion choices =>
      if negb (ok r) then
        (* errorData.error is undefined *)
        TypeError (MessageOfError Undefined)
      else
        match choices with
        | None | Some [] =>
            Settled (Throw (JsError (js "No response from " ++ modelName
                                       ++ js " model")))
        | Some (c :: _) => Settled (Return (content c))
        end
  | Incomplete missing =>
      if negb (ok r) then TypeError (MessageOfError Undefined)
      else
        TypeError (match missing with
                   | NoChoice x => MessageOfChoice x
                   | NoMessage x => ContentOfMessage x
                   | NoContent x => LengthOfContent x
                   end)
  end.

Definition callGLM46 (u : Upstream)
           (prompt apiKey modelName apiEndpoint : jsstring) : M jsstring :=
  if negb (nonempty apiKey) then
    throw (JsError (js "JATEVO_API_KEY is required"))
  else
    try_catch
      (requestStartTime <- Date_now clock ;;
       emit (EvInference apiEndpoint modelName prompt) ;;;
       response <- lift (fetch_with_timeout u) ;;
       received <- Date_now clock ;;
       await (read_answer modelName response))
      (rethrow (js "Failed to call " ++ modelName ++ js ": ")).

End Client.

(** The state of a call once the request has gone out: the clock has been
    read ([requestStartTime]) and [fetch] has been called. *)
Definition requested (clock : nat -> N) (endpoint modelName prompt : jsstring)
           (st : state) : state :=
  State (S (reads st))
        (EvInference endpoint modelName prompt
           :: EvNow (clock (reads st)) :: trace st).

(** The state once [fetch] has resolved: the clock has been read again
    ([requestDuration]). *)
Definition answered (clock : nat -> N) (endpoint modelName prompt : jsstring)
           (st : state) : state :=
  State (S (S (reads st)))
        (EvNow (clock (S (reads st)))
           :: trace (requested clock endpoint modelName prompt st)).

Definition default_endpoint : jsstring :=
  js "https://inference.jatevo.id/v1/chat/completions".

End Jatevo.
Export Jatevo.

(* ================================================================== *)
(** * The [analyzeMoodboard] entrypoint *)
(* ================================================================== *)

Module Agent.

Import Zod.

(** What line 82 of the handler reads of a row: [symbol], a string;
    [current_price], a number; [price_change_percentage_24h], a number, or
    nothing when it is [undefined] or [null]; and the text the template
    literal makes of [market_cap_rank], whatever that is. *)
Record Coin := {
  coin_symbol : jsstring;
  current_price : number;
  price_change_percentage_24h : option number;
  coin_market_cap_rank : jsstring
}.

(** An element of the array [getTopCoins] returns.  The array is cast to
    [CoinData[]], not checked.  Line 82 either reads an element as a coin,
    or raises a TypeError on it: the element is [null] or has no [symbol]
    or no [current_price], the [symbol] is not a string, a price is not a
    number, or the [market_cap_rank] has no text. *)
Inductive Row :=
| Readable (c : Coin)
| Unreadable (type_error : jsstring).   (* the message of the TypeError *)

(** The object literal the handler returns. *)
Record Output := {
  date : jsstring;
  analyzed_at : jsstring;
  raw_response : jsstring;
  corrected_response : jsstring;
  parsed_data : value;                 (* [JNull] or the parsed object *)
  model_used : jsstring;
  analysis_duration_ms : Z
}.

Record Result := { output : Output; model : jsstring; raw : bool }.

(** What the world does during one invocation.  The call of
    [getTopCoins] is taken to settle: it returns an array of rows (or
    [null] or [undefined], here [None]), or it throws. *)
Record World := {
  clock : nat -> N;                          (* successive clock readings *)
  fetched : outcome (option (list Row));     (* getTopCoins *)
  upstream : Upstream                        (* the inference endpoint *)
}.

(** [coins.map(...)] as far as the rows go: the coins line 82 reads, or
    the TypeError of the first row it cannot read. *)
Fixpoint read_rows (rows : list Row) : outcome (list Coin) :=
  match rows with
  | [] => Return []
  | Readable c :: rest =>
      match read_rows rest with
      | Return cs => Return (c :: cs)
      | Throw e => Throw e
      end
  | Unreadable message :: _ => Throw (JsError message)
  end.

(** What the handler gets out of CoinGecko: the coins it reads from the
    rows [getTopCoins] returned, or nothing, or a failure, of the fetch or
    of the reading. *)
Definition coingecko (w : World) : outcome (option (list Coin)) :=
  match fetched w with
  | Throw e => Throw e
  | Return None => Return None
  | Return (Some rows) =>
      match read_rows rows with
      | Return coins => Return (Some coins)
      | Throw e => Throw e
      end
  end.

(** The patterns of the clean-up step. *)
Definition re_fence_json : regex := lit (js "```json") ++ [Many is_space].
Definition re_fence : regex := lit (js "```") ++ [Many is_space].
Definition re_object : regex := lit (js "{") ++ [Many any] ++ lit (js "}").

(** The end of [re_object]: the closing brace. *)
Definition closing : jsstring -> option (jsstring * jsstring) :=
  match_here (lit (js "}")).

(** [response.replace(/```json\s*/g, "").replace(/```\s*/g, "").trim()] *)
Definition clean (response : jsstring) : jsstring :=
  String_trim
    (String_replace_all re_fence []
       (String_replace_all re_fence_json [] response)).

(** [cleaned.match(/\{[\s\S]*\}/)] *)
Definition jsonMatch (cleaned : jsstring) : option jsstring :=
  String_match re_object cleaned.

(** Truthiness of a property value. *)
Definition truthy (v : option value) : bool :=
  match v with
  | None | Some JNull => false
  | Some (JBool b) => b
  | Some (JNum n) => negb (number_is_zero n)
  | Some (JStr s) => nonempty s
  | Some (JArr _) | Some (JObj _) => true
  end.

(** [if (o[k]) { o[k] = v }] *)
Definition fix_field (k : jsstring) (v : jsstring) (o : object) : object :=
  if truthy (get k o) then set k (JStr v) o else o.

(** The two corrections, [date] first. *)
Definition restamp (currentDate currentTimestamp : jsstring) (o : object)
  : object :=
  fix_field (js "analyzed_at") currentTimestamp
            (fix_field (js "date") currentDate o).

(** The inner [try] block of step 4: the values of [parsedResponse] and
    [correctedResponse] when it is left, normally or through its
    [catch]. *)
Definition normalize (response currentDate currentTimestamp : jsstring)
  : value * jsstring :=
  match jsonMatch (clean response) with
  | Some m =>
      match JSON_parse m with
      | Some (JObj o) =>
          let o' := restamp currentDate currentTimestamp o in
          (JObj o', JSON_stringify (JObj o'))
      | Some JNull => (JNull, response)      (* reading a property throws *)
      | Some v => (v, JSON_stringify v)      (* no such properties *)
      | None => (JNull, response)            (* JSON.parse throws *)
      end
  | None => (JNull, response)
  end.

(** The part of [config] the handler reads, and the template literal of
    the prompt as a function of [limit], [coinsSummary], [currentDate] and
    [currentTimestamp]. *)
Record Config := {
  jatevoApiKey : jsstring;
  jatevoModel : jsstring;
  prompt_text : number -> jsstring -> jsstring -> jsstring -> jsstring
}.

Section Handler.

Variable cfg : Config.
Variable rt : Runtime.
Variable w : World.

Definition now : M N := Date_now (clock w).

Definition getTopCoins (i : Input) : M (option (list Row)) :=
  emit (EvGetTopCoins (limit i) (vs_currency i)) ;;; lift (fetched w).

(** The template literal of line 82. *)
Definition coin_line (c : Coin) : jsstring :=
  toUpperCase rt (coin_symbol c) ++ js ": $" ++ toFixed2 rt (current_price c)
  ++ js ", 24h change: "
  ++ match price_change_percentage_24h c with
     | Some x => toFixed2 rt x
     | None => js "undefined"
     end
  ++ js "%, Market Cap Rank: #" ++ coin_market_cap_rank c.

(** [coins.map((coin) => `...`)]: row after row, up to the first one
    that cannot be read. *)
Fixpoint summary_lines (rows : list Row) : outcome (list jsstring) :=
  match rows with
  | [] => Return []
  | Readable c :: rest =>
      match summary_lines rest with
      | Return lines => Return (coin_line c :: lines)
      | Throw e => Throw e
      end
  | Unreadable message :: _ => Throw (JsError message)
  end.

Definition newline : jsstring := [10].

Definition handler (i : Input) : M Result :=
  try_catch
    (coins <- getTopCoins i ;;
     match coins with
     | None | Some [] =>
         throw (JsError (js "No coin data received from CoinGecko"))
     | Some rows =>
         lines <- lift (summary_lines rows) ;;
         let coinsSummary := join newline lines in
         d <- now ;;
         let currentDate := before_first 84 (toISOString rt d) in
         t <- now ;;
         let currentTimestamp := toISOString rt t in
         let prompt :=
           prompt_text cfg (limit i) coinsSummary currentDate currentTimestamp in
         analysisStartTime <- now ;;
         response <-
           callGLM46 rt (clock w) (upstream w) prompt (jatevoApiKey cfg)
                     (jatevoModel cfg) default_endpoint ;;
         analysisEnd <- now ;;
         let analysisDuration :=
           (Z.of_N analysisEnd - Z.of_N analysisStartTime)%Z in
         let (parsedResponse, correctedResponse) :=
           normalize response currentDate currentTimestamp in
         ret {| output :=
                  {| date := currentDate;
                     analyzed_at := currentTimestamp;
                     raw_response := response;
                     corrected_response := correctedResponse;
                     parsed_data := parsedResponse;
                     model_used := jatevoModel cfg;
                     analysis_duration_ms := analysisDuration |};
                model := jatevoModel cfg;
                raw := true |}
     end)
    (rethrow (js "Moodboard analysis failed: ")).

(** How an invocation of the entrypoint ends. *)
Inductive Response :=
| Invalid                      (* the input schema rejects the body *)
| Failed (e : thrown)          (* the handler throws *)
| Done (r : Result)
| Unanswered.                  (* the handler never settles *)

Definition initial : state := State 0 [].

(** Modelled from the spec: the dispatch of the agent kit
    ([createAgentApp], [addEntrypoint]) is missing from the sources.  The
    design document says that a request is "validated before any paid work
    begins" and that a bad one is "rejected before any paid work": the
    request body is read through the [input] schema of the entrypoint
    first, and the handler runs on what the schema returns. *)
Definition invoke (requestBody : value) : Response * state :=
  match input_schema (Some requestBody) with
  | None => (Invalid, initial)
  | Some i =>
      match handler i initial with
      | (Settled (Return r), st) => (Done r, st)
      | (Settled (Throw e), st) => (Failed e, st)
      | (Pending, st) => (Unanswered, st)
      end
  end.

End Handler.

(** The returned object as a JSON value. *)
Definition output_value (o : Output) : value :=
  JObj [ (js "date", JStr (date o));
         (js "analyzed_at", JStr (analyzed_at o));
         (js "raw_response", JStr (raw_response o));
         (js "corrected_response", JStr (corrected_response o));
         (js "parsed_data", parsed_data o);
         (js "model_used", JStr (model_used o));
         (js "analysis_duration_ms", JNum (number_of_Z (analysis_duration_ms o))) ].

Definition result_fields (r : Result) : object :=
  [ (js "output", output_value (output r));
    (js "model", JStr (model r));
    (js "raw", JBool (raw r)) ].

Definition result_value (r : Result) : value := JObj (result_fields r).

(** The fields of the returned object that the normalisation step
    produces; [model_used] and [analysis_duration_ms] tell where the reply
    came from and how long it took. *)
Definition normalized_output (o : Output)
  : jsstring * jsstring * jsstring * jsstring * value :=
  (date o, analyzed_at o, raw_response o, corrected_response o, parsed_data o).

(** The endpoint leaves the timer time to fire: no headers and no failure
    by the time it does. *)
Definition no_answer_before_ceiling (u : Upstream) : bool :=
  match u with
  | Silent => true
  | Answers t _ | Fails t _ => N.ltb TIMEOUT_MS t
  end.

(** The text contains three backticks in a row somewhere. *)
Definition contains_fence (s : jsstring) : bool :=
  match search (lit (js "```")) s with
  | Some _ => true
  | None => false
  end.

(** The text starts with three backticks. *)
Definition starts_fence (s : jsstring) : bool :=
  match s with
  | a :: b :: c :: _ => N.eqb 96 a && N.eqb 96 b && N.eqb 96 c
  | _ => false
  end.

(** A text inside a markdown code block, with and without the language
    tag. *)
Definition fenced_json (text : jsstring) : jsstring :=
  js "```json" ++ [10] ++ text ++ [10] ++ js "```".
Definition fenced_plain (text : jsstring) : jsstring :=
  js "```" ++ [10] ++ text ++ [10] ++ js "```".

(** The step could not read an object out of the reply: no braces, or
    [JSON.parse] throws on what is between them. *)
Definition parse_fails (response : jsstring) : bool :=
  match jsonMatch (clean response) with
  | None => true
  | Some m => match JSON_parse m with None => true | Some _ => false end
  end.

End Agent.
Export Agent.

(* ================================================================== *)
(** * The consistency script *)
(* ================================================================== *)

Module Harness.

Record TestResult := {
  attempt : nat;
  success : bool;
  status : N;
  hasRawResponse : option bool;
  validated : option bool;
  responseTime : Z;
  error : option value
}.

(** An HTTP answer as the script reads it. *)
Record Answer := { http_status : N; text : jsstring }.

(** [response.ok]: a status from 200 to 299. *)
Definition http_ok (a : Answer) : bool :=
  N.leb 200 (http_status a) && N.leb (http_status a) 299.

(** What happens during one trial. *)
Record Trial := {
  startTime : N;                   (* Date.now() on entry *)
  endTime : N;                     (* Date.now() when the result is built *)
  initialStatus : outcome N;       (* first fetch and [.json()] *)
  paymentHeader : outcome unit;    (* reading the challenge and signing *)
  paidResponse : outcome Answer    (* second fetch and [.text()] *)
}.

(** [v?.k] for a property that is neither an index nor [length]. *)
Definition member_opt (k : string) (v : option value) : option value :=
  match v with
  | Some (JObj o) => get (js k) o
  | _ => None
  end.

Definition is_true (v : option value) : bool :=
  match v with Some (JBool true) => true | _ => false end.
Definition is_false (v : option value) : bool :=
  match v with Some (JBool false) => true | _ => false end.
Definition is_undefined (v : option value) : bool :=
  match v with None => true | _ => false end.

(** [paidBody.raw === true || paidBody.output?.raw_response !== undefined] *)
Definition body_hasRawResponse (paidBody : object) : bool :=
  is_true (get (js "raw") paidBody)
  || negb (is_undefined (member_opt "raw_response" (get (js "output") paidBody))).

(** [!hasRawResponse && paidBody.validated !== false] *)
Definition body_validated (paidBody : object) : bool :=
  negb (body_hasRawResponse paidBody)
  && negb (is_false (get (js "validated") paidBody)).

(** The clock reading that goes into the result, less the one on entry. *)
Definition elapsed (t : Trial) : Z :=
  (Z.of_N (endTime t) - Z.of_N (startTime t))%Z.

Definition failure (n : nat) (st : N) (t : Trial) (e : value) : TestResult :=
  {| attempt := n; success := false; status := st;
     hasRawResponse := None; validated := None;
     responseTime := elapsed t; error := Some e |}.

(** The outer [catch]:
    [error instanceof Error ? error.message : "Unknown error"], status 0. *)
Definition caught (n : nat) (t : Trial) (e : thrown) : TestResult :=
  failure n 0 t
          (match e with
           | JsError m => JStr m
           | NonError => JStr (js "Unknown error")
           end).

Section Script.

(** The message of the TypeError raised when a property of [null] is
    read. *)
Variable null_property_message : jsstring.

Definition runSingleTest (n : nat) (t : Trial) : TestResult :=
  match initialStatus t with
  | Throw e => caught n t e
  | Return st =>
      if negb (N.eqb st 402) then
        failure n st t (JStr (js "Expected 402, got " ++ N_text st))
      else
        match paymentHeader t with
        | Throw e => caught n t e
        | Return _ =>
            match paidResponse t with
            | Throw e => caught n t e
            | Return a =>
                match JSON_parse (text a) with
                | None =>
                    failure n (http_status a) t
                            (JStr (js "Failed to parse response as JSON"))
                | Some JNull =>
                    (* paidBody.error, paidBody.raw: reading null *)
                    caught n t (JsError null_property_message)
                | Some paidBody =>
                    let o := match paidBody with JObj o => o | _ => [] end in
                    if negb (http_ok a) then
                      let m := member_opt "message" (get (js "error") o) in
                      failure n (http_status a) t
                              (match m with
                               | Some x =>
                                   if Agent.truthy m then x
                                   else JStr (js "Request failed")
                               | None => JStr (js "Request failed")
                               end)
                    else
                      {| attempt := n; success := true; status := 200;
                         hasRawResponse := Some (body_hasRawResponse o);
                         validated := Some (body_validated o);
                         responseTime := elapsed t; error := None |}
                end
            end
        end
  end.

End Script.

(** A JavaScript number that may be infinite. *)
Inductive jsnum :=
| Finite (q : Q)
| Infinity.

Definition successCount (results : list TestResult) : nat :=
  length (filter success results).

(** [r.success && r.validated !== false] *)
Definition counts_validated (r : TestResult) : bool :=
  success r && negb (match validated r with Some false => true | _ => false end).

Definition validatedCount (results : list TestResult) : nat :=
  length (filter counts_validated results).

Definition rawResponseCount (results : list TestResult) : nat :=
  length (filter (fun r => match hasRawResponse r with
                           | Some true => true
                           | _ => false
                           end) results).

(** [results.filter((r) => r.responseTime > 0)
           .reduce((sum, r) => sum + r.responseTime, 0)] *)
Definition timeSum (results : list TestResult) : Z :=
  fold_left (fun sum r => (sum + responseTime r)%Z)
            (filter (fun r => (0 <? responseTime r)%Z) results) 0%Z.

(** [timeSum / successCount || 0] *)
Definition avgResponseTime (results : list TestResult) : jsnum :=
  match successCount results with
  | O => if (0 <? timeSum results)%Z then Infinity else Finite 0
  | S _ => Finite (Qmake (timeSum results) (Pos.of_nat (successCount results)))
  end.

(** The argument of [process.exit] at the end of [runConsistencyTest]. *)
Definition exitCode (results : list TestResult) : N :=
  if Nat.eqb (successCount results) 5 && Nat.eqb (validatedCount results) 5
  then 0
  else if Nat.eqb (successCount results) 5
          && Nat.ltb 0 (rawResponseCount results)
  then 1
  else 1.

(** The loop [for (let i = 1; i <= 5; i++)]: one trial after the other. *)
Definition trial_numbers : list nat := [1; 2; 3; 4; 5]%nat.

Definition runTrials (null_property_message : jsstring)
           (trials : nat -> Trial) : list TestResult :=
  map (fun i => runSingleTest null_property_message i (trials i))
      trial_numbers.

Definition runConsistencyTest (null_property_message : jsstring)
           (trials : nat -> Trial) : N :=
  exitCode (runTrials null_property_message trials).

(** The rates the summary prints, in percent:
    [(successCount / 5) * 100] and [(validatedCount / 5) * 100]. *)
Definition successRate (results : list TestResult) : Q :=
  (Z.of_nat (successCount results) # 5) * (100 # 1).
Definition validatedRate (results : list TestResult) : Q :=
  (Z.of_nat (validatedCount results) # 5) * (100 # 1).

(** The mean of the response times of the successful trials. *)
Definition mean_of_successful (results : list TestResult) : Q :=
  Qmake (fold_left (fun sum r => (sum + responseTime r)%Z)
                   (filter success results) 0%Z)
        (Pos.of_nat (successCount results)).

End Harness.
Export Harness.

(* ================================================================== *)
(** * Concrete configurations, worlds and replies *)
(* ================================================================== *)

Module Demo.

Definition cfg : Config :=
  {| jatevoApiKey := js "jk-test";
     jatevoModel := js "zai-glm-4.6";
     prompt_text := fun limit coinsSummary currentDate currentTimestamp =>
       js "Market Data (" ++ number_text limit ++ js " coins): " ++ coinsSummary
       ++ js " date " ++ currentDate ++ js " at " ++ currentTimestamp |}.

Definition rt : Runtime :=
  {| toISOString := fun t =>
       if N.ltb t 1793613600500 then js "2026-11-02T10:00:00.000Z"
       else js "2026-11-02T10:00:00.500Z";
     toUpperCase := fun s => s;
     toFixed2 := number_text;
     abort_message := js "The operation was aborted.";
     type_error_message := fun e =>
       match e with
       | InPrimitive _ => js "data is not an Object"
       | ErrorOfNull => js "null is not an object (evaluating 'errorData.error')"
       | MessageOfError Undefined =>
           js "undefined is not an object (evaluating 'errorData.error.message')"
       | MessageOfError Null =>
           js "null is not an object (evaluating 'errorData.error.message')"
       | TextOfError => js "No default value"
       | MessageOfChoice _ =>
           js "undefined is not an object (evaluating 'responseData.choices[0].message')"
       | ContentOfMessage _ =>
           js "undefined is not an object (evaluating 'responseData.choices[0].message.content')"
       | LengthOfContent _ =>
           js "undefined is not an object (evaluating 'content.length')"
       end |}.

Definition btc : Coin :=
  {| coin_symbol := js "BTC";
     current_price := number_of_Z 68000;
     price_change_percentage_24h := Some (Number true [2; 9] 1);
     coin_market_cap_rank := js "1" |}.

(** The clock advances by 500 ms from one reading to the next. *)
Definition ticking (n : nat) : N := 1793613600000 + 500 * N.of_nat n.

(** The endpoint answers [reply] after 1.2 s. *)
Definition answering (reply : jsstring) : World :=
  {| clock := ticking;
     fetched := Return (Some [Readable btc]);
     upstream := Answers 1200 {| ok := true;
                                 body := Completion (Some [{| content := reply |}]) |} |}.

(** The endpoint never answers. *)
Definition hanging : World :=
  {| clock := ticking; fetched := Return (Some [Readable btc]);
     upstream := Silent |}.

(** The endpoint sends its headers after 1.2 s, and never the body. *)
Definition stalling : World :=
  {| clock := ticking;
     fetched := Return (Some [Readable btc]);
     upstream := Answers 1200 {| ok := true; body := Stalled |} |}.

(** The same, with a slower clock from the third reading on. *)
Definition answering_slowly (reply : jsstring) : World :=
  {| clock := fun n => if Nat.ltb n 3 then ticking n else ticking n + 777;
     fetched := Return (Some [Readable btc; Readable btc]);
     upstream := Answers 1979 {| ok := true;
                                 body := Completion (Some [{| content := reply |}]) |} |}.

Definition input : Zod.Input :=
  {| Zod.limit := number_of_Z 10; Zod.vs_currency := js "usd" |}.

Definition refusal : jsstring := js "I cannot help with that.".

Definition today : jsstring := js "2026-11-02".
Definition this_instant : jsstring := js "2026-11-02T10:00:00.500Z".

(** An object that conforms to [moodboardOutputSchema], with the chart
    emoji U+1F4C8 as mood. *)
Definition conforming : object :=
  [ (js "date", JStr (js "2020-01-01"));
    (js "coins",
     JArr [JObj [ (js "symbol", JStr (js "BTC"));
                  (js "mood", JStr [55357; 56520]);
                  (js "narrative", JStr (js "rally"));
                  (js "score", JNum (Number false [8] 0)) ]]);
    (js "analyzed_at", JStr (js "2020-01-01T00:00:00.000Z")) ].

(** The same object with the timestamps of the invocation. *)
Definition restamped : object :=
  [ (js "date", JStr today);
    (js "coins",
     JArr [JObj [ (js "symbol", JStr (js "BTC"));
                  (js "mood", JStr [55357; 56520]);
                  (js "narrative", JStr (js "rally"));
                  (js "score", JNum (Number false [8] 0)) ]]);
    (js "analyzed_at", JStr this_instant) ].

(** A reply whose date fields are present and empty. *)
Definition empty_dates : jsstring :=
  jsq "{'date':'','coins':[],'analyzed_at':''}".

(** A reply with made-up dates. *)
Definition stale_dates : jsstring :=
  jsq "{'date':'1999-12-31','coins':[],'analyzed_at':'yesterday'}".

(** A trial that is challenged, pays and gets [text] back with status
    [st], 100 ms after it started. *)
Definition paid_trial (st : N) (text : jsstring) : Trial :=
  {| startTime := 1793613600000;
     endTime := 1793613600100;
     initialStatus := Return 402;
     paymentHeader := Return tt;
     paidResponse := Return {| http_status := st; text := text |} |}.

(** The body of a paid answer that carries the handler's output. *)
Definition raw_body : jsstring :=
  jsq "{'output':{'date':'2026-11-02','raw_response':'I cannot help with that.','parsed_data':null},'model':'zai-glm-4.6','raw':true}".

Definition error_body : jsstring :=
  jsq "{'error':{'message':'Moodboard analysis failed: Failed to call zai-glm-4.6: The operation was aborted.'}}".

Definition null_message : jsstring := js "null is not an object".

(** Five paid trials that all come back 200 with the handler's output. *)
Definition all_raw (n : nat) : Trial := paid_trial 200 raw_body.

(** Four trials come back 200, the fifth 500. *)
Definition one_failure (n : nat) : Trial :=
  if Nat.eqb n 5 then paid_trial 500 error_body else paid_trial 200 raw_body.

End Demo.

(* ================================================================== *)
(** * The configuration module ([loadConfig], [getDefaultPrice]) *)
(* ================================================================== *)

Module Settings.

(** [process.env]: every variable is a string or [undefined]. *)
Definition environment := jsstring -> option jsstring.

(** A variable counts as set when it holds a non-empty string: this is
    what [!v] and [v || d] test. *)
Definition set_value (v : option jsstring) : option jsstring :=
  match v with
  | Some s => if nonempty s then Some s else None
  | None => None
  end.

(** [v || d] *)
Definition or_else (v : option jsstring) (d : jsstring) : jsstring :=
  match set_value v with
  | Some s => s
  | None => d
  end.

(** What [Number(x)] can return. *)
Inductive numeric :=
| Num (n : number)
| NaN
| PlusInfinity
| MinusInfinity.

Record AgentConfig := {
  port : numeric;
  apiBaseUrl : jsstring;
  jatevoApiKey : jsstring;
  jatevoApiEndpoint : jsstring;
  jatevoModel : jsstring;
  privateKey : jsstring;
  facilitatorUrl : jsstring;
  payTo : jsstring;
  network : jsstring;
  defaultPriceUsdc : jsstring;
  coinGeckoBaseUrl : jsstring
}.

Definition private_key_required : jsstring :=
  js "PRIVATE_KEY is required. Please set it in your .env file.".
Definition api_key_required : jsstring :=
  js "JATEVO_API_KEY is required. Please set it in your .env file.".

Section Load.

(** [Number(s)] on a string, and [usdcToBaseUnits] on a string
    ([parseFloat], a floating-point product and [Math.floor]): both are
    left to the runtime. *)
Variable StringToNumber : jsstring -> numeric.
Variable usdcToBaseUnits : jsstring -> jsstring.

Definition loadConfig (env : environment) : outcome AgentConfig :=
  match set_value (env (js "PRIVATE_KEY")) with
  | None => Throw (JsError private_key_required)
  | Some privateKey =>
      match set_value (env (js "JATEVO_API_KEY")) with
      | None => Throw (JsError api_key_required)
      | Some jatevoApiKey =>
          Return
            {| port :=
                 match set_value (env (js "PORT")) with
                 | Some s => StringToNumber s
                 | None => Num (number_of_Z 8787)
                 end;
               apiBaseUrl :=
                 or_else (env (js "API_BASE_URL")) (js "http://localhost:8787");
               jatevoApiKey := jatevoApiKey;
               jatevoApiEndpoint :=
                 or_else (env (js "JATEVO_API_ENDPOINT"))
                         (js "https://inference.jatevo.id/v1/chat/completions");
               jatevoModel :=
                 or_else (env (js "JATEVO_MODEL"))
                         (js "deepseek-ai/DeepSeek-R1-0528");
               privateKey := privateKey;
               facilitatorUrl :=
                 or_else (env (js "FACILITATOR_URL"))
                         (js "https://facilitator.daydreams.systems");
               payTo :=
                 or_else (env (js "PAY_TO"))
                         (js "0xb308ed39d67D0d4BAe5BC2FAEF60c66BBb6AE429");
               network := or_else (env (js "NETWORK")) (js "base");
               defaultPriceUsdc :=
                 or_else (env (js "DEFAULT_PRICE_USDC")) (js "0.01");
               coinGeckoBaseUrl :=
                 or_else (env (js "COINGECKO_BASE_URL"))
                         (js "https://api.coingecko.com/api/v3") |}
      end
  end.

Definition getDefaultPrice (env : environment) : outcome jsstring :=
  match loadConfig env with
  | Throw e => Throw e
  | Return config =>
      Return (match set_value (env (js "DEFAULT_PRICE")) with
              | Some s => s
              | None => usdcToBaseUnits (defaultPriceUsdc config)
              end)
  end.

End Load.

(** The two settings the handler reads from [config]. *)
Definition handler_config (config : AgentConfig)
    (prompt_text : number -> jsstring -> jsstring -> jsstring -> jsstring)
  : Config :=
  {| Agent.jatevoApiKey := jatevoApiKey config;
     Agent.jatevoModel := jatevoModel config;
     Agent.prompt_text := prompt_text |}.

End Settings.

(* ================================================================== *)
(** * The request [callGLM46] sends *)
(* ================================================================== *)

Module Request.

Definition system_content : jsstring :=
  js "You are a JSON-only API. Your response must be valid JSON only. No markdown code blocks, no explanations, no text before or after. Return ONLY the JSON object.".

(** The [requestBody] object of [callGLM46]. *)
Definition requestBody (modelName prompt : jsstring) : value :=
  JObj [ (js "model", JStr modelName);
         (js "messages",
          JArr [ JObj [ (js "role", JStr (js "system"));
                        (js "content", JStr system_content) ];
                 JObj [ (js "role", JStr (js "user"));
                        (js "content", JStr prompt) ] ]);
         (js "stop", JArr []);
         (js "stream", JBool false);
         (js "top_p", JNum (number_of_Z 1));
         (js "max_tokens", JNum (number_of_Z 2000));
         (js "temperature", JNum (Number false [2] 0));
         (js "presence_penalty", JNum (number_of_Z 0));
         (js "frequency_penalty", JNum (number_of_Z 0)) ].

(** The second argument of [fetch], without the abort signal. *)
Record RequestInit := {
  method : jsstring;
  headers : list (jsstring * jsstring);
  payload : jsstring
}.

Definition request_init (apiKey modelName prompt : jsstring) : RequestInit :=
  {| method := js "POST";
     headers := [ (js "Authorization", js "Bearer " ++ apiKey);
                  (js "Content-Type", js "application/json") ];
     payload := JSON_stringify (requestBody modelName prompt) |}.

(** [v[i]] on an array; [None] for anything else. *)
Definition element (i : nat) (v : option value) : option value :=
  match v with
  | Some (JArr l) => nth_error l i
  | _ => None
  end.

End Request.

(* ================================================================== *)
(** * Notions the further properties are stated with *)
(* ================================================================== *)

(** The event is an inference request. *)
Definition is_inference (e : event) : bool :=
  match e with EvInference _ _ _ => true | _ => false end.

(** What an accepted coin looks like. *)
Definition coin_conforms (v : value) (c : Zod.CoinMood) : Prop :=
  exists o,
    v = JObj o
    /\ get (js "symbol") o = Some (JStr (Zod.symbol c))
    /\ get (js "mood") o = Some (JStr (Zod.mood c))
    /\ get (js "narrative") o = Some (JStr (Zod.narrative c))
    /\ get (js "score") o = Some (JNum (Zod.score c))
    /\ get (js "price_change_24h") o = option_map JNum (Zod.price_change_24h c)
    /\ get (js "market_cap_rank") o = option_map JNum (Zod.market_cap_rank c)
    /\ nonempty (Zod.symbol c) = true
    /\ nonempty (Zod.mood c) = true
    /\ nonempty (Zod.narrative c) = true
    /\ (0 <= number_to_Q (Zod.score c))%Q
    /\ (number_to_Q (Zod.score c) <= 1)%Q.

(** What every result of [runSingleTest] looks like. *)
Definition result_shape (r : TestResult) : Prop :=
  match success r with
  | true =>
      status r = 200 /\ error r = None
      /\ exists raw v,
           hasRawResponse r = Some raw /\ validated r = Some v
           /\ (v = true -> raw = false)
  | false =>
      hasRawResponse r = None /\ validated r = None /\ error r <> None
  end.

(** The text has no white space at either end. *)
Definition is_trimmed (s : jsstring) : bool :=
  match s with
  | [] => true
  | c :: _ => negb (is_space c) && negb (is_space (last s c))
  end.

(** [JSON.parse(cleaned)] in scripts/test-jatevo-full.ts: the content is
    cleaned of fences in the same way and then parsed whole, without a
    search for braces. *)
Definition parse_cleaned (content : jsstring) : option value :=
  JSON_parse (clean content).

(** The least and the greatest positive value of a JavaScript number
    (a double): 2^-1074 and (2^53 - 1) * 2^971. *)
Definition MIN_VALUE : Q := 1 # (2 ^ 1074).
Definition MAX_VALUE : Q := ((2 ^ 53 - 1) * 2 ^ 971) # 1.

(** A number that [JSON.parse] reads without overflow to [Infinity] and
    without underflow to zero: it is not zero, and its magnitude lies
    between the least and the greatest positive double.  Such a number is
    read as a double other than zero, which [JSON.stringify] writes in a
    form that is read as the same double again. *)
Definition finite_nonzero (n : number) : bool :=
  let magnitude := number_to_Q (Number false (digits n) (point n)) in
  Qle_bool MIN_VALUE magnitude && Qle_bool magnitude MAX_VALUE.

(** Every number inside the value is in the class [p]. *)
Fixpoint every_number (p : number -> bool) (v : value) : bool :=
  match v with
  | JNum n => p n
  | JArr l => forallb (every_number p) l
  | JObj o => forallb (fun kv => every_number p (snd kv)) o
  | _ => true
  end.

(** ** Invariants of the lexer and of the parser *)

(** A number token holds a number in canonical form. *)
Definition token_ok (t : token) : bool :=
  match t with
  | TNumber n => canonical n
  | _ => true
  end.

(** The property is an array index below [i]. *)
Definition smaller_index (i : N) (kv : jsstring * value) : bool :=
  match array_index (fst kv) with
  | Some j => N.ltb j i
  | None => false
  end.

(** What is in the open containers, and in the state as a whole, is well
    formed. *)
Definition context_ok (c : context) : bool :=
  match c with
  | CArr acc => wf (JArr acc)
  | CObj acc _ => wf (JObj acc)
  end.

Definition state_ok (st : pstate) : bool :=
  match st with
  | PValue stk | PArrStart stk | PObjStart stk => forallb context_ok stk
  | PKey acc stk | PColon acc _ stk | PObjNext acc stk =>
      wf (JObj acc) && forallb context_ok stk
  | PArrNext acc stk => wf (JArr acc) && forallb context_ok stk
  | PDone v => wf v
  end.

Definition is_object_context (c : context) : bool :=
  match c with CObj _ _ => true | CArr _ => false end.

(** The outermost open container is an object ([obj] true) or an array
    ([obj] false). *)
Fixpoint outermost (obj : bool) (stk : list context) : bool :=
  match stk with
  | [] => false
  | [c] => Bool.eqb (is_object_context c) obj
  | _ :: stk' => outermost obj stk'
  end.

(** The same for a container of kind [own] that is open inside [stk]. *)
Definition outermost_with (obj own : bool) (stk : list context) : bool :=
  match stk with
  | [] => Bool.eqb own obj
  | _ => outermost obj stk
  end.

(** The value is an object ([obj] true) or an array ([obj] false). *)
Definition value_is (obj : bool) (v : value) : bool :=
  match v with
  | JObj _ => obj
  | JArr _ => negb obj
  | _ => false
  end.

(** Whatever the parser returns from this state is an object, or is an
    array. *)
Definition rooted (obj : bool) (st : pstate) : bool :=
  match st with
  | PValue stk => outermost obj stk
  | PArrStart stk | PArrNext _ stk => outermost_with obj false stk
  | PObjStart stk | PKey _ stk | PColon _ _ stk | PObjNext _ stk =>
      outermost_with obj true stk
  | PDone v => value_is obj v
  end.

(** The token of a string, a number or a literal. *)
Definition scalar_token (t : token) : bool :=
  match t with
  | TString _ | TNumber _ | TTrue | TFalse | TNull => true
  | _ => false
  end.

Module Samples.

(** An environment with both keys, an endpoint of its own and an empty
    [NETWORK]. *)
Definition demo_env : Settings.environment :=
  fun name =>
    if JS.eqb name (js "PRIVATE_KEY") then Some (js "0xabc")
    else if JS.eqb name (js "JATEVO_API_KEY") then Some (js "jk-test")
    else if JS.eqb name (js "JATEVO_API_ENDPOINT")
         then Some (js "http://localhost:9000/v1")
    else if JS.eqb name (js "NETWORK") then Some []
    else None.

(** A [Number] that reads every string as [NaN]. *)
Definition demo_number (s : jsstring) : Settings.numeric := Settings.NaN.

(** What the handler returns on the degraded path. *)
Definition refusal_output : Output :=
  {| date := Demo.today;
     analyzed_at := Demo.this_instant;
     raw_response := Demo.refusal;
     corrected_response := Demo.refusal;
     parsed_data := JNull;
     model_used := js "zai-glm-4.6";
     analysis_duration_ms := 500 |}.

Definition refusal_result : Result :=
  {| output := refusal_output; model := js "zai-glm-4.6"; raw := true |}.

(** A reply with numbers in it. *)
Definition scored_reply : jsstring :=
  jsq "{'date':'1999-12-31','coins':[{'symbol':'BTC','score':0.65,'price_change_24h':-2.09}]}".

End Samples.

(* ================================================================== *)
(** * Supporting lemmas *)
(* ================================================================== *)

(** ** The patterns of the clean-up step *)

Lemma any_true : forall c, any c = true.
Proof. intro c. unfold any. apply orb_negb_r. Qed.

Lemma closing_cons : forall c s,
  closing (c :: s) = if N.eqb 125 c then Some ([c], s) else None.
Proof. intros c s. unfold closing. simpl. destruct (N.eqb 125 c); reflexivity. Qed.

Lemma many_any_cons : forall k c s,
  many any k (c :: s)
  = match many any k s with
    | Some (m, rest) => Some (c :: m, rest)
    | None => k (c :: s)
    end.
Proof. intros k c s. cbn [many]. rewrite any_true. reflexivity. Qed.

Lemma many_any_no_closing : forall c, ~ In 125 c -> many any closing c = None.
Proof.
  induction c as [|h c IH]; intro Hc.
  - reflexivity.
  - rewrite many_any_cons. rewrite IH.
    + rewrite closing_cons. destruct (N.eqb_spec 125 h) as [E|E].
      * exfalso. apply Hc. left. symmetry. exact E.
      * reflexivity.
    + intro H. apply Hc. right. exact H.
Qed.

Lemma many_any_last_closing : forall b c,
  ~ In 125 c -> many any closing (b ++ 125 :: c) = Some (b ++ [125], c).
Proof.
  induction b as [|h b IH]; intros c Hc.
  - cbn [app]. rewrite many_any_cons.
    rewrite (many_any_no_closing c Hc). rewrite closing_cons. reflexivity.
  - cbn [app]. rewrite many_any_cons. rewrite (IH c Hc). reflexivity.
Qed.

Lemma re_object_here : forall b c,
  ~ In 125 c ->
  match_here re_object (123 :: b ++ 125 :: c) = Some (123 :: b ++ [125], c).
Proof.
  intros b c Hc.
  change (match_here re_object (123 :: b ++ 125 :: c))
    with (match many any closing (b ++ 125 :: c) with
          | Some (m, rest) => Some (123 :: m, rest)
          | None => None
          end).
  rewrite (many_any_last_closing b c Hc). reflexivity.
Qed.

Lemma re_object_not_here : forall h s,
  h <> 123 -> match_here re_object (h :: s) = None.
Proof.
  intros h s Hh.
  change (match_here re_object (h :: s))
    with (if N.eqb 123 h
          then match many any closing s with
               | Some (m, rest) => Some (h :: m, rest)
               | None => None
               end
          else None).
  destruct (N.eqb_spec 123 h) as [E|E]; [congruence | reflexivity].
Qed.

Lemma search_eq : forall r s,
  search r s
  = match match_here r s with
    | Some (m, rest) => Some ([], m, rest)
    | None =>
        match s with
        | [] => None
        | c :: s' =>
            match search r s' with
            | Some (b, m, a) => Some (c :: b, m, a)
            | None => None
            end
        end
    end.
Proof. intros r s. destruct s; reflexivity. Qed.

Lemma search_re_object : forall a b c,
  ~ In 123 a -> ~ In 125 c ->
  search re_object (a ++ 123 :: b ++ 125 :: c) = Some (a, 123 :: b ++ [125], c).
Proof.
  induction a as [|h a IH]; intros b c Ha Hc.
  - cbn [app]. rewrite search_eq, re_object_here by assumption. reflexivity.
  - cbn [app]. rewrite search_eq, re_object_not_here.
    + rewrite IH; [reflexivity | | assumption].
      intro H. apply Ha. right. exact H.
    + intro E. apply Ha. left. exact E.
Qed.

Lemma split_at_last : forall (x : N) s,
  In x s -> exists b c, s = b ++ x :: c /\ ~ In x c.
Proof.
  intros x. induction s as [|h s IH]; intro H.
  - destruct H.
  - destruct (in_dec N.eq_dec x s) as [Hin|Hout].
    + destruct (IH Hin) as (b & c & E & Hc). exists (h :: b), c.
      split; [simpl; congruence | exact Hc].
    + destruct H as [E|H]; [|contradiction]. subst h.
      exists [], s. split; [reflexivity | exact Hout].
Qed.

Lemma first_and_last_brace : forall x y z,
  exists a b c,
    x ++ 123 :: y ++ 125 :: z = a ++ 123 :: b ++ 125 :: c
    /\ ~ In 123 a /\ ~ In 125 c.
Proof.
  induction x as [|h x IH]; intros y z.
  - destruct (split_at_last 125 (y ++ 125 :: z)) as (b & c & E & Hc).
    { apply in_or_app. right. left. reflexivity. }
    exists [], b, c. simpl. rewrite E. auto.
  - destruct (N.eq_dec h 123) as [E|E].
    + subst h.
      destruct (split_at_last 125 (x ++ 123 :: y ++ 125 :: z))
        as (b & c & E & Hc).
      { apply in_or_app. right. right. apply in_or_app. right. left. reflexivity. }
      exists [], b, c. simpl. rewrite E. auto.
    + destruct (IH y z) as (a & b & c & E' & Ha & Hc).
      exists (h :: a), b, c. simpl. rewrite E'. repeat split; auto.
      intros [H|H]; [congruence | contradiction].
Qed.

Lemma match_here_lit_cons : forall c l r x s,
  match_here (lit (c :: l) ++ r) (x :: s)
  = if N.eqb c x
    then match match_here (lit l ++ r) s with
         | Some (m, rest) => Some (x :: m, rest)
         | None => None
         end
    else None.
Proof. reflexivity. Qed.

Lemma match_here_lit_end : forall c l r, match_here (lit (c :: l) ++ r) [] = None.
Proof. reflexivity. Qed.

Lemma fence_pattern_needs_fence : forall r s,
  starts_fence s = false -> match_here (lit (js "```") ++ r) s = None.
Proof.
  intros r s H. change (js "```") with [96; 96; 96].
  destruct s as [|a s]; [reflexivity|]. rewrite match_here_lit_cons.
  destruct (N.eqb 96 a) eqn:Ea; [|reflexivity].
  destruct s as [|b s]; [reflexivity|]. rewrite match_here_lit_cons.
  destruct (N.eqb 96 b) eqn:Eb; [|reflexivity].
  destruct s as [|c s]; [reflexivity|]. rewrite match_here_lit_cons.
  destruct (N.eqb 96 c) eqn:Ec; [|reflexivity].
  cbn [starts_fence] in H. rewrite Ea, Eb, Ec in H. discriminate H.
Qed.

Lemma fence_found : forall s,
  starts_fence s = true -> match_here (lit (js "```")) s <> None.
Proof.
  intros s H. destruct s as [|a [|b [|c s]]]; try discriminate H.
  cbn [starts_fence] in H. apply andb_prop in H. destruct H as (H & Hc).
  apply andb_prop in H. destruct H as (Ha & Hb).
  change (js "```") with [96; 96; 96].
  rewrite <- (app_nil_r (lit [96; 96; 96])).
  rewrite !match_here_lit_cons, Ha, Hb, Hc. discriminate.
Qed.

Lemma contains_fence_cons : forall c s,
  contains_fence (c :: s) = false ->
  starts_fence (c :: s) = false /\ contains_fence s = false.
Proof.
  intros c s H. unfold contains_fence in H. rewrite search_eq in H.
  destruct (match_here (lit (js "```")) (c :: s)) as [[m rest]|] eqn:E;
    [discriminate H|].
  split.
  - destruct (starts_fence (c :: s)) eqn:F; [|reflexivity].
    exfalso. exact (fence_found _ F E).
  - unfold contains_fence. destruct (search (lit (js "```")) s) as [[[b m] a]|];
      [discriminate H | reflexivity].
Qed.

(** Whether a text that ends with a closing brace starts with a fence does
    not depend on what follows the brace. *)
Lemma starts_fence_before_brace : forall x tail,
  starts_fence (x ++ 125 :: tail) = starts_fence (x ++ [125]).
Proof.
  intros x tail. destruct x as [|a [|b [|c x]]]; cbn [app starts_fence].
  - destruct tail as [|t1 [|t2 tail]]; reflexivity.
  - destruct tail as [|t1 tail]; [reflexivity|].
    cbn [N.eqb Pos.eqb]. rewrite andb_false_r. reflexivity.
  - cbn [N.eqb Pos.eqb]. rewrite !andb_false_r. reflexivity.
  - reflexivity.
Qed.

Lemma replace_from_cons : forall r repl c s,
  replace_from r repl 0 (c :: s)
  = match match_here r (c :: s) with
    | Some (m, _) =>
        match length m with
        | O => repl ++ c :: replace_from r repl 0 s
        | S k => repl ++ replace_from r repl k s
        end
    | None => c :: replace_from r repl 0 s
    end.
Proof. reflexivity. Qed.

Lemma replace_keeps_unfenced : forall r repl x tail,
  contains_fence (x ++ [125]) = false ->
  replace_from (lit (js "```") ++ r) repl 0 (x ++ 125 :: tail)
  = x ++ 125 :: replace_from (lit (js "```") ++ r) repl 0 tail.
Proof.
  intros r repl. induction x as [|c x IH]; intros tail H.
  - cbn [app]. rewrite replace_from_cons.
    rewrite fence_pattern_needs_fence; [reflexivity|].
    destruct tail as [|t1 [|t2 tail]]; reflexivity.
  - cbn [app] in *. apply contains_fence_cons in H. destruct H as (F & H).
    rewrite replace_from_cons. rewrite fence_pattern_needs_fence.
    + rewrite (IH tail H). reflexivity.
    + change (c :: x ++ 125 :: tail) with ((c :: x) ++ 125 :: tail).
      rewrite starts_fence_before_brace. exact F.
Qed.

Lemma drop_space_keeps : forall c s,
  is_space c = false -> drop_space (c :: s) = c :: s.
Proof. intros c s H. cbn [drop_space]. rewrite H. reflexivity. Qed.

Lemma rev_braced : forall b,
  exists r, rev (123 :: b ++ [125]) = 125 :: r.
Proof.
  intro b. exists (rev b ++ [123]).
  change (123 :: b ++ [125]) with ((123 :: b) ++ [125]).
  rewrite rev_app_distr. reflexivity.
Qed.

Lemma trim_braced : forall b,
  String_trim (123 :: b ++ [125]) = 123 :: b ++ [125].
Proof.
  intro b. unfold String_trim.
  rewrite (drop_space_keeps 123) by reflexivity.
  destruct (rev_braced b) as (r & R).
  rewrite R. rewrite (drop_space_keeps 125) by reflexivity.
  rewrite <- R. apply rev_involutive.
Qed.

Lemma trim_braced_newline : forall b,
  String_trim (123 :: b ++ 125 :: [10]) = 123 :: b ++ [125].
Proof.
  intro b. unfold String_trim.
  rewrite (drop_space_keeps 123) by reflexivity.
  replace (123 :: b ++ [125; 10]) with ((123 :: b ++ [125]) ++ [10])
    by (cbn [app]; rewrite <- app_assoc; reflexivity).
  rewrite rev_app_distr.
  change (rev [10] ++ rev (123 :: b ++ [125]))
    with (10 :: rev (123 :: b ++ [125])).
  cbn [drop_space]. change (is_space 10) with true. cbv iota.
  destruct (rev_braced b) as (r & R).
  rewrite R. rewrite (drop_space_keeps 125) by reflexivity.
  rewrite <- R. apply rev_involutive.
Qed.

(** The clean-up step on a braced text without fences, bare or inside a
    code block. *)
Lemma clean_bare : forall b,
  contains_fence (123 :: b ++ [125]) = false ->
  clean (123 :: b ++ [125]) = 123 :: b ++ [125].
Proof.
  intros b H. unfold clean, String_replace_all, re_fence, re_fence_json.
  change (lit (js "```json") ++ [Many is_space])
    with (lit (js "```") ++ lit (js "json") ++ [Many is_space]).
  change (123 :: b ++ [125]) with ((123 :: b) ++ [125]) at 1.
  rewrite replace_keeps_unfenced by exact H.
  change (replace_from (lit (js "```") ++ lit (js "json") ++ [Many is_space])
            [] 0 [])
    with (@nil N).
  rewrite replace_keeps_unfenced by exact H.
  change (replace_from (lit (js "```") ++ [Many is_space]) [] 0 [])
    with (@nil N).
  apply trim_braced.
Qed.

Lemma clean_fenced_json : forall b,
  contains_fence (123 :: b ++ [125]) = false ->
  clean (fenced_json (123 :: b ++ [125])) = 123 :: b ++ [125].
Proof.
  intros b H. unfold clean, String_replace_all, re_fence, re_fence_json.
  assert (E1 : replace_from (lit (js "```json") ++ [Many is_space]) [] 0
                 (fenced_json (123 :: b ++ [125]))
               = replace_from (lit (js "```json") ++ [Many is_space]) [] 0
                   ((123 :: b) ++ 125 :: [10] ++ js "```")).
  { unfold fenced_json.
    replace ((123 :: b ++ [125]) ++ [10] ++ js "```")
      with ((123 :: b) ++ 125 :: [10] ++ js "```")
      by (cbn [app]; rewrite <- app_assoc; reflexivity).
    reflexivity. }
  rewrite E1.
  change (lit (js "```json") ++ [Many is_space])
    with (lit (js "```") ++ lit (js "json") ++ [Many is_space]).
  rewrite replace_keeps_unfenced by exact H.
  change (replace_from (lit (js "```") ++ lit (js "json") ++ [Many is_space])
            [] 0 ([10] ++ js "```"))
    with ([10] ++ js "```").
  rewrite replace_keeps_unfenced by exact H.
  change (replace_from (lit (js "```") ++ [Many is_space]) [] 0 ([10] ++ js "```"))
    with [10].
  apply trim_braced_newline.
Qed.

Lemma clean_fenced_plain : forall b,
  contains_fence (123 :: b ++ [125]) = false ->
  clean (fenced_plain (123 :: b ++ [125])) = 123 :: b ++ [125].
Proof.
  intros b H. unfold clean, String_replace_all, re_fence, re_fence_json.
  assert (E1 : replace_from (lit (js "```json") ++ [Many is_space]) [] 0
                 (fenced_plain (123 :: b ++ [125]))
               = js "```" ++ [10]
                 ++ replace_from (lit (js "```json") ++ [Many is_space]) [] 0
                      ((123 :: b) ++ 125 :: [10] ++ js "```")).
  { unfold fenced_plain.
    replace ((123 :: b ++ [125]) ++ [10] ++ js "```")
      with ((123 :: b) ++ 125 :: [10] ++ js "```")
      by (cbn [app]; rewrite <- app_assoc; reflexivity).
    reflexivity. }
  rewrite E1.
  change (lit (js "```json") ++ [Many is_space])
    with (lit (js "```") ++ lit (js "json") ++ [Many is_space]).
  rewrite replace_keeps_unfenced by exact H.
  change (replace_from (lit (js "```") ++ lit (js "json") ++ [Many is_space])
            [] 0 ([10] ++ js "```"))
    with ([10] ++ js "```").
  assert (E2 : replace_from (lit (js "```") ++ [Many is_space]) [] 0
                 (js "```" ++ [10] ++ (123 :: b) ++ 125 :: [10] ++ js "```")
               = replace_from (lit (js "```") ++ [Many is_space]) [] 0
                   ((123 :: b) ++ 125 :: [10] ++ js "```"))
    by reflexivity.
  rewrite E2.
  rewrite replace_keeps_unfenced by exact H.
  change (replace_from (lit (js "```") ++ [Many is_space]) [] 0 ([10] ++ js "```"))
    with [10].
  apply trim_braced_newline.
Qed.

(** ** Numbers: [number_of_literal] reads back what [number_text] writes *)

Lemma digit_val_char : forall d, digit_val (digit_char d) = d.
Proof. intro d. unfold digit_val, digit_char. lia. Qed.

Lemma map_digit_val_char : forall l, map digit_val (map digit_char l) = l.
Proof.
  induction l as [|d l IH]; [reflexivity|].
  cbn [map]. rewrite digit_val_char, IH. reflexivity.
Qed.

Lemma is_digit_char : forall d, d < 10 -> is_digit (digit_char d) = true.
Proof.
  intros d H. unfold is_digit, digit_char.
  apply andb_true_intro. split; apply N.leb_le; lia.
Qed.

Lemma digits_uint_digits : forall u, digits_uint (uint_digits u) = u.
Proof. induction u; cbn; congruence. Qed.

Lemma N_of_digits_N_digits : forall n, N_of_digits (N_digits n) = n.
Proof.
  intro n. unfold N_of_digits, N_digits. rewrite digits_uint_digits.
  apply DecimalN.Unsigned.of_to.
Qed.

Lemma uint_digits_lt : forall u, Forall (fun d => d < 10) (uint_digits u).
Proof. induction u; cbn; constructor; try assumption; lia. Qed.

Lemma N_digits_nonempty : forall n, N_digits n <> [].
Proof.
  intros n E. pose proof (N_of_digits_N_digits n) as H. rewrite E in H.
  cbn in H. subst n. vm_compute in E. discriminate E.
Qed.

Lemma span_all : forall p a b,
  forallb p a = true ->
  match b with [] => True | c :: _ => p c = false end ->
  span p (a ++ b) = (a, b).
Proof.
  intros p. induction a as [|x a IH]; intros b Ha Hb.
  - cbn [app]. destruct b as [|c b]; [reflexivity|]. cbn [span]. rewrite Hb.
    reflexivity.
  - cbn [forallb] in Ha. apply andb_prop in Ha. destruct Ha as (Hx & Ha).
    cbn [app span]. rewrite Hx, (IH b Ha Hb). reflexivity.
Qed.

Lemma forallb_is_digit_chars : forall l,
  forallb (fun x => N.ltb x 10) l = true ->
  forallb is_digit (map digit_char l) = true.
Proof.
  induction l as [|d l IH]; intro H; [reflexivity|].
  cbn [forallb map] in *. apply andb_prop in H. destruct H as (Hd & Hl).
  apply N.ltb_lt in Hd. rewrite (is_digit_char d Hd), (IH Hl). reflexivity.
Qed.

Lemma forallb_is_digit_zeros : forall j, forallb is_digit (repeat 48 j) = true.
Proof. induction j; [reflexivity|]. cbn [repeat forallb]. rewrite IHj. reflexivity. Qed.

Lemma drop_zeros_nonzero : forall d l, d <> 0 -> drop_zeros (d :: l) = d :: l.
Proof.
  intros d l H. cbn [drop_zeros]. destruct (N.eqb_spec d 0); [contradiction|reflexivity].
Qed.

Lemma drop_zeros_repeat : forall j l, drop_zeros (repeat 0 j ++ l) = drop_zeros l.
Proof. induction j; intro l; [reflexivity|]. cbn [repeat app drop_zeros N.eqb]. apply IHj. Qed.

Lemma rev_repeat : forall (A : Type) (x : A) j, rev (repeat x j) = repeat x j.
Proof.
  intros A x. induction j; [reflexivity|].
  cbn [repeat rev]. rewrite IHj. symmetry. apply repeat_cons.
Qed.

(* digits with nonzero first and last *)
Lemma rev_cons_last : forall (d : N) ds,
  exists l x, rev (d :: ds) = x :: l /\ last (d :: ds) 1 = x.
Proof.
  intros d ds. destruct (rev (d :: ds)) as [|x l] eqn:R.
  - apply (f_equal (@length N)) in R. rewrite length_rev in R. discriminate R.
  - exists l, x. split; [reflexivity|].
    apply (f_equal (@rev N)) in R. rewrite rev_involutive in R.
    rewrite R. cbn [rev]. apply last_last.
Qed.

Lemma canonical_inv : forall sg d ds p,
  canonical (Number sg (d :: ds) p) = true ->
  forallb (fun x => N.ltb x 10) (d :: ds) = true /\ d <> 0
  /\ exists l x, rev (d :: ds) = x :: l /\ x <> 0.
Proof.
  intros sg d ds p H. unfold canonical in H. cbn [digits] in H.
  apply andb_prop in H. destruct H as (H & H3).
  apply andb_prop in H. destruct H as (H1 & H2).
  split; [exact H1|]. split.
  - intro E. subst d. cbn in H2. discriminate H2.
  - destruct (rev_cons_last d ds) as (l & x & R & L).
    exists l, x. split; [exact R|].
    rewrite L in H3. intro E. rewrite E in H3. cbn in H3. discriminate H3.
Qed.

Lemma normalize_padded : forall sg d ds p i j,
  canonical (Number sg (d :: ds) p) = true ->
  normalize_number sg (repeat 0 i ++ (d :: ds) ++ repeat 0 j) (p + Z.of_nat i)
  = Number sg (d :: ds) p.
Proof.
  intros sg d ds p i j H.
  destruct (canonical_inv _ _ _ _ H) as (_ & Hd & l & x & R & Hx).
  unfold normalize_number. rewrite drop_zeros_repeat.
  cbn [app]. rewrite (drop_zeros_nonzero d _ Hd).
  change (d :: ds ++ repeat 0 j) with ((d :: ds) ++ repeat 0 j).
  rewrite rev_app_distr, rev_repeat, drop_zeros_repeat, R.
  rewrite (drop_zeros_nonzero x l Hx). rewrite <- R, rev_involutive.
  f_equal. rewrite !length_app, repeat_length. cbn [length]. lia.
Qed.

Lemma digit_char_neq : forall d c, d < 10 -> (c < 48 \/ 57 < c) -> N.eqb (digit_char d) c = false.
Proof. intros d c H Hc. apply N.eqb_neq. unfold digit_char. lia. Qed.

Lemma int_part_ok_chars : forall d l,
  d <> 0 -> int_part_ok (digit_char d :: l) = true.
Proof.
  intros d l H. unfold int_part_ok. destruct l; [reflexivity|].
  apply negb_true_iff. apply N.eqb_neq. unfold digit_char. lia.
Qed.

Lemma map_digit_val_zeros : forall j, map digit_val (repeat 48 j) = repeat 0 j.
Proof. induction j; [reflexivity|]. cbn [repeat map]. rewrite IHj. reflexivity. Qed.

Lemma span_digits_end : forall a,
  forallb is_digit a = true -> span is_digit a = (a, []).
Proof.
  intros a H. rewrite <- (app_nil_r a) at 1. apply span_all; [exact H | exact I].
Qed.

Section NumberCases.

Variables (sg : bool) (d : N) (ds : list N) (p : Z).
Hypothesis C : canonical (Number sg (d :: ds) p) = true.

Let D := d :: ds.
Let DC := map digit_char D.

Lemma DC_digits : forallb is_digit DC = true.
Proof.
  apply forallb_is_digit_chars. destruct (canonical_inv _ _ _ _ C) as (H & _).
  exact H.
Qed.

Lemma d_nonzero : d <> 0.
Proof. destruct (canonical_inv _ _ _ _ C) as (_ & H & _). exact H. Qed.

Lemma d_small : d < 10.
Proof.
  destruct (canonical_inv _ _ _ _ C) as (H & _). cbn [forallb] in H.
  apply andb_prop in H. destruct H as (H & _). apply N.ltb_lt. exact H.
Qed.

Lemma normalize_D : forall q, normalize_number sg D q = Number sg D q.
Proof.
  intro q. pose proof (normalize_padded sg d ds q 0 0 C) as H.
  cbn [repeat app] in H. rewrite app_nil_r in H.
  replace (q + Z.of_nat 0)%Z with q in H by lia. exact H.
Qed.

(** integer notation *)
Lemma literal_integer : forall j,
  unsigned_literal sg (DC ++ repeat 48 j)
  = Some (Number sg D (Z.of_nat (length D) + Z.of_nat j)).
Proof.
  intro j. unfold unsigned_literal.
  rewrite span_digits_end.
  2:{ rewrite forallb_app, DC_digits, forallb_is_digit_zeros. reflexivity. }
  unfold DC at 1, D at 1. cbn [map app].
  rewrite (int_part_ok_chars d _ d_nonzero).
  cbn [fraction_part exponent_part]. rewrite app_nil_r.
  change (digit_char d :: map digit_char ds ++ repeat 48 j)
    with (DC ++ repeat 48 j).
  rewrite map_app. unfold DC. rewrite map_digit_val_char, map_digit_val_zeros.
  rewrite length_app, length_map, repeat_length.
  pose proof (normalize_padded sg d ds
                (Z.of_nat (length D) + Z.of_nat j) 0 j) as H.
  cbn [repeat app] in H. fold D in H.
  rewrite <- H.
  - f_equal. f_equal. lia.
  - unfold canonical in *. exact C.
Qed.


Lemma forallb_firstn : forall (A : Type) (f : A -> bool) m l,
  forallb f l = true -> forallb f (firstn m l) = true.
Proof.
  intros A f. induction m as [|m IH]; intros l H; [reflexivity|].
  destruct l as [|x l]; [reflexivity|]. cbn [firstn forallb] in *.
  apply andb_prop in H. destruct H as (Hx & Hl). rewrite Hx, (IH l Hl).
  reflexivity.
Qed.

Lemma forallb_skipn : forall (A : Type) (f : A -> bool) m l,
  forallb f l = true -> forallb f (skipn m l) = true.
Proof.
  intros A f. induction m as [|m IH]; intros l H; [exact H|].
  destruct l as [|x l]; [reflexivity|]. cbn [skipn forallb] in *.
  apply andb_prop in H. destruct H as (_ & Hl). exact (IH l Hl).
Qed.

(** a point inside the digits *)
Lemma literal_point_inside : forall m,
  (0 < m < length D)%nat ->
  unsigned_literal sg (firstn m DC ++ 46 :: skipn m DC)
  = Some (Number sg D (Z.of_nat m)).
Proof.
  intros m Hm. unfold unsigned_literal.
  rewrite span_all;
    [| apply forallb_firstn; exact DC_digits | reflexivity].
  destruct m as [|m]; [lia|].
  assert (IP : int_part_ok (firstn (S m) DC) = true).
  { unfold DC, D. cbn [map firstn]. apply int_part_ok_chars. exact d_nonzero. }
  rewrite IP.
  cbn [fraction_part N.eqb Pos.eqb].
  rewrite span_digits_end by (apply forallb_skipn; exact DC_digits).
  destruct (skipn (S m) DC) as [|x xs] eqn:Sk.
  { apply (f_equal (@length N)) in Sk. rewrite length_skipn in Sk.
    unfold DC in Sk. rewrite length_map in Sk. cbn [length] in Sk. lia. }
  cbn [exponent_part].
  rewrite <- Sk, firstn_skipn. unfold DC. rewrite map_digit_val_char.
  rewrite length_firstn, length_map. rewrite normalize_D.
  f_equal. f_equal. lia.
Qed.

(** a value below one *)
Lemma literal_below_one : forall j,
  unsigned_literal sg (48 :: 46 :: repeat 48 j ++ DC)
  = Some (Number sg D (- Z.of_nat j)).
Proof.
  intro j. unfold unsigned_literal.
  change (48 :: 46 :: repeat 48 j ++ DC) with ([48] ++ 46 :: repeat 48 j ++ DC).
  rewrite span_all; [| reflexivity | reflexivity].
  cbn [int_part_ok fraction_part N.eqb Pos.eqb].
  rewrite span_digits_end.
  2:{ rewrite forallb_app, DC_digits, forallb_is_digit_zeros. reflexivity. }
  destruct (repeat 48 j ++ DC) as [|x xs] eqn:E.
  { apply (f_equal (@length N)) in E. rewrite length_app in E.
    unfold DC, D in E. rewrite length_map in E. cbn [length] in E. lia. }
  cbn [exponent_part]. rewrite <- E.
  cbn [app map length]. rewrite map_app. unfold DC.
  rewrite map_digit_val_char, map_digit_val_zeros.
  change (digit_val 48) with 0.
  pose proof (normalize_padded sg d ds (- Z.of_nat j) (S j) 0 C) as H.
  cbn [repeat app] in H. rewrite List.app_nil_r in H. fold D in H.
  rewrite <- H. f_equal. f_equal. lia.
Qed.

End NumberCases.

Lemma N_text_digits : forall a, forallb is_digit (N_text a) = true.
Proof.
  intro a. unfold N_text. apply forallb_is_digit_chars.
  apply forallb_forall. intros x Hx. apply N.ltb_lt.
  pose proof (uint_digits_lt (N.to_uint a)) as F.
  rewrite Forall_forall in F. apply F. exact Hx.
Qed.

Lemma N_text_value : forall a, N_of_digits (map digit_val (N_text a)) = a.
Proof.
  intro a. unfold N_text. rewrite map_digit_val_char. apply N_of_digits_N_digits.
Qed.

Lemma N_text_nonempty : forall a, N_text a <> [].
Proof.
  intros a E. unfold N_text in E. apply map_eq_nil in E.
  exact (N_digits_nonempty a E).
Qed.

Lemma exponent_part_text : forall e,
  exponent_part (js "e" ++ (if (e <? 0)%Z then js "-" else js "+")
                   ++ N_text (Z.abs_N e))
  = Some (e, []).
Proof.
  intro e.
  assert (G : span is_digit (N_text (Z.abs_N e)) = (N_text (Z.abs_N e), [])).
  { apply span_digits_end. apply N_text_digits. }
  assert (V := N_text_value (Z.abs_N e)).
  assert (NE := N_text_nonempty (Z.abs_N e)).
  destruct (Z.ltb_spec e 0) as [Neg|Pos].
  - change (js "e" ++ js "-" ++ N_text (Z.abs_N e))
      with (101 :: 45 :: N_text (Z.abs_N e)).
    cbn [exponent_part N.eqb Pos.eqb orb]. rewrite G.
    destruct (N_text (Z.abs_N e)) as [|x xs]; [congruence|].
    rewrite V. f_equal. f_equal. lia.
  - change (js "e" ++ js "+" ++ N_text (Z.abs_N e))
      with (101 :: 43 :: N_text (Z.abs_N e)).
    cbn [exponent_part N.eqb Pos.eqb orb]. rewrite G.
    destruct (N_text (Z.abs_N e)) as [|x xs]; [congruence|].
    rewrite V. f_equal. f_equal. lia.
Qed.

Lemma literal_exponent : forall sg d ds p e,
  canonical (Number sg (d :: ds) p) = true ->
  unsigned_literal sg
    (digit_char d
       :: (match ds with [] => [] | _ => js "." ++ map digit_char ds end)
       ++ js "e" ++ (if (e <? 0)%Z then js "-" else js "+")
       ++ N_text (Z.abs_N e))
  = Some (Number sg (d :: ds) (1 + e)).
Proof.
  intros sg d ds p e C.
  pose proof (DC_digits sg d ds p C) as DD. cbn [map forallb] in DD.
  apply andb_prop in DD. destruct DD as (Dd & Dds).
  pose proof (d_nonzero sg d ds p C) as NZ.
  pose proof (exponent_part_text e) as EX.
  set (tail := js "e" ++ (if (e <? 0)%Z then js "-" else js "+")
                 ++ N_text (Z.abs_N e)) in *.
  assert (T : exists r, tail = 101 :: r) by (eexists; reflexivity).
  destruct T as (r & T).
  unfold unsigned_literal.
  destruct ds as [|x xs].
  - cbn [app]. rewrite T.
    change (digit_char d :: 101 :: r) with ([digit_char d] ++ 101 :: r).
    rewrite span_all; [| cbn [forallb]; rewrite Dd; reflexivity | reflexivity].
    cbn [int_part_ok fraction_part N.eqb Pos.eqb]. rewrite <- T, EX.
    cbn [app map length]. rewrite digit_val_char.
    pose proof (normalize_D sg d [] p C (1 + e)%Z) as H. rewrite <- H.
    reflexivity.
  - change (digit_char d :: (js "." ++ map digit_char (x :: xs)) ++ tail)
      with ([digit_char d] ++ 46 :: map digit_char (x :: xs) ++ tail).
    rewrite span_all; [| cbn [forallb]; rewrite Dd; reflexivity | reflexivity].
    cbn [int_part_ok fraction_part N.eqb Pos.eqb].
    rewrite T. rewrite span_all; [| exact Dds | reflexivity].
    cbn [map]. rewrite <- T, EX.
    cbn [app map length]. rewrite digit_val_char.
    change (digit_char x :: map digit_char xs) with (map digit_char (x :: xs)).
    rewrite map_digit_val_char.
    rewrite digit_val_char.
    pose proof (normalize_D sg d (x :: xs) p C (1 + e)%Z) as H. rewrite <- H.
    reflexivity.
Qed.

Lemma number_text_nonzero : forall sg d ds p,
  number_text (Number sg (d :: ds) p)
  = (if sg then js "-" else []) ++ unsigned_text d ds p.
Proof. reflexivity. Qed.

Lemma unsigned_text_head : forall d ds p,
  d < 10 ->
  exists c r, unsigned_text d ds p = c :: r /\ is_digit c = true.
Proof.
  intros d ds p Hd. unfold unsigned_text. cbv zeta.
  destruct ((Z.of_nat (length (map digit_char (d :: ds))) <=? p)%Z && (p <=? 21)%Z).
  { cbn [map app]. eexists. eexists. split; [reflexivity|].
    apply is_digit_char. exact Hd. }
  destruct ((0 <? p)%Z && (p <=? 21)%Z) eqn:B.
  { apply andb_prop in B. destruct B as (B & _). apply Z.ltb_lt in B.
    destruct (Z.to_nat p) as [|m] eqn:E; [lia|].
    cbn [map firstn app]. eexists. eexists. split; [reflexivity|].
    apply is_digit_char. exact Hd. }
  destruct ((-6 <? p)%Z && (p <=? 0)%Z).
  { eexists. eexists. split; [reflexivity | reflexivity]. }
  eexists. eexists. split; [reflexivity|]. apply is_digit_char. exact Hd.
Qed.

Lemma unsigned_literal_text : forall sg d ds p,
  canonical (Number sg (d :: ds) p) = true ->
  unsigned_literal sg (unsigned_text d ds p) = Some (Number sg (d :: ds) p).
Proof.
  intros sg d ds p C. unfold unsigned_text. cbv zeta.
  rewrite length_map.
  destruct ((Z.of_nat (length (d :: ds)) <=? p)%Z && (p <=? 21)%Z) eqn:A.
  { apply andb_prop in A. destruct A as (A & _). apply Z.leb_le in A.
    rewrite (literal_integer sg d ds p C). f_equal. f_equal. lia. }
  destruct ((0 <? p)%Z && (p <=? 21)%Z) eqn:B.
  { apply andb_prop in B. destruct B as (B & B'). apply Z.ltb_lt in B.
    rewrite B' in A. rewrite andb_true_r in A. apply Z.leb_gt in A.
    change (js "." ++ skipn (Z.to_nat p) (map digit_char (d :: ds)))
      with (46 :: skipn (Z.to_nat p) (map digit_char (d :: ds))).
    rewrite (literal_point_inside sg d ds p C) by lia.
    f_equal. f_equal. lia. }
  destruct ((-6 <? p)%Z && (p <=? 0)%Z) eqn:E.
  { apply andb_prop in E. destruct E as (_ & E). apply Z.leb_le in E.
    change (js "0." ++ repeat 48 (Z.to_nat (- p)) ++ map digit_char (d :: ds))
      with (48 :: 46 :: repeat 48 (Z.to_nat (- p)) ++ map digit_char (d :: ds)).
    rewrite (literal_below_one sg d ds p C). f_equal. f_equal. lia. }
  rewrite (literal_exponent sg d ds p (p - 1) C). f_equal. f_equal. lia.
Qed.

Lemma number_roundtrip : forall n,
  canonical n = true -> number_of_literal (number_text n) = Some n.
Proof.
  intros [sg [|d ds] p] C.
  - unfold canonical in C. cbn [digits neg point] in C.
    apply andb_prop in C. destruct C as (C1 & C2).
    apply negb_true_iff in C1. apply Z.eqb_eq in C2. subst sg p.
    reflexivity.
  - rewrite number_text_nonzero.
    pose proof (unsigned_literal_text sg d ds p C) as U.
    destruct (unsigned_text_head d ds p (d_small sg d ds p C))
      as (c & r & E & Hc).
    rewrite E in *.
    assert (N45 : N.eqb c 45 = false).
    { unfold is_digit in Hc. apply andb_prop in Hc. destruct Hc as (L & _).
      apply N.leb_le in L. apply N.eqb_neq. lia. }
    destruct sg.
    + cbn [js list_ascii_of_string map app N_of_ascii number_of_literal].
      change (N.eqb _ 45) with true. cbv iota. exact U.
    + cbn [app number_of_literal]. rewrite N45. exact U.
Qed.

(** ** Strings: the lexer reads back what [quote] writes *)

Lemma hex_digits_value : forall c,
  c < 65536 ->
  16 * (16 * (16 * (16 * 0 + c / 4096 mod 16) + c / 256 mod 16) + c / 16 mod 16)
  + c mod 16 = c.
Proof.
  intros c H. zify. Z.to_euclidean_division_equations. lia.
Qed.

Lemma hex_val_char : forall d, d < 16 -> hex_val (hex_char d) = Some d.
Proof.
  intros d H. unfold hex_val, hex_char, is_digit.
  destruct (N.ltb_spec d 10) as [L|L].
  - replace (N.leb 48 (48 + d)) with true by (symmetry; apply N.leb_le; lia).
    replace (N.leb (48 + d) 57) with true by (symmetry; apply N.leb_le; lia).
    cbn [andb]. f_equal. lia.
  - replace (N.leb (87 + d) 57) with false by (symmetry; apply N.leb_gt; lia).
    rewrite andb_false_r.
    replace (N.leb 97 (87 + d)) with true by (symmetry; apply N.leb_le; lia).
    replace (N.leb (87 + d) 102) with true by (symmetry; apply N.leb_le; lia).
    cbn [andb]. f_equal. lia.
Qed.

Lemma lex_unicode_escape : forall c acc toks rest,
  c < 65536 ->
  lex_run (LString acc) toks (unicode_escape c ++ rest)
  = lex_run (LString (acc ++ [c])) toks rest.
Proof.
  intros c acc toks rest H. unfold unicode_escape.
  cbn [app lex_run lex_step N.eqb Pos.eqb N.ltb N.compare Pos.compare
       Pos.compare_cont orb].
  repeat (cbn [lex_step]; rewrite hex_val_char by (apply N.mod_lt; discriminate);
          cbv iota beta zeta).
  match goal with
  | |- lex_run (LString (acc ++ [?e])) _ _ = _ =>
      replace e with c; [reflexivity|]
  end.
  rewrite <- (hex_digits_value c H) at 1. lia.
Qed.

Lemma lex_string_raw : forall c acc toks rest,
  c <> 34 -> c <> 92 -> 32 <= c ->
  lex_run (LString acc) toks (c :: rest)
  = lex_run (LString (acc ++ [c])) toks rest.
Proof.
  intros c acc toks rest H1 H2 H3. cbn [lex_run lex_step].
  destruct (N.eqb_spec c 34); [contradiction|].
  destruct (N.eqb_spec c 92); [contradiction|].
  destruct (N.ltb_spec c 32); [lia|]. reflexivity.
Qed.

Lemma lex_escape_unit : forall c acc toks rest,
  lex_run (LString acc) toks (escape_unit c ++ rest)
  = lex_run (LString (acc ++ [c])) toks rest.
Proof.
  intros c acc toks rest. unfold escape_unit.
  destruct (N.eqb_spec c 8); [subst; reflexivity|].
  destruct (N.eqb_spec c 9); [subst; reflexivity|].
  destruct (N.eqb_spec c 10); [subst; reflexivity|].
  destruct (N.eqb_spec c 12); [subst; reflexivity|].
  destruct (N.eqb_spec c 13); [subst; reflexivity|].
  destruct (N.eqb_spec c 34); [subst; reflexivity|].
  destruct (N.eqb_spec c 92); [subst; reflexivity|].
  destruct (N.ltb_spec c 32).
  - apply lex_unicode_escape. lia.
  - apply lex_string_raw; assumption.
Qed.

Lemma surrogate_range : forall c,
  is_high_surrogate c = true \/ is_low_surrogate c = true ->
  55296 <= c /\ c <= 57343.
Proof.
  intros c [H|H]; unfold is_high_surrogate, is_low_surrogate in H;
    apply andb_prop in H; destruct H as (A & B);
    apply N.leb_le in A; apply N.leb_le in B; lia.
Qed.

Lemma lex_surrogate_raw : forall c acc toks rest,
  is_high_surrogate c = true \/ is_low_surrogate c = true ->
  lex_run (LString acc) toks (c :: rest)
  = lex_run (LString (acc ++ [c])) toks rest.
Proof.
  intros c acc toks rest H. apply surrogate_range in H.
  apply lex_string_raw; lia.
Qed.

Lemma lex_surrogate_escaped : forall c acc toks rest,
  is_high_surrogate c = true \/ is_low_surrogate c = true ->
  lex_run (LString acc) toks (unicode_escape c ++ rest)
  = lex_run (LString (acc ++ [c])) toks rest.
Proof.
  intros c acc toks rest H. apply surrogate_range in H.
  apply lex_unicode_escape. lia.
Qed.

Lemma lex_quote_body : forall n s,
  (length s <= n)%nat ->
  forall acc toks rest,
    lex_run (LString acc) toks (quote_body s ++ 34 :: rest)
    = lex_run LDefault (TString (acc ++ s) :: toks) rest.
Proof.
  induction n as [|n IH]; intros s L acc toks rest.
  - destruct s; [|cbn in L; lia]. cbn [quote_body app]. rewrite app_nil_r.
    reflexivity.
  - destruct s as [|c s]; [cbn [quote_body app]; rewrite app_nil_r; reflexivity|].
    cbn [length] in L. cbn [quote_body].
    destruct (is_high_surrogate c) eqn:Hh.
    + destruct s as [|d s].
      * rewrite lex_surrogate_escaped by (left; exact Hh). reflexivity.
      * destruct (is_low_surrogate d) eqn:Hl.
        -- cbn [app]. rewrite lex_surrogate_raw by (left; exact Hh).
           rewrite lex_surrogate_raw by (right; exact Hl).
           cbn [length] in L. rewrite IH by lia.
           rewrite <- !app_assoc. reflexivity.
        -- rewrite <- app_assoc.
           rewrite lex_surrogate_escaped by (left; exact Hh).
           rewrite IH by lia. rewrite <- app_assoc. reflexivity.
    + destruct (is_low_surrogate c) eqn:Hl.
      * rewrite <- app_assoc.
        rewrite lex_surrogate_escaped by (right; exact Hl).
        rewrite IH by lia. rewrite <- app_assoc. reflexivity.
      * rewrite <- app_assoc. rewrite lex_escape_unit.
        rewrite IH by lia. rewrite <- app_assoc. reflexivity.
Qed.

Lemma lex_quote : forall s toks rest,
  lex_run LDefault toks (quote s ++ rest)
  = lex_run LDefault (TString s :: toks) rest.
Proof.
  intros s toks rest.
  change (quote s ++ rest) with (34 :: (quote_body s ++ [34]) ++ rest).
  rewrite <- app_assoc.
  change (lex_run LDefault toks (34 :: quote_body s ++ [34] ++ rest))
    with (lex_run (LString []) toks (quote_body s ++ 34 :: rest)).
  rewrite (lex_quote_body (length s) s (le_n _)). reflexivity.
Qed.

(** ** The lexer on numbers, words and whole values *)

Lemma lex_number_chars : forall l acc toks rest,
  forallb is_number_char l = true ->
  lex_run (LNumber acc) toks (l ++ rest)
  = lex_run (LNumber (acc ++ l)) toks rest.
Proof.
  induction l as [|c l IH]; intros acc toks rest H.
  - rewrite app_nil_r. reflexivity.
  - cbn [forallb] in H. apply andb_prop in H. destruct H as (Hc & Hl).
    cbn [app lex_run lex_step]. rewrite Hc. rewrite (IH _ _ _ Hl).
    rewrite <- app_assoc. reflexivity.
Qed.

Lemma delimited_cases : forall rest,
  delimited rest = true ->
  rest = [] \/ exists c r, rest = c :: r /\ (c = 44 \/ c = 93 \/ c = 125).
Proof.
  intros [|c r] H; [left; reflexivity|]. right. exists c, r. split; [reflexivity|].
  cbn [delimited] in H.
  destruct (N.eqb_spec c 44); [auto|].
  destruct (N.eqb_spec c 93); [auto|].
  destruct (N.eqb_spec c 125); [auto|]. discriminate H.
Qed.

Lemma lex_number_flush : forall l n toks rest,
  number_of_literal l = Some n ->
  delimited rest = true ->
  lex_run (LNumber l) toks rest = lex_run LDefault (TNumber n :: toks) rest.
Proof.
  intros l n toks rest Hn Hd.
  destruct (delimited_cases rest Hd) as [E|(c & r & E & Hc)]; subst rest.
  - cbn [lex_run lex_end]. rewrite Hn. reflexivity.
  - cbn [lex_run lex_step].
    assert (NC : is_number_char c = false)
      by (destruct Hc as [Hc|[Hc|Hc]]; subst c; reflexivity).
    rewrite NC, Hn. reflexivity.
Qed.

Lemma is_digit_number_char : forall c, is_digit c = true -> is_number_char c = true.
Proof. intros c H. unfold is_number_char. rewrite H. reflexivity. Qed.

Lemma forallb_digits_number_chars : forall l,
  forallb is_digit l = true -> forallb is_number_char l = true.
Proof.
  induction l as [|c l IH]; intro H; [reflexivity|].
  cbn [forallb] in *. apply andb_prop in H. destruct H as (Hc & Hl).
  rewrite (is_digit_number_char c Hc), (IH Hl). reflexivity.
Qed.

Lemma unsigned_text_number_chars : forall sg d ds p,
  canonical (Number sg (d :: ds) p) = true ->
  forallb is_number_char (unsigned_text d ds p) = true.
Proof.
  intros sg d ds p C.
  pose proof (forallb_digits_number_chars _ (DC_digits sg d ds p C)) as DD.
  assert (Z0 : forall j, forallb is_number_char (repeat 48 j) = true).
  { intro j. apply forallb_digits_number_chars. apply forallb_is_digit_zeros. }
  unfold unsigned_text. cbv zeta.
  destruct (_ && _).
  { rewrite forallb_app, DD, Z0. reflexivity. }
  destruct (_ && _).
  { rewrite forallb_app. rewrite (forallb_firstn _ _ _ _ DD).
    cbn [js list_ascii_of_string map app N_of_ascii forallb].
    rewrite (forallb_skipn _ _ _ _ DD). reflexivity. }
  destruct (_ && _).
  { change (js "0." ++ repeat 48 (Z.to_nat (- p)) ++ map digit_char (d :: ds))
      with (48 :: 46 :: repeat 48 (Z.to_nat (- p)) ++ map digit_char (d :: ds)).
    cbn [forallb]. rewrite forallb_app, DD, Z0. reflexivity. }
  cbn [map forallb] in DD. apply andb_prop in DD. destruct DD as (Dd & Dds).
  cbn [forallb]. rewrite Dd. cbn [andb]. rewrite !forallb_app.
  assert (T : forallb is_number_char (N_text (Z.abs_N (p - 1))) = true).
  { apply forallb_digits_number_chars. apply N_text_digits. }
  rewrite T.
  destruct ds as [|x xs]; destruct (p - 1 <? 0)%Z;
    cbn [js list_ascii_of_string map app N_of_ascii forallb] in *;
    rewrite ?Dds; reflexivity.
Qed.

Lemma lex_number : forall n toks rest,
  canonical n = true ->
  delimited rest = true ->
  lex_run LDefault toks (number_text n ++ rest)
  = lex_run LDefault (TNumber n :: toks) rest.
Proof.
  intros n toks rest C Hd.
  pose proof (number_roundtrip n C) as R.
  assert (S : exists c l, number_text n = c :: l
                          /\ lex_default toks c = Some (LNumber [c], toks)
                          /\ forallb is_number_char l = true).
  { destruct n as [sg [|d ds] p].
    - exists 48, []. repeat split.
    - rewrite number_text_nonzero.
      pose proof (unsigned_text_number_chars sg d ds p C) as NC.
      destruct (unsigned_text_head d ds p (d_small sg d ds p C))
        as (c & r & E & Hc).
      rewrite E in *. destruct sg.
      + exists 45, (c :: r). repeat split. exact NC.
      + exists c, r. cbn [forallb] in NC. apply andb_prop in NC.
        destruct NC as (_ & NC). repeat split; [|exact NC].
        unfold is_digit in Hc. apply andb_prop in Hc. destruct Hc as (L & U).
        apply N.leb_le in L. apply N.leb_le in U.
        unfold lex_default, is_json_ws, is_digit.
        repeat match goal with
               | |- context [N.eqb c ?k] =>
                   destruct (N.eqb_spec c k); [lia|]
               end.
        replace (N.leb 48 c) with true by (symmetry; apply N.leb_le; lia).
        replace (N.leb c 57) with true by (symmetry; apply N.leb_le; lia).
        reflexivity. }
  destruct S as (c & l & E & Hc & Hl).
  rewrite E in *. cbn [app lex_run lex_step]. rewrite Hc.
  rewrite (lex_number_chars l [c] toks rest Hl).
  apply lex_number_flush; assumption.
Qed.

Lemma lex_word : forall w t toks rest,
  In (w, t) [(js "true", TTrue); (js "false", TFalse); (js "null", TNull)] ->
  delimited rest = true ->
  lex_run LDefault toks (w ++ rest) = lex_run LDefault (t :: toks) rest.
Proof.
  intros w t toks rest Hw Hd.
  destruct (delimited_cases rest Hd) as [E|(c & r & E & Hc)]; subst rest;
    cbn [In] in Hw;
    repeat match goal with
           | H : _ \/ _ |- _ => destruct H
           | H : (_, _) = (_, _) |- _ => inversion H; subst; clear H
           | H : False |- _ => destruct H
           end; reflexivity.
Qed.

(** The lexer on a comma-separated sequence that a closing bracket or
    brace follows. *)
Lemma lex_join : forall (A : Type) (render : A -> jsstring)
    (toks_of : A -> list token) (close : N) (l : list A),
  close = 93 \/ close = 125 ->
  (forall x, In x l ->
     forall toks rest, delimited rest = true ->
       lex_run LDefault toks (render x ++ rest)
       = lex_run LDefault (rev (toks_of x) ++ toks) rest) ->
  forall toks r,
    lex_run LDefault toks (join (js ",") (map render l) ++ close :: r)
    = lex_run LDefault (rev (join_tokens (map toks_of l)) ++ toks) (close :: r).
Proof.
  intros A render toks_of close l Hclose. induction l as [|x l IH]; intros H toks r.
  - reflexivity.
  - assert (Dc : delimited (close :: r) = true)
      by (destruct Hclose; subst close; reflexivity).
    destruct l as [|y l].
    + cbn [map join join_tokens]. apply H; [left; reflexivity | exact Dc].
    + change (join (js ",") (map render (x :: y :: l)))
        with (render x ++ js "," ++ join (js ",") (map render (y :: l))).
      change (join_tokens (map toks_of (x :: y :: l)))
        with (toks_of x ++ TComma :: join_tokens (map toks_of (y :: l))).
      rewrite <- !app_assoc.
      rewrite (H x (or_introl eq_refl)) by reflexivity.
      change (js "," ++ join (js ",") (map render (y :: l)) ++ close :: r)
        with (44 :: join (js ",") (map render (y :: l)) ++ close :: r).
      change (lex_run LDefault (rev (toks_of x) ++ toks)
                (44 :: join (js ",") (map render (y :: l)) ++ close :: r))
        with (lex_run LDefault (TComma :: rev (toks_of x) ++ toks)
                (join (js ",") (map render (y :: l)) ++ close :: r)).
      rewrite IH by (intros z Hz; apply H; right; exact Hz).
      rewrite rev_app_distr. cbn [rev]. rewrite <- !app_assoc. reflexivity.
Qed.

Lemma lex_value : forall v,
  wf v = true ->
  forall toks rest,
    delimited rest = true ->
    lex_run LDefault toks (JSON_stringify v ++ rest)
    = lex_run LDefault (rev (tokens_of v) ++ toks) rest.
Proof.
  induction v as [|b|n|s|l IH|o IH] using value_induction;
    intros W toks rest Hd.
  - apply (lex_word (js "null") TNull); [cbn; auto | exact Hd].
  - destruct b.
    + apply (lex_word (js "true") TTrue); [cbn; auto | exact Hd].
    + apply (lex_word (js "false") TFalse); [cbn; auto | exact Hd].
  - apply lex_number; assumption.
  - apply lex_quote.
  - cbn [wf] in W.
    change (JSON_stringify (JArr l))
      with (js "[" ++ join (js ",") (map JSON_stringify l) ++ js "]").
    rewrite <- !app_assoc.
    change (js "[" ++ join (js ",") (map JSON_stringify l) ++ js "]" ++ rest)
      with (91 :: join (js ",") (map JSON_stringify l) ++ 93 :: rest).
    change (lex_run LDefault toks
              (91 :: join (js ",") (map JSON_stringify l) ++ 93 :: rest))
      with (lex_run LDefault (TLBracket :: toks)
              (join (js ",") (map JSON_stringify l) ++ 93 :: rest)).
    rewrite (lex_join value JSON_stringify tokens_of 93 l (or_introl eq_refl)).
    + cbn [tokens_of rev]. rewrite rev_app_distr. cbn [rev app].
      rewrite <- !app_assoc. reflexivity.
    + intros x Hx. rewrite Forall_forall in IH. apply IH; [exact Hx|].
      rewrite forallb_forall in W. apply W. exact Hx.
  - cbn [wf] in W. apply andb_prop in W. destruct W as (_ & W).
    change (JSON_stringify (JObj o))
      with (js "{" ++ join (js ",")
                        (map (fun kv => quote (fst kv) ++ js ":"
                                          ++ JSON_stringify (snd kv)) o)
                   ++ js "}").
    rewrite <- !app_assoc.
    set (render := fun kv : jsstring * value =>
                     quote (fst kv) ++ js ":" ++ JSON_stringify (snd kv)).
    change (js "{" ++ join (js ",") (map render o) ++ js "}" ++ rest)
      with (123 :: join (js ",") (map render o) ++ 125 :: rest).
    change (lex_run LDefault toks
              (123 :: join (js ",") (map render o) ++ 125 :: rest))
      with (lex_run LDefault (TLBrace :: toks)
              (join (js ",") (map render o) ++ 125 :: rest)).
    rewrite (lex_join _ render
               (fun kv => TString (fst kv) :: TColon :: tokens_of (snd kv))
               125 o (or_intror eq_refl)).
    + cbn [tokens_of rev]. rewrite rev_app_distr. cbn [rev app].
      rewrite <- !app_assoc. reflexivity.
    + intros kv Hkv toks' rest' Hd'. unfold render.
      rewrite <- !app_assoc. rewrite lex_quote.
      change (js ":" ++ JSON_stringify (snd kv) ++ rest')
        with (58 :: JSON_stringify (snd kv) ++ rest').
      change (lex_run LDefault (TString (fst kv) :: toks')
                (58 :: JSON_stringify (snd kv) ++ rest'))
        with (lex_run LDefault (TColon :: TString (fst kv) :: toks')
                (JSON_stringify (snd kv) ++ rest')).
      rewrite Forall_forall in IH. rewrite (IH kv Hkv).
      * cbn [rev]. rewrite <- !app_assoc. reflexivity.
      * rewrite forallb_forall in W. apply W. exact Hkv.
      * exact Hd'.
Qed.

Lemma lex_stringify : forall v,
  wf v = true -> lex (JSON_stringify v) = Some (tokens_of v).
Proof.
  intros v W. unfold lex.
  rewrite <- (app_nil_r (JSON_stringify v)).
  rewrite (lex_value v W [] [] eq_refl).
  cbn [lex_run lex_end]. rewrite app_nil_r, rev_involutive. reflexivity.
Qed.

(** ** Objects, and the parser on the tokens of a value *)

Lemma eqb_eq : forall a b, JS.eqb a b = true <-> a = b.
Proof.
  induction a as [|x a IH]; intros [|y b]; cbn [JS.eqb]; split; intro H;
    try reflexivity; try discriminate.
  - apply andb_prop in H. destruct H as (H1 & H2).
    apply N.eqb_eq in H1. apply IH in H2. congruence.
  - inversion H; subst. rewrite N.eqb_refl. cbn [andb]. apply IH. reflexivity.
Qed.

Lemma eqb_refl : forall a, JS.eqb a a = true.
Proof. intro a. apply eqb_eq. reflexivity. Qed.

Lemma insert_index_last : forall i k v acc,
  forallb (fun kv => match array_index (fst kv) with
                     | Some j => N.ltb j i
                     | None => false
                     end) acc = true ->
  insert_index i k v acc = acc ++ [(k, v)].
Proof.
  intros i k v. induction acc as [|[k' v'] acc IH]; intro H; [reflexivity|].
  cbn [forallb fst] in H. apply andb_prop in H. destruct H as (H1 & H2).
  cbn [insert_index app]. destruct (array_index k') as [j|]; [|discriminate H1].
  rewrite H1, (IH H2). reflexivity.
Qed.

Lemma set_fits : forall acc k v,
  fits acc k = true -> set k v acc = acc ++ [(k, v)].
Proof.
  intros acc k v H. unfold fits in H. apply andb_prop in H.
  destruct H as (H1 & H2). apply negb_true_iff in H1.
  unfold set. rewrite H1. destruct (array_index k) as [i|]; [|reflexivity].
  apply insert_index_last. exact H2.
Qed.

Lemma tokens_of_start : forall v,
  exists t ts, tokens_of v = t :: ts
    /\ forall stk, parse_step (PArrStart stk) t = parse_value (CArr [] :: stk) t.
Proof.
  intros [|[|]|n|s|l|o]; eexists; eexists; (split; [reflexivity|]);
    intro stk; reflexivity.
Qed.

Lemma parse_elements : forall l,
  l <> [] -> Forall parses_back l -> forallb wf l = true ->
  forall acc stk rest,
    parse_run (PValue (CArr acc :: stk))
              (join_tokens (map tokens_of l) ++ TRBracket :: rest)
    = parse_run (plug (JArr (acc ++ l)) stk) rest.
Proof.
  induction l as [|x l IH]; intros NE F W acc stk rest; [congruence|].
  inversion F as [|? ? Px Fl]; subst.
  cbn [forallb] in W. apply andb_prop in W. destruct W as (Wx & Wl).
  unfold parses_back in Px. specialize (Px Wx).
  destruct l as [|y l].
  - cbn [map join_tokens]. rewrite Px. reflexivity.
  - change (join_tokens (map tokens_of (x :: y :: l)))
      with (tokens_of x ++ TComma :: join_tokens (map tokens_of (y :: l))).
    rewrite <- app_assoc. rewrite Px.
    change (parse_run (plug x (CArr acc :: stk))
              ((TComma :: join_tokens (map tokens_of (y :: l)))
                 ++ TRBracket :: rest))
      with (parse_run (PValue (CArr (acc ++ [x]) :: stk))
              (join_tokens (map tokens_of (y :: l)) ++ TRBracket :: rest)).
    rewrite IH; [| discriminate | exact Fl | exact Wl].
    rewrite <- app_assoc. reflexivity.
Qed.

Lemma parse_members : forall o,
  o <> [] -> Forall (fun kv => parses_back (snd kv)) o ->
  forallb (fun kv => wf (snd kv)) o = true ->
  forall acc stk rest,
    ordered_from acc o = true ->
    parse_run (PKey acc stk)
              (join_tokens
                 (map (fun kv => TString (fst kv) :: TColon :: tokens_of (snd kv)) o)
                 ++ TRBrace :: rest)
    = parse_run (plug (JObj (acc ++ o)) stk) rest.
Proof.
  induction o as [|[k v] o IH]; intros NE F W acc stk rest O; [congruence|].
  inversion F as [|? ? Pv Fo]; subst. cbn [snd] in Pv.
  cbn [forallb snd] in W. apply andb_prop in W. destruct W as (Wv & Wo).
  cbn [ordered_from] in O. apply andb_prop in O. destruct O as (Fk & O).
  unfold parses_back in Pv. specialize (Pv Wv).
  set (mt := fun kv : jsstring * value =>
               TString (fst kv) :: TColon :: tokens_of (snd kv)) in *.
  destruct o as [|kv' o].
  - cbn [map join_tokens]. unfold mt. cbn [fst snd app].
    cbn [parse_run parse_step]. rewrite <- app_comm_cons || idtac.
    rewrite Pv. cbn [plug]. rewrite (set_fits acc k v Fk). reflexivity.
  - change (join_tokens (map mt ((k, v) :: kv' :: o)))
      with (mt (k, v) ++ TComma :: join_tokens (map mt (kv' :: o))).
    unfold mt at 1. cbn [fst snd]. rewrite <- app_assoc. cbn [app].
    cbn [parse_run parse_step]. rewrite Pv. cbn [plug].
    rewrite (set_fits acc k v Fk).
    change (parse_run (PObjNext (acc ++ [(k, v)]) stk)
              (TComma :: join_tokens (map mt (kv' :: o)) ++ TRBrace :: rest))
      with (parse_run (PKey (acc ++ [(k, v)]) stk)
              (join_tokens (map mt (kv' :: o)) ++ TRBrace :: rest)).
    rewrite IH; [| discriminate | exact Fo | exact Wo | exact O].
    rewrite <- app_assoc. reflexivity.
Qed.

Lemma parse_tokens : forall v,
  wf v = true ->
  forall stk rest,
    parse_run (PValue stk) (tokens_of v ++ rest) = parse_run (plug v stk) rest.
Proof.
  induction v as [|b|n|s|l IH|o IH] using value_induction;
    intros W stk rest; try reflexivity.
  - destruct b; reflexivity.
  - cbn [wf] in W. destruct l as [|x l]; [reflexivity|].
    destruct (tokens_of_start x) as (t & ts & E & St).
    change (tokens_of (JArr (x :: l)) ++ rest)
      with (TLBracket :: (join_tokens (map tokens_of (x :: l)) ++ [TRBracket])
                      ++ rest).
    rewrite <- app_assoc. cbn [app].
    assert (J : exists js', join_tokens (map tokens_of (x :: l)) = t :: js').
    { destruct l; cbn [map join_tokens]; rewrite E; eexists; reflexivity. }
    destruct J as (js' & J).
    transitivity (parse_run (PValue (CArr [] :: stk))
                    (join_tokens (map tokens_of (x :: l)) ++ TRBracket :: rest)).
    { rewrite J. cbn [app].
      change (parse_run (PValue stk)
                (TLBracket :: t :: js' ++ TRBracket :: rest))
        with (match parse_step (PArrStart stk) t with
              | Some st' => parse_run st' (js' ++ TRBracket :: rest)
              | None => None
              end).
      rewrite St. reflexivity. }
    rewrite (parse_elements (x :: l)); [reflexivity | discriminate | exact IH | exact W].
  - cbn [wf] in W. apply andb_prop in W. destruct W as (O & W).
    destruct o as [|[k v] o]; [reflexivity|].
    set (mt := fun kv : jsstring * value =>
                 TString (fst kv) :: TColon :: tokens_of (snd kv)).
    change (tokens_of (JObj ((k, v) :: o)) ++ rest)
      with (TLBrace :: (join_tokens (map mt ((k, v) :: o)) ++ [TRBrace]) ++ rest).
    rewrite <- app_assoc. cbn [app].
    assert (J : exists js', join_tokens (map mt ((k, v) :: o)) = TString k :: js').
    { destruct o; cbn [map join_tokens]; unfold mt; cbn [fst app];
        eexists; reflexivity. }
    destruct J as (js' & J).
    transitivity (parse_run (PKey [] stk)
                    (join_tokens (map mt ((k, v) :: o)) ++ TRBrace :: rest)).
    { rewrite J. reflexivity. }
    unfold mt.
    rewrite (parse_members ((k, v) :: o)); [reflexivity | discriminate | exact IH | exact W | exact O].
Qed.

(** [JSON.parse] reads back what [JSON.stringify] writes. *)
Lemma parse_stringify : forall v,
  wf v = true -> JSON_parse (JSON_stringify v) = Some v.
Proof.
  intros v W. unfold JSON_parse. rewrite (lex_stringify v W).
  rewrite <- (app_nil_r (tokens_of v)). rewrite (parse_tokens v W). reflexivity.
Qed.

Lemma get_has_key : forall k o v, get k o = Some v -> has_key k o = true.
Proof.
  intros k. induction o as [|[k' v'] o IH]; intros v H; [discriminate H|].
  cbn [get has_key] in *. destruct (JS.eqb k k'); [reflexivity|].
  cbn [orb]. exact (IH v H).
Qed.

Lemma get_replace_same : forall k v o,
  has_key k o = true -> get k (replace_value k v o) = Some v.
Proof.
  intros k v. induction o as [|[k' v'] o IH]; intro H; [discriminate H|].
  cbn [has_key replace_value] in *. destruct (JS.eqb k k') eqn:E.
  - cbn [get]. rewrite E. reflexivity.
  - cbn [get]. rewrite E. cbn [orb] in H. exact (IH H).
Qed.

Lemma get_replace_other : forall k k' v o,
  k' <> k -> get k' (replace_value k v o) = get k' o.
Proof.
  intros k k' v. induction o as [|[k0 v0] o IH]; intro H; [reflexivity|].
  cbn [replace_value]. destruct (JS.eqb k k0) eqn:E.
  - apply eqb_eq in E. subst k0. cbn [get].
    destruct (JS.eqb k' k) eqn:E'; [apply eqb_eq in E'; congruence | reflexivity].
  - cbn [get]. destruct (JS.eqb k' k0); [reflexivity | exact (IH H)].
Qed.

Lemma has_key_replace : forall k k' v o,
  has_key k' (replace_value k v o) = has_key k' o.
Proof.
  intros k k' v. induction o as [|[k0 v0] o IH]; [reflexivity|].
  cbn [replace_value]. destruct (JS.eqb k k0); cbn [has_key];
    [reflexivity | rewrite IH; reflexivity].
Qed.

Lemma keys_replace : forall k v o, map fst (replace_value k v o) = map fst o.
Proof.
  intros k v. induction o as [|[k0 v0] o IH]; [reflexivity|].
  cbn [replace_value]. destruct (JS.eqb k k0); cbn [map fst];
    [reflexivity | rewrite IH; reflexivity].
Qed.

(** ** The normalisation step *)

Lemma fix_field_truthy : forall k v o,
  truthy (get k o) = true -> fix_field k v o = replace_value k (JStr v) o.
Proof.
  intros k v o H. unfold fix_field. rewrite H. unfold set.
  destruct (get k o) as [x|] eqn:G; [|discriminate H].
  rewrite (get_has_key k o x G). reflexivity.
Qed.

Lemma fix_field_falsy : forall k v o,
  truthy (get k o) = false -> fix_field k v o = o.
Proof. intros k v o H. unfold fix_field. rewrite H. reflexivity. Qed.

Lemma normalize_parse_fails : forall response d t,
  parse_fails response = true -> normalize response d t = (JNull, response).
Proof.
  intros response d t H. unfold parse_fails in H. unfold normalize.
  destruct (jsonMatch (clean response)) as [m|]; [|reflexivity].
  destruct (JSON_parse m); [discriminate | reflexivity].
Qed.

(** The two corrections change nothing but the values of [date] and
    [analyzed_at], and those only where they are truthy. *)
Lemma restamp_fields : forall d t o,
  get (js "date") (restamp d t o)
  = (if truthy (get (js "date") o) then Some (JStr d) else get (js "date") o)
  /\ get (js "analyzed_at") (restamp d t o)
     = (if truthy (get (js "analyzed_at") o) then Some (JStr t)
        else get (js "analyzed_at") o)
  /\ (forall k, k <> js "date" -> k <> js "analyzed_at" ->
                get k (restamp d t o) = get k o)
  /\ map fst (restamp d t o) = map fst o.
Proof.
  intros d t o. unfold restamp.
  set (o1 := fix_field (js "date") d o).
  assert (D : get (js "date") o1
              = if truthy (get (js "date") o) then Some (JStr d)
                else get (js "date") o).
  { unfold o1. destruct (truthy (get (js "date") o)) eqn:T.
    - rewrite fix_field_truthy by exact T.
      destruct (get (js "date") o) as [x|] eqn:G; [|discriminate T].
      apply get_replace_same. exact (get_has_key _ _ _ G).
    - rewrite fix_field_falsy by exact T. reflexivity. }
  assert (O1 : forall k, k <> js "date" -> get k o1 = get k o).
  { intros k K. unfold o1. destruct (truthy (get (js "date") o)) eqn:T.
    - rewrite fix_field_truthy by exact T. apply get_replace_other. exact K.
    - rewrite fix_field_falsy by exact T. reflexivity. }
  assert (K1 : map fst o1 = map fst o).
  { unfold o1. destruct (truthy (get (js "date") o)) eqn:T.
    - rewrite fix_field_truthy by exact T. apply keys_replace.
    - rewrite fix_field_falsy by exact T. reflexivity. }
  rewrite <- D, <- (O1 (js "analyzed_at")) by discriminate. rewrite <- K1.
  destruct (truthy (get (js "analyzed_at") o1)) eqn:T.
  - rewrite fix_field_truthy by exact T. repeat split.
    + apply get_replace_other. discriminate.
    + destruct (get (js "analyzed_at") o1) as [x|] eqn:G; [|discriminate T].
      apply get_replace_same. exact (get_has_key _ _ _ G).
    + intros k Kd Ka. rewrite get_replace_other by exact Ka. apply O1. exact Kd.
    + apply keys_replace.
  - rewrite fix_field_falsy by exact T. repeat split.
    intros k Kd Ka. apply O1. exact Kd.
Qed.

(** What the step does with a reply whose cleaned text is the text of a
    well-formed object. *)
Lemma normalize_object_text : forall reply o d t,
  wf (JObj o) = true ->
  clean reply = JSON_stringify (JObj o) ->
  normalize reply d t
  = (JObj (restamp d t o), JSON_stringify (JObj (restamp d t o))).
Proof.
  intros reply o d t W C. unfold normalize. rewrite C.
  assert (M : jsonMatch (JSON_stringify (JObj o)) = Some (JSON_stringify (JObj o))).
  { change (JSON_stringify (JObj o))
      with ([] ++ 123 :: join (js ",")
                           (map (fun kv => quote (fst kv) ++ js ":"
                                             ++ JSON_stringify (snd kv)) o)
               ++ 125 :: []).
    unfold jsonMatch, String_match.
    rewrite search_re_object by (intros []). reflexivity. }
  rewrite M, (parse_stringify _ W). reflexivity.
Qed.

Lemma schema_dates : forall o m,
  Zod.moodboardOutputSchema (Some (JObj o)) = Some m ->
  get (js "date") o = Some (JStr (Zod.date m))
  /\ get (js "analyzed_at") o = Some (JStr (Zod.analyzed_at m)).
Proof.
  intros o m H. unfold Zod.moodboardOutputSchema, Zod.field in H.
  destruct (Zod.z_string (get (js "date") o)) as [a|] eqn:A; [|discriminate H].
  destruct (Zod.z_array_min _ _ _) as [b|]; [|discriminate H].
  destruct (Zod.z_optional _ _) as [c|]; [|discriminate H].
  destruct (Zod.z_string (get (js "analyzed_at") o)) as [e|] eqn:E;
    [|discriminate H].
  inversion H; subst m. cbn [Zod.date Zod.analyzed_at].
  unfold Zod.z_string in A, E.
  destruct (get (js "date") o) as [[]|]; try discriminate A.
  destruct (get (js "analyzed_at") o) as [[]|]; try discriminate E.
  inversion A; inversion E; subst. auto.
Qed.

Lemma clean_reply_forms : forall o reply,
  contains_fence (JSON_stringify (JObj o)) = false ->
  In reply [JSON_stringify (JObj o);
            fenced_json (JSON_stringify (JObj o));
            fenced_plain (JSON_stringify (JObj o))] ->
  clean reply = JSON_stringify (JObj o).
Proof.
  intros o reply F H.
  change (JSON_stringify (JObj o))
    with (123 :: join (js ",")
                   (map (fun kv => quote (fst kv) ++ js ":"
                                     ++ JSON_stringify (snd kv)) o)
              ++ [125]) in *.
  destruct H as [H|[H|[H|[]]]]; subst reply.
  - apply clean_bare. exact F.
  - apply clean_fenced_json. exact F.
  - apply clean_fenced_plain. exact F.
Qed.

(** ** The inference client and the handler, case by case *)

Section HandlerFacts.

Variable cfg : Config.
Variable rt : Runtime.

(** The client, outcome by outcome. *)
Lemma callGLM46_unfold : forall clock u prompt apiKey modelName endpoint st,
  callGLM46 rt clock u prompt apiKey modelName endpoint st
  = if nonempty apiKey then
      match fetch_with_timeout rt u with
      | Return r =>
          match read_answer rt modelName r with
          | Settled (Return reply) =>
              (Settled (Return reply),
               answered clock endpoint modelName prompt st)
          | Settled (Throw e) =>
              rethrow (js "Failed to call " ++ modelName ++ js ": ") e
                      (answered clock endpoint modelName prompt st)
          | Pending => (Pending, answered clock endpoint modelName prompt st)
          end
      | Throw e =>
          rethrow (js "Failed to call " ++ modelName ++ js ": ") e
                  (requested clock endpoint modelName prompt st)
      end
    else (Settled (Throw (JsError (js "JATEVO_API_KEY is required"))), st).
Proof.
  intros clock u prompt apiKey modelName endpoint st. unfold callGLM46.
  destruct (nonempty apiKey); cbn [negb]; [|reflexivity].
  unfold try_catch, bind, emit, lift, await, Date_now, answered, requested.
  cbn [reads trace].
  destruct (fetch_with_timeout rt u) as [r|e]; [|reflexivity].
  destruct (read_answer rt modelName r) as [[reply|e]|]; reflexivity.
Qed.

Lemma rethrow_wraps : forall (A : Type) prefix e st,
  exists msg,
    @rethrow A prefix e st = (Settled (Throw (JsError (prefix ++ msg))), st).
Proof.
  intros A prefix e st. destruct e as [m|]; eexists; reflexivity.
Qed.

(** The only body the client returns on. *)
Lemma read_answer_returns : forall modelName r reply,
  read_answer rt modelName r = Settled (Return reply) ->
  exists ch chs,
    r = {| ok := true; body := Completion (Some (ch :: chs)) |}
    /\ reply = content ch.
Proof.
  intros modelName [okr b] reply H. unfold read_answer, TypeError in H.
  cbn [body ok] in H.
  destruct b as [|e|m|d| |m c ty| |[[|ch chs]|]|g]; try discriminate H;
    try (destruct okr; cbn [negb] in H; try discriminate H).
  - destruct d; discriminate H.
  - inversion H. exists ch, chs. split; reflexivity.
Qed.

(** The only body on which the client waits for ever. *)
Lemma read_answer_pending : forall modelName r,
  read_answer rt modelName r = Pending -> body r = Stalled.
Proof.
  intros modelName [okr b] H. unfold read_answer, TypeError in H.
  cbn [body ok] in H.
  destruct b as [|e|m|d| |m c ty| |[[|ch chs]|]|g]; try reflexivity;
    try discriminate H;
    try (destruct okr; cbn [negb] in H; try discriminate H).
  destruct d; discriminate H.
Qed.

Lemma fetch_returns : forall u r,
  fetch_with_timeout rt u = Return r ->
  exists t, u = Answers t r /\ t < TIMEOUT_MS.
Proof.
  intros u r H. destruct u as [t r'|t e|]; cbn [fetch_with_timeout] in H.
  - destruct (N.ltb_spec t TIMEOUT_MS) as [Ht|Ht]; [|discriminate H].
    inversion H. exists t. split; [reflexivity | exact Ht].
  - destruct (N.ltb t TIMEOUT_MS); discriminate H.
  - discriminate H.
Qed.

(** The client returns exactly when the key is set, the headers arrive
    before the timer fires, the status is ok and the body is a completion
    with at least one choice; it then returns the content of the first
    choice. *)
Lemma callGLM46_returns :
  forall clock u prompt apiKey modelName endpoint st reply st',
  callGLM46 rt clock u prompt apiKey modelName endpoint st = (Return reply, st') ->
  nonempty apiKey = true
  /\ (exists t ch chs,
        u = Answers t {| ok := true; body := Completion (Some (ch :: chs)) |}
        /\ t < TIMEOUT_MS /\ reply = content ch)
  /\ st' = answered clock endpoint modelName prompt st.
Proof.
  intros clock u prompt apiKey modelName endpoint st reply st' H.
  rewrite callGLM46_unfold in H.
  destruct (nonempty apiKey) eqn:K; [|discriminate H].
  split; [reflexivity|].
  destruct (fetch_with_timeout rt u) as [r|e] eqn:F.
  - destruct (read_answer rt modelName r) as [[reply'|e]|] eqn:R.
    + inversion H; subst reply' st'. split; [|reflexivity].
      destruct (fetch_returns _ _ F) as (t & Hu & Ht).
      destruct (read_answer_returns _ _ _ R) as (ch & chs & Hr & Hc).
      exists t, ch, chs. subst. auto.
    + destruct e; discriminate H.
    + discriminate H.
  - destruct e; discriminate H.
Qed.

(** The lines of the summary are those of the coins that are read. *)
Lemma summary_lines_read_rows : forall rows,
  summary_lines rt rows
  = match read_rows rows with
    | Return coins => Return (map (coin_line rt) coins)
    | Throw e => Throw e
    end.
Proof.
  induction rows as [|[c|m] rest IH]; cbn [summary_lines read_rows];
    try reflexivity.
  rewrite IH. destruct (read_rows rest); reflexivity.
Qed.

(** The handler, outcome by outcome. *)
Lemma handler_unfold : forall w i,
  handler cfg rt w i initial
  = let fetched := State 0 [EvGetTopCoins (Zod.limit i) (Zod.vs_currency i)] in
    match coingecko w with
    | Throw e => rethrow (js "Moodboard analysis failed: ") e fetched
    | Return None | Return (Some []) =>
        (Settled (Throw (JsError (js "Moodboard analysis failed: "
                           ++ js "No coin data received from CoinGecko"))),
         fetched)
    | Return (Some (c :: cs)) =>
        let currentDate := before_first 84 (toISOString rt (clock w 0)) in
        let currentTimestamp := toISOString rt (clock w 1) in
        let prompt :=
          prompt_text cfg (Zod.limit i)
                      (join [10] (map (coin_line rt) (c :: cs)))
                      currentDate currentTimestamp in
        let started :=
          State 3 [EvNow (clock w 2); EvNow (clock w 1); EvNow (clock w 0);
                   EvGetTopCoins (Zod.limit i) (Zod.vs_currency i)] in
        match callGLM46 rt (clock w) (upstream w) prompt (jatevoApiKey cfg)
                        (jatevoModel cfg) default_endpoint started with
        | (Settled (Return response), st) =>
            (Settled (Return
               {| output :=
                    {| date := currentDate;
                       analyzed_at := currentTimestamp;
                       raw_response := response;
                       corrected_response :=
                         snd (normalize response currentDate currentTimestamp);
                       parsed_data :=
                         fst (normalize response currentDate currentTimestamp);
                       model_used := jatevoModel cfg;
                       analysis_duration_ms :=
                         (Z.of_N (clock w (reads st)) - Z.of_N (clock w 2))%Z |};
                  model := jatevoModel cfg;
                  raw := true |}),
             State (S (reads st)) (EvNow (clock w (reads st)) :: trace st))
        | (Settled (Throw e), st) =>
            rethrow (js "Moodboard analysis failed: ") e st
        | (Pending, st) => (Pending, st)
        end
    end.
Proof.
  intros w i. cbn zeta. unfold handler.
  unfold try_catch at 1. unfold bind at 1.
  unfold getTopCoins, bind at 1, emit, lift, initial. cbn [reads trace].
  unfold coingecko.
  destruct (fetched w) as [[[|row rows]|]|e]; try reflexivity.
  unfold bind at 1. rewrite summary_lines_read_rows.
  destruct (read_rows (row :: rows)) as [[|c cs]|e] eqn:R;
    [destruct row; cbn [read_rows] in R;
       [destruct (read_rows rows); discriminate R | discriminate R]
    | | reflexivity].
  cbn [option_map].
  unfold now.
  unfold bind at 1, Date_now at 1. cbn [reads trace].
  unfold bind at 1, Date_now at 1. cbn [reads trace].
  unfold bind at 1, Date_now at 1. cbn [reads trace].
  unfold bind at 1. unfold newline.
  match goal with
  | |- context [callGLM46 ?a ?k ?u ?p ?y ?m ?e ?s] =>
      destruct (callGLM46 a k u p y m e s) as [[[reply|e']|] st1]
  end; try reflexivity.
  unfold bind at 1, Date_now at 1. cbn [reads trace].
  destruct (normalize reply _ _) as [pr cr]. reflexivity.
Qed.

(** What the handler returns, and what has happened by then: the clock
    has been read six times, the fourth and the fifth time by the client. *)
Lemma handler_returns : forall w i r st',
  handler cfg rt w i initial = (Return r, st') ->
  exists c cs t ch chs,
    coingecko w = Return (Some (c :: cs))
    /\ nonempty (jatevoApiKey cfg) = true
    /\ upstream w
       = Answers t {| ok := true; body := Completion (Some (ch :: chs)) |}
    /\ t < TIMEOUT_MS
    /\ let currentDate := before_first 84 (toISOString rt (clock w 0)) in
       let currentTimestamp := toISOString rt (clock w 1) in
       let prompt :=
         prompt_text cfg (Zod.limit i)
                     (join [10] (map (coin_line rt) (c :: cs)))
                     currentDate currentTimestamp in
       r = {| output :=
                {| date := currentDate;
                   analyzed_at := currentTimestamp;
                   raw_response := content ch;
                   corrected_response :=
                     snd (normalize (content ch) currentDate currentTimestamp);
                   parsed_data :=
                     fst (normalize (content ch) currentDate currentTimestamp);
                   model_used := jatevoModel cfg;
                   analysis_duration_ms :=
                     (Z.of_N (clock w 5) - Z.of_N (clock w 2))%Z |};
              model := jatevoModel cfg;
              raw := true |}
       /\ st' = State 6 [EvNow (clock w 5); EvNow (clock w 4);
                         EvInference default_endpoint (jatevoModel cfg) prompt;
                         EvNow (clock w 3);
                         EvNow (clock w 2); EvNow (clock w 1);
                         EvNow (clock w 0);
                         EvGetTopCoins (Zod.limit i) (Zod.vs_currency i)].
Proof.
  intros w i r st' H. rewrite handler_unfold in H. cbn zeta in H.
  destruct (coingecko w) as [[[|c cs]|]|e] eqn:Hc;
    try (destruct e; discriminate H); try discriminate H.
  match type of H with
  | context [callGLM46 ?a ?k ?u ?p ?y ?m ?e ?s] =>
      destruct (callGLM46 a k u p y m e s) as [[[reply|e']|] st1] eqn:Hcall
  end.
  - apply callGLM46_returns in Hcall.
    destruct Hcall as (K & (t & ch & chs & Hu & Ht & Hr) & Hst). subst st1 reply.
    inversion H; subst. clear H.
    exists c, cs, t, ch, chs. cbn zeta. repeat split; auto.
  - destruct e'; discriminate H.
  - discriminate H.
Qed.

Lemma handler_runs : forall w i c cs t ch chs,
  coingecko w = Return (Some (c :: cs)) ->
  nonempty (jatevoApiKey cfg) = true ->
  upstream w = Answers t {| ok := true; body := Completion (Some (ch :: chs)) |} ->
  t < TIMEOUT_MS ->
  let currentDate := before_first 84 (toISOString rt (clock w 0)) in
  let currentTimestamp := toISOString rt (clock w 1) in
  let prompt :=
    prompt_text cfg (Zod.limit i) (join [10] (map (coin_line rt) (c :: cs)))
                currentDate currentTimestamp in
  handler cfg rt w i initial
  = (Return {| output :=
                 {| date := currentDate;
                    analyzed_at := currentTimestamp;
                    raw_response := content ch;
                    corrected_response :=
                      snd (normalize (content ch) currentDate currentTimestamp);
                    parsed_data :=
                      fst (normalize (content ch) currentDate currentTimestamp);
                    model_used := jatevoModel cfg;
                    analysis_duration_ms :=
                      (Z.of_N (clock w 5) - Z.of_N (clock w 2))%Z |};
               model := jatevoModel cfg;
               raw := true |},
     State 6 [EvNow (clock w 5); EvNow (clock w 4);
              EvInference default_endpoint (jatevoModel cfg) prompt;
              EvNow (clock w 3);
              EvNow (clock w 2); EvNow (clock w 1); EvNow (clock w 0);
              EvGetTopCoins (Zod.limit i) (Zod.vs_currency i)]).
Proof.
  intros w i c cs t ch chs Hc K Hu Ht. cbn zeta.
  apply N.ltb_lt in Ht.
  rewrite handler_unfold. cbn zeta. rewrite Hc, callGLM46_unfold, K, Hu.
  cbn [fetch_with_timeout]. rewrite Ht.
  unfold read_answer. cbn [body ok negb content]. reflexivity.
Qed.

Lemma fetch_aborted : forall u,
  no_answer_before_ceiling u = true ->
  fetch_with_timeout rt u = Throw (JsError (abort_message rt)).
Proof.
  intros u Hu.
  destruct u as [t r|t e|]; cbn [fetch_with_timeout no_answer_before_ceiling] in *;
    try reflexivity; apply N.ltb_lt in Hu;
    destruct (N.ltb_spec t TIMEOUT_MS); try reflexivity; lia.
Qed.

Lemma callGLM46_times_out : forall clock u prompt apiKey modelName endpoint st,
  nonempty apiKey = true ->
  no_answer_before_ceiling u = true ->
  callGLM46 rt clock u prompt apiKey modelName endpoint st
  = (Throw (JsError (js "Failed to call " ++ modelName ++ js ": "
                       ++ abort_message rt)),
     requested clock endpoint modelName prompt st).
Proof.
  intros clock u prompt apiKey modelName endpoint st K Hu.
  rewrite callGLM46_unfold, K, (fetch_aborted u Hu).
  unfold rethrow, throw. rewrite <- !app_assoc. reflexivity.
Qed.

Lemma handler_times_out : forall w i c cs,
  coingecko w = Return (Some (c :: cs)) ->
  nonempty (jatevoApiKey cfg) = true ->
  no_answer_before_ceiling (upstream w) = true ->
  fst (handler cfg rt w i initial)
  = Throw (JsError (js "Moodboard analysis failed: "
                      ++ js "Failed to call " ++ jatevoModel cfg ++ js ": "
                      ++ abort_message rt)).
Proof.
  intros w i c cs Hc K Hu. rewrite handler_unfold. cbn zeta. rewrite Hc.
  rewrite callGLM46_times_out by assumption. reflexivity.
Qed.

(** A body that never arrives: the headers came in time, the timer has
    been cleared, and nothing settles the call. *)
Lemma callGLM46_stalls : forall clock t okr prompt apiKey modelName endpoint st,
  nonempty apiKey = true ->
  t < TIMEOUT_MS ->
  callGLM46 rt clock (Answers t {| ok := okr; body := Stalled |})
            prompt apiKey modelName endpoint st
  = (Pending, answered clock endpoint modelName prompt st).
Proof.
  intros clock t okr prompt apiKey modelName endpoint st K Ht.
  apply N.ltb_lt in Ht. rewrite callGLM46_unfold, K.
  cbn [fetch_with_timeout]. rewrite Ht. reflexivity.
Qed.

End HandlerFacts.

(** ** The consistency script *)

Lemma body_carrying_output_is_raw : forall (body : object) (o : Output),
  get (js "output") body = Some (output_value o) ->
  body_hasRawResponse body = true /\ body_validated body = false.
Proof.
  intros body o H. unfold body_validated, body_hasRawResponse.
  rewrite H. unfold output_value, member_opt.
  assert (E : get (js "raw_response")
                  [(js "date", JStr (date o));
                   (js "analyzed_at", JStr (analyzed_at o));
                   (js "raw_response", JStr (raw_response o));
                   (js "corrected_response", JStr (corrected_response o));
                   (js "parsed_data", parsed_data o);
                   (js "model_used", JStr (model_used o));
                   (js "analysis_duration_ms",
                    JNum (number_of_Z (analysis_duration_ms o)))]
              = Some (JStr (raw_response o))) by reflexivity.
  rewrite E. cbn [is_undefined negb]. rewrite orb_true_r. auto.
Qed.

Lemma filter_all : forall (A : Type) (f : A -> bool) (l : list A),
  (forall x, In x l -> f x = true) -> filter f l = l.
Proof.
  intros A f. induction l as [|x l IH]; intro H.
  - reflexivity.
  - cbn [filter]. rewrite (H x) by (left; reflexivity).
    rewrite IH; [reflexivity|]. intros y Hy. apply H. right. exact Hy.
Qed.

Lemma all_pass_iff_count : forall (A : Type) (f : A -> bool) (l : list A),
  length (filter f l) = length l <-> (forall x, In x l -> f x = true).
Proof.
  intros A f l. split.
  - intro H. apply forallb_forall. apply filter_length_forallb. exact H.
  - intro H. rewrite filter_all by exact H. reflexivity.
Qed.

Lemma counts_validated_spec : forall r,
  counts_validated r = true <-> success r = true /\ validated r <> Some false.
Proof.
  intro r. unfold counts_validated.
  destruct (success r); destruct (validated r) as [[|]|]; cbn;
    split; intro H; try discriminate; try (split; congruence);
    destruct H as (H1 & H2); congruence.
Qed.

Lemma exitCode_zero : forall results,
  length results = 5%nat ->
  (exitCode results = 0
   <-> forall r, In r results -> success r = true /\ validated r <> Some false).
Proof.
  intros results L. unfold exitCode, successCount, validatedCount.
  split.
  - intro H.
    destruct (Nat.eqb_spec (length (filter success results)) 5) as [S5|S5];
      [|cbn [andb] in H; discriminate].
    destruct (Nat.eqb_spec (length (filter counts_validated results)) 5)
      as [V5|V5];
      [|cbn [andb] in H; destruct (Nat.ltb 0 (rawResponseCount results));
        discriminate].
    rewrite <- L in V5. intros r Hr. apply counts_validated_spec.
    apply (proj1 (all_pass_iff_count _ counts_validated results) V5). exact Hr.
  - intro H.
    assert (V : length (filter counts_validated results) = length results).
    { apply all_pass_iff_count. intros r Hr. apply counts_validated_spec.
      apply H. exact Hr. }
    assert (S : length (filter success results) = length results).
    { apply all_pass_iff_count. intros r Hr. apply H. exact Hr. }
    rewrite V, S, L. reflexivity.
Qed.

Lemma runSingleTest_success : forall msg n t,
  success (runSingleTest msg n t) = true
  <-> initialStatus t = Return 402
      /\ (exists u, paymentHeader t = Return u)
      /\ exists a paidBody,
           paidResponse t = Return a /\ http_ok a = true
           /\ JSON_parse (text a) = Some paidBody /\ paidBody <> JNull.
Proof.
  intros msg n t. unfold runSingleTest. split.
  - intro H.
    destruct (initialStatus t) as [st|e]; [|cbn in H; discriminate].
    destruct (N.eqb_spec st 402) as [E|E]; cbn [negb] in H;
      [|cbn in H; discriminate].
    subst st. split; [reflexivity|].
    destruct (paymentHeader t) as [u|e]; [|cbn in H; discriminate].
    split; [exists u; reflexivity|].
    destruct (paidResponse t) as [a|e]; [|cbn in H; discriminate].
    destruct (JSON_parse (text a)) as [b|] eqn:P; [|cbn in H; discriminate].
    exists a, b.
    destruct (http_ok a);
      destruct b; cbn in H; try discriminate H;
      repeat split; try reflexivity; try exact P; discriminate.
  - intros (I & (u & Pm) & a & b & R & K & P & NB).
    rewrite I. cbn [N.eqb Pos.eqb negb]. rewrite Pm, R, P, K.
    destruct b; try reflexivity. congruence.
Qed.

(** What the script divides: the response times of all results with a
    positive time, failed trials included. *)
Lemma avgResponseTime_sums_every_trial : forall results,
  (0 < successCount results)%nat ->
  avgResponseTime results
  = Finite (Qmake (fold_left (fun sum r => (sum + responseTime r)%Z)
                             (filter (fun r => (0 <? responseTime r)%Z) results)
                             0%Z)
                  (Pos.of_nat (successCount results))).
Proof.
  intros results H. unfold avgResponseTime, timeSum.
  destruct (successCount results); [lia | reflexivity].
Qed.

(** ** The input schema *)

Lemma number_leb_le : forall a b,
  number_leb a b = true <-> (number_to_Q a <= number_to_Q b)%Q.
Proof. intros a b. unfold number_leb. apply Qle_bool_iff. Qed.

Lemma limit_schema_accepts : forall v n,
  Zod.limit_schema v = Some n ->
  (1 <= number_to_Q n)%Q /\ (number_to_Q n <= 50)%Q
  /\ match v with
     | None => n = number_of_Z 10
     | Some x => x = JNum n
     end.
Proof.
  intros v n H. unfold Zod.limit_schema, Zod.z_default in H.
  destruct v as [x|].
  - unfold Zod.z_optional, Zod.z_max, Zod.z_min, Zod.z_number, option_map in H.
    destruct x as [| |m| | |]; try discriminate H.
    destruct (number_leb (number_of_Z 1) m) eqn:L1; [|discriminate H].
    destruct (number_leb m (number_of_Z 50)) eqn:L2; [|discriminate H].
    inversion H; subst m.
    apply number_leb_le in L1. apply number_leb_le in L2.
    repeat split; assumption.
  - inversion H; subst n. repeat split; vm_compute; discriminate.
Qed.

Lemma limit_schema_rejects : forall n,
  ~ ((1 <= number_to_Q n)%Q /\ (number_to_Q n <= 50)%Q) ->
  Zod.limit_schema (Some (JNum n)) = None.
Proof.
  intros n H.
  destruct (Zod.limit_schema (Some (JNum n))) as [m|] eqn:E; [|reflexivity].
  exfalso. apply H. destruct (limit_schema_accepts _ _ E) as (A & B & C).
  inversion C; subst m. split; assumption.
Qed.

Lemma limit_schema_complete : forall n,
  (1 <= number_to_Q n)%Q -> (number_to_Q n <= 50)%Q ->
  Zod.limit_schema (Some (JNum n)) = Some n.
Proof.
  intros n L1 L2.
  change (number_to_Q (number_of_Z 1) <= number_to_Q n)%Q in L1.
  change (number_to_Q n <= number_to_Q (number_of_Z 50))%Q in L2.
  apply number_leb_le in L1, L2.
  unfold Zod.limit_schema, Zod.z_default, Zod.z_optional, Zod.z_max,
    Zod.z_min, Zod.z_number, option_map.
  rewrite L1, L2. reflexivity.
Qed.

Lemma limit_schema_not_a_number : forall x,
  (forall n, x <> JNum n) -> Zod.limit_schema (Some x) = None.
Proof.
  intros x H. destruct x as [| |n| | |]; try reflexivity.
  exfalso. exact (H n eq_refl).
Qed.

(** ** The client and the handler, outcome by outcome *)

(** Where a call of the client leaves the state. *)
Lemma callGLM46_state :
  forall (rt : Runtime) (clock : nat -> N) (u : Upstream)
         (prompt apiKey modelName endpoint : jsstring) (st : state),
    snd (callGLM46 rt clock u prompt apiKey modelName endpoint st)
    = if nonempty apiKey then
        match fetch_with_timeout rt u with
        | Return _ => answered clock endpoint modelName prompt st
        | Throw _ => requested clock endpoint modelName prompt st
        end
      else st.
Proof.
  intros rt clock u prompt apiKey modelName endpoint st.
  rewrite callGLM46_unfold.
  destruct (nonempty apiKey); [|reflexivity].
  destruct (fetch_with_timeout rt u) as [r|e].
  - destruct (read_answer rt modelName r) as [[reply|[m|]]|]; reflexivity.
  - destruct e; reflexivity.
Qed.

Lemma callGLM46_cases :
  forall (rt : Runtime) (clock : nat -> N) (u : Upstream)
         (prompt apiKey modelName endpoint : jsstring) (st : state),
    (nonempty apiKey = false
     /\ callGLM46 rt clock u prompt apiKey modelName endpoint st
        = (Throw (JsError (js "JATEVO_API_KEY is required")), st))
    \/ (nonempty apiKey = true
        /\ ((exists e msg,
               fetch_with_timeout rt u = Throw e
               /\ callGLM46 rt clock u prompt apiKey modelName endpoint st
                  = (Throw (JsError (js "Failed to call " ++ modelName
                                       ++ js ": " ++ msg)),
                     requested clock endpoint modelName prompt st))
            \/ (exists t r,
                  u = Answers t r /\ t < TIMEOUT_MS
                  /\ snd (callGLM46 rt clock u prompt apiKey modelName
                                    endpoint st)
                     = answered clock endpoint modelName prompt st
                  /\ ((exists ch chs,
                         r = {| ok := true;
                                body := Completion (Some (ch :: chs)) |}
                         /\ fst (callGLM46 rt clock u prompt apiKey modelName
                                           endpoint st)
                            = Return (content ch))
                      \/ (body r = Stalled
                          /\ fst (callGLM46 rt clock u prompt apiKey modelName
                                            endpoint st)
                             = Pending)
                      \/ (exists msg,
                            fst (callGLM46 rt clock u prompt apiKey modelName
                                           endpoint st)
                            = Throw (JsError (js "Failed to call " ++ modelName
                                                ++ js ": " ++ msg))))))).
Proof.
  intros rt clock u prompt apiKey modelName endpoint st.
  pose proof (callGLM46_state rt clock u prompt apiKey modelName endpoint st)
    as S.
  rewrite callGLM46_unfold in *.
  destruct (nonempty apiKey) eqn:K; [right|left; split; reflexivity].
  split; [reflexivity|].
  set (prefix := js "Failed to call " ++ modelName ++ js ": ") in *.
  assert (W : forall e st', exists msg,
            @rethrow jsstring prefix e st'
            = (Settled (Throw (JsError (js "Failed to call " ++ modelName
                                          ++ js ": " ++ msg))), st')).
  { intros e st'. destruct (rethrow_wraps jsstring prefix e st') as (msg & E).
    exists msg. rewrite E. unfold prefix. rewrite <- !app_assoc. reflexivity. }
  destruct (fetch_with_timeout rt u) as [r|e] eqn:F.
  - right. destruct (fetch_returns _ _ _ F) as (t & Hu & Ht).
    exists t, r. split; [exact Hu|]. split; [exact Ht|]. split; [exact S|].
    destruct (read_answer rt modelName r) as [[reply|e]|] eqn:R.
    + left. destruct (read_answer_returns _ _ _ _ R) as (ch & chs & Hr & Hc).
      exists ch, chs. subst reply. split; [exact Hr | reflexivity].
    + right; right. destruct (W e (answered clock endpoint modelName prompt st))
        as (msg & E).
      exists msg. rewrite E. reflexivity.
    + right; left. split; [|reflexivity].
      exact (read_answer_pending _ _ _ R).
  - left. destruct (W e (requested clock endpoint modelName prompt st))
      as (msg & E).
    exists e, msg. split; [reflexivity | exact E].
Qed.

(** What an invocation leaves in the trace: the call to CoinGecko alone;
    or that and three readings of the clock; or, after them, the clock
    reading of the client and the request; or also the second clock
    reading of the client; or also the last reading of the handler. *)
Lemma handler_trace_cases : forall cfg rt w i,
  let first := EvGetTopCoins (Zod.limit i) (Zod.vs_currency i) in
  trace (snd (handler cfg rt w i initial)) = [first]
  \/ exists c cs,
       coingecko w = Return (Some (c :: cs))
       /\ let started :=
            [EvNow (clock w 2); EvNow (clock w 1); EvNow (clock w 0); first] in
          let request :=
            EvInference default_endpoint (jatevoModel cfg)
              (prompt_text cfg (Zod.limit i)
                 (join [10] (map (coin_line rt) (c :: cs)))
                 (before_first 84 (toISOString rt (clock w 0)))
                 (toISOString rt (clock w 1))) in
          (nonempty (jatevoApiKey cfg) = false
           /\ trace (snd (handler cfg rt w i initial)) = started)
          \/ (nonempty (jatevoApiKey cfg) = true
              /\ (trace (snd (handler cfg rt w i initial))
                  = request :: EvNow (clock w 3) :: started
                  \/ trace (snd (handler cfg rt w i initial))
                     = EvNow (clock w 4) :: request :: EvNow (clock w 3)
                         :: started
                  \/ trace (snd (handler cfg rt w i initial))
                     = EvNow (clock w 5) :: EvNow (clock w 4) :: request
                         :: EvNow (clock w 3) :: started)).
Proof.
  intros cfg rt w i first. rewrite handler_unfold. cbn zeta.
  destruct (coingecko w) as [[[|c cs]|]|[m|]]; try (left; reflexivity).
  right. exists c, cs. split; [reflexivity|]. cbn zeta.
  rewrite callGLM46_unfold.
  destruct (nonempty (jatevoApiKey cfg)); [right|left; split; reflexivity].
  split; [reflexivity|].
  destruct (fetch_with_timeout rt (upstream w)) as [r|[m|]];
    [|left; reflexivity|left; reflexivity].
  right.
  destruct (read_answer rt (jatevoModel cfg) r) as [[reply|[m|]]|];
    [right|left|left|left]; reflexivity.
Qed.

(** A call of the client only adds to the trace. *)
Lemma callGLM46_grows :
  forall (rt : Runtime) (clock : nat -> N) (u : Upstream)
         (prompt apiKey modelName endpoint : jsstring) (st : state),
  exists more,
    trace (snd (callGLM46 rt clock u prompt apiKey modelName endpoint st))
    = more ++ trace st.
Proof.
  intros rt clock u prompt apiKey modelName endpoint st.
  rewrite callGLM46_state.
  destruct (nonempty apiKey); [|exists []; reflexivity].
  destruct (fetch_with_timeout rt u).
  - exists [EvNow (clock (S (reads st)));
            EvInference endpoint modelName prompt; EvNow (clock (reads st))].
    reflexivity.
  - exists [EvInference endpoint modelName prompt; EvNow (clock (reads st))].
    reflexivity.
Qed.

(** The earliest event of an invocation is the call to CoinGecko, with
    the [limit] and the [vs_currency] the handler was given. *)
Lemma handler_trace_starts : forall cfg rt w i,
  exists later,
    trace (snd (handler cfg rt w i initial))
    = later ++ [EvGetTopCoins (Zod.limit i) (Zod.vs_currency i)].
Proof.
  intros cfg rt w i. rewrite handler_unfold. cbn zeta.
  destruct (coingecko w) as [[[|c cs]|]|[m|]];
    try (exists []; reflexivity).
  match goal with
  | |- context [callGLM46 ?a ?k ?u ?p ?y ?m ?e ?s] =>
      destruct (callGLM46_grows a k u p y m e s) as (more & G);
      destruct (callGLM46 a k u p y m e s) as [[[reply|e']|] st1]
  end; cbn [snd trace] in G.
  - exists (EvNow (clock w (reads st1))
              :: more ++ [EvNow (clock w 2); EvNow (clock w 1);
                          EvNow (clock w 0)]).
    cbn [snd trace]. rewrite G. cbn [app]. rewrite <- app_assoc. reflexivity.
  - exists (more ++ [EvNow (clock w 2); EvNow (clock w 1); EvNow (clock w 0)]).
    destruct e'; cbn [rethrow throw snd trace]; rewrite G, <- app_assoc;
      reflexivity.
  - exists (more ++ [EvNow (clock w 2); EvNow (clock w 1); EvNow (clock w 0)]).
    cbn [snd trace]. rewrite G, <- app_assoc. reflexivity.
Qed.

(** ** The configuration *)

Lemma set_value_nonempty : forall v s,
  Settings.set_value v = Some s -> v = Some s /\ nonempty s = true.
Proof.
  intros v s H. destruct v as [x|]; [|discriminate H]. cbn in H.
  destruct (nonempty x) eqn:E; [|discriminate H]. inversion H; subst. auto.
Qed.

Lemma or_else_nonempty : forall v d,
  nonempty d = true -> nonempty (Settings.or_else v d) = true.
Proof.
  intros v d H. unfold Settings.or_else.
  destruct (Settings.set_value v) as [s|] eqn:E; [|exact H].
  apply set_value_nonempty in E. apply E.
Qed.

(** ** The output schemas *)

Lemma z_string_min_1 : forall v s,
  Zod.z_string_min 1 Zod.z_string v = Some s ->
  v = Some (JStr s) /\ nonempty s = true.
Proof.
  intros v s H. unfold Zod.z_string_min, Zod.z_string in H.
  destruct v as [[| | |x| |]|]; try discriminate H.
  destruct x as [|c x]; [discriminate H|]. inversion H. auto.
Qed.

Lemma z_optional_number : forall v r,
  Zod.z_optional Zod.z_number v = Some r ->
  match r with Some n => v = Some (JNum n) | None => v = None end.
Proof.
  intros v r H. unfold Zod.z_optional, Zod.z_number, option_map in H.
  destruct v as [[| |n| | |]|]; try discriminate H; inversion H; reflexivity.
Qed.

Lemma z_optional_string : forall v r,
  Zod.z_optional Zod.z_string v = Some r ->
  match r with Some s => v = Some (JStr s) | None => v = None end.
Proof.
  intros v r H. unfold Zod.z_optional, Zod.z_string, option_map in H.
  destruct v as [[| | |s| |]|]; try discriminate H; inversion H; reflexivity.
Qed.

Lemma coinMoodSchema_sound : forall v c,
  Zod.coinMoodSchema (Some v) = Some c -> coin_conforms v c.
Proof.
  intros v c H. unfold Zod.coinMoodSchema in H.
  destruct v as [| | | | |o]; try discriminate H. unfold Zod.field in H.
  destruct (Zod.z_string_min 1 Zod.z_string (get (js "symbol") o))
    as [a|] eqn:A; [|discriminate H].
  destruct (Zod.z_string_min 1 Zod.z_string (get (js "mood") o))
    as [b|] eqn:B; [|discriminate H].
  destruct (Zod.z_string_min 1 Zod.z_string (get (js "narrative") o))
    as [n|] eqn:N; [|discriminate H].
  destruct (Zod.z_max 1 (Zod.z_min 0 Zod.z_number) (get (js "score") o))
    as [s|] eqn:S; [|discriminate H].
  destruct (Zod.z_optional Zod.z_number (get (js "price_change_24h") o))
    as [p|] eqn:P; [|discriminate H].
  destruct (Zod.z_optional Zod.z_number (get (js "market_cap_rank") o))
    as [r|] eqn:R; [|discriminate H].
  inversion H; subst c; clear H.
  apply z_string_min_1 in A, B, N.
  apply z_optional_number in P, R.
  unfold Zod.z_max, Zod.z_min, Zod.z_number in S.
  destruct (get (js "score") o) as [[| |m| | |]|] eqn:G; try discriminate S.
  destruct (number_leb (number_of_Z 0) m) eqn:L0; [|discriminate S].
  destruct (number_leb m (number_of_Z 1)) eqn:L1; [|discriminate S].
  inversion S; subst m. apply number_leb_le in L0, L1.
  exists o. cbn [Zod.symbol Zod.mood Zod.narrative Zod.score
                 Zod.price_change_24h Zod.market_cap_rank].
  destruct A as (A1 & A2), B as (B1 & B2), N as (N1 & N2).
  repeat split; try assumption.
  - destruct p; rewrite P; reflexivity.
  - destruct r; rewrite R; reflexivity.
Qed.

Lemma parse_all_sound : forall l cs,
  Zod.parse_all Zod.coinMoodSchema l = Some cs -> Forall2 coin_conforms l cs.
Proof.
  induction l as [|x l IH]; intros cs H; cbn [Zod.parse_all] in H.
  - inversion H. constructor.
  - destruct (Zod.coinMoodSchema (Some x)) as [a|] eqn:A; [|discriminate H].
    destruct (Zod.parse_all Zod.coinMoodSchema l) as [r|]; [|discriminate H].
    inversion H; subst cs. constructor; [apply coinMoodSchema_sound; exact A|].
    apply IH. reflexivity.
Qed.

Lemma moodboardOutputSchema_fields : forall v m,
  Zod.moodboardOutputSchema v = Some m ->
  exists o l,
    v = Some (JObj o)
    /\ get (js "date") o = Some (JStr (Zod.date m))
    /\ get (js "coins") o = Some (JArr l)
    /\ Zod.parse_all Zod.coinMoodSchema l = Some (Zod.coins m)
    /\ l <> []
    /\ get (js "market_sentiment") o = option_map JStr (Zod.market_sentiment m)
    /\ get (js "analyzed_at") o = Some (JStr (Zod.analyzed_at m)).
Proof.
  intros v m H. unfold Zod.moodboardOutputSchema in H.
  destruct v as [[| | | | |o]|]; try discriminate H. unfold Zod.field in H.
  destruct (Zod.z_string (get (js "date") o)) as [a|] eqn:A; [|discriminate H].
  destruct (Zod.z_array_min 1 (Zod.z_array Zod.coinMoodSchema)
              (get (js "coins") o)) as [b|] eqn:B; [|discriminate H].
  destruct (Zod.z_optional Zod.z_string (get (js "market_sentiment") o))
    as [c|] eqn:C; [|discriminate H].
  destruct (Zod.z_string (get (js "analyzed_at") o)) as [d|] eqn:D;
    [|discriminate H].
  inversion H; subst m; clear H.
  cbn [Zod.date Zod.coins Zod.market_sentiment Zod.analyzed_at].
  unfold Zod.z_string in A, D.
  destruct (get (js "date") o) as [[| | |x| |]|] eqn:GD; try discriminate A.
  destruct (get (js "analyzed_at") o) as [[| | |y| |]|] eqn:GA;
    try discriminate D.
  inversion A; inversion D; subst.
  apply z_optional_string in C.
  unfold Zod.z_array_min, Zod.z_array in B.
  destruct (get (js "coins") o) as [[| | | |l|]|] eqn:GC; try discriminate B.
  destruct (Zod.parse_all Zod.coinMoodSchema l) as [cs|] eqn:P;
    [|discriminate B].
  destruct cs as [|c1 cs]; [discriminate B|]. inversion B; subst b.
  exists o, l.
  split; [reflexivity|]. split; [exact GD|]. split; [exact GC|].
  split; [exact P|].
  split; [intro E; subst l; discriminate P|].
  split; [destruct c; rewrite C; reflexivity | exact GA].
Qed.

(** ** The results of the consistency script *)

Lemma failure_shape : forall n st t e, result_shape (failure n st t e).
Proof. intros. cbn. repeat split. discriminate. Qed.

Lemma caught_shape : forall n t e, result_shape (caught n t e).
Proof. intros. apply failure_shape. Qed.

Lemma runSingleTest_shape : forall msg n t,
  result_shape (runSingleTest msg n t).
Proof.
  intros msg n t. unfold runSingleTest.
  destruct (initialStatus t) as [st|e]; [|apply caught_shape].
  destruct (negb (N.eqb st 402)); [apply failure_shape|].
  destruct (paymentHeader t) as [u|e]; [|apply caught_shape].
  destruct (paidResponse t) as [a|e]; [|apply caught_shape].
  destruct (JSON_parse (text a)) as [paidBody|]; [|apply failure_shape].
  assert (G : forall o,
            result_shape
              (if negb (http_ok a)
               then failure n (http_status a) t
                      match member_opt "message" (get (js "error") o) with
                      | Some x =>
                          if truthy (member_opt "message" (get (js "error") o))
                          then x else JStr (js "Request failed")
                      | None => JStr (js "Request failed")
                      end
               else {| attempt := n; success := true; status := 200;
                       hasRawResponse := Some (body_hasRawResponse o);
                       validated := Some (body_validated o);
                       responseTime := elapsed t; error := None |})).
  { intro o. destruct (negb (http_ok a)); [apply failure_shape|].
    cbn. repeat split. eexists. eexists. repeat split.
    unfold body_validated. intro V. apply andb_prop in V.
    destruct V as (V & _). apply negb_true_iff in V. exact V. }
  destruct paidBody; try apply G. apply caught_shape.
Qed.

Lemma runSingleTest_attempt : forall msg n t,
  attempt (runSingleTest msg n t) = n
  /\ responseTime (runSingleTest msg n t) = elapsed t.
Proof.
  intros msg n t. unfold runSingleTest.
  destruct (initialStatus t) as [st|e]; [|split; reflexivity].
  destruct (negb (N.eqb st 402)); [split; reflexivity|].
  destruct (paymentHeader t) as [u|e]; [|split; reflexivity].
  destruct (paidResponse t) as [a|e]; [|split; reflexivity].
  destruct (JSON_parse (text a)) as [paidBody|]; [|split; reflexivity].
  destruct paidBody; try (split; reflexivity);
    destruct (negb (http_ok a)); split; reflexivity.
Qed.

Lemma count_le : forall (A : Type) (f g h : A -> bool) (l : list A),
  (forall x, In x l ->
     (f x = true -> h x = true) /\ (g x = true -> h x = true)
     /\ (f x = true -> g x = true -> False)) ->
  (length (filter f l) + length (filter g l) <= length (filter h l))%nat.
Proof.
  induction l as [|x l IH]; intro H; [cbn; lia|].
  assert (IH' := IH (fun y Hy => H y (or_intror Hy))).
  destruct (H x (or_introl eq_refl)) as (F & G & X).
  cbn [filter].
  destruct (f x) eqn:Ef; destruct (g x) eqn:Eg; destruct (h x) eqn:Eh;
    cbn [length]; try lia;
    try (exfalso; auto; fail);
    try (specialize (F eq_refl); discriminate F);
    try (specialize (G eq_refl); discriminate G).
Qed.

Lemma filter_same : forall (A : Type) (f g : A -> bool) (l : list A),
  (forall x, In x l -> f x = g x) -> filter f l = filter g l.
Proof.
  induction l as [|x l IH]; intro H; [reflexivity|].
  cbn [filter]. rewrite (H x (or_introl eq_refl)).
  rewrite IH; [reflexivity|]. intros y Hy. apply H. right. exact Hy.
Qed.

Lemma fold_sum_shift : forall (l : list TestResult) (a : Z),
  fold_left (fun sum r => (sum + responseTime r)%Z) l a
  = (a + fold_left (fun sum r => (sum + responseTime r)%Z) l 0)%Z.
Proof.
  induction l as [|r l IH]; intro a; cbn [fold_left]; [lia|].
  rewrite (IH (a + responseTime r)%Z), (IH (0 + responseTime r)%Z). lia.
Qed.

Lemma timeSum_positive : forall results,
  (0 <= timeSum results)%Z
  /\ ((0 < timeSum results)%Z
      <-> exists r, In r results /\ (0 < responseTime r)%Z).
Proof.
  unfold timeSum. induction results as [|r l (IH0 & IH)].
  - cbn. split; [lia|]. split; [lia | intros (r & [] & _)].
  - cbn [filter]. destruct (0 <? responseTime r)%Z eqn:E.
    + apply Z.ltb_lt in E. cbn [fold_left]. rewrite fold_sum_shift.
      split; [lia|]. split; [|lia].
      intros _. exists r. split; [left; reflexivity | exact E].
    + apply Z.ltb_ge in E. split; [exact IH0|]. split.
      * intro H. apply IH in H. destruct H as (x & Hx & P).
        exists x. split; [right; exact Hx | exact P].
      * intros (x & [Hx|Hx] & P); [subst x; lia|].
        apply IH. exists x. auto.
Qed.

(** ** What a match of the patterns consists of *)

Lemma many_sound : forall p k,
  (forall s m rest, k s = Some (m, rest) -> s = m ++ rest) ->
  forall s m rest, many p k s = Some (m, rest) -> s = m ++ rest.
Proof.
  intros p k Hk. induction s as [|c s IH]; intros m rest H; cbn [many] in H.
  - apply Hk. exact H.
  - destruct (p c); [|apply Hk; exact H].
    destruct (many p k s) as [[m' rest']|] eqn:E; [|apply Hk; exact H].
    inversion H; subst. cbn [app]. f_equal. apply IH. reflexivity.
Qed.

Lemma match_here_sound : forall r s m rest,
  match_here r s = Some (m, rest) -> s = m ++ rest.
Proof.
  induction r as [|[p|p] r IH]; intros s m rest H; cbn [match_here] in H.
  - inversion H. reflexivity.
  - destruct s as [|c s]; [discriminate H|].
    destruct (p c); [|discriminate H].
    destruct (match_here r s) as [[m' rest']|] eqn:E; [|discriminate H].
    inversion H; subst. cbn [app]. f_equal. apply IH. exact E.
  - exact (many_sound p (match_here r) IH s m rest H).
Qed.

Lemma search_sound : forall r s a m c,
  search r s = Some (a, m, c) ->
  s = a ++ m ++ c /\ match_here r (m ++ c) = Some (m, c).
Proof.
  intros r. induction s as [|x s IH]; intros a m c H; rewrite search_eq in H.
  - destruct (match_here r []) as [[m' rest]|] eqn:E; [|discriminate H].
    inversion H; subst. pose proof (match_here_sound _ _ _ _ E) as S.
    cbn [app]. rewrite <- S. auto.
  - destruct (match_here r (x :: s)) as [[m' rest]|] eqn:E.
    + inversion H; subst. pose proof (match_here_sound _ _ _ _ E) as S.
      cbn [app]. rewrite <- S. auto.
    + destruct (search r s) as [[[b m'] a']|] eqn:F; [|discriminate H].
      inversion H; subst. destruct (IH _ _ _ eq_refl) as (S & M).
      cbn [app]. rewrite <- S. auto.
Qed.

Lemma many_any_closing_sound : forall s m rest,
  many any closing s = Some (m, rest) -> exists b, m = b ++ [125].
Proof.
  induction s as [|c s IH]; intros m rest H.
  - discriminate H.
  - rewrite many_any_cons in H.
    destruct (many any closing s) as [[m' rest']|] eqn:E.
    + inversion H; subst. destruct (IH _ _ eq_refl) as (b & B).
      exists (c :: b). rewrite B. reflexivity.
    + rewrite closing_cons in H. destruct (N.eqb_spec 125 c); [|discriminate H].
      inversion H; subst. exists []. reflexivity.
Qed.

Lemma re_object_match_braced : forall s m rest,
  match_here re_object s = Some (m, rest) -> exists b, m = 123 :: b ++ [125].
Proof.
  intros s m rest H. destruct s as [|h s]; [discriminate H|].
  change (match_here re_object (h :: s))
    with (if N.eqb 123 h
          then match many any closing s with
               | Some (m, rest) => Some (h :: m, rest)
               | None => None
               end
          else None) in H.
  destruct (N.eqb_spec 123 h); [|discriminate H]. subst h.
  destruct (many any closing s) as [[m' rest']|] eqn:E; [|discriminate H].
  inversion H; subst. destruct (many_any_closing_sound _ _ _ E) as (b & B).
  exists b. rewrite B. reflexivity.
Qed.

(** The pattern finds something exactly in the texts that have an opening
    brace with a closing brace somewhere after it; what it finds is the
    span from the first opening brace to the last closing brace. *)
Lemma jsonMatch_some : forall s m,
  jsonMatch s = Some m ->
  exists a b c,
    s = a ++ 123 :: b ++ 125 :: c /\ m = 123 :: b ++ [125]
    /\ ~ In 123 a /\ ~ In 125 c.
Proof.
  intros s m H. unfold jsonMatch, String_match in H.
  destruct (search re_object s) as [[[a0 m0] c0]|] eqn:E; [|discriminate H].
  inversion H; subst m0; clear H.
  destruct (search_sound _ _ _ _ _ E) as (S & M).
  destruct (re_object_match_braced _ _ _ M) as (b0 & B). subst m.
  assert (S' : s = a0 ++ 123 :: b0 ++ 125 :: c0).
  { rewrite S. cbn [app]. rewrite <- app_assoc. reflexivity. }
  destruct (first_and_last_brace a0 b0 c0) as (a & b & c & D & Ha & Hc).
  rewrite <- S' in D. rewrite D in E.
  rewrite (search_re_object a b c Ha Hc) in E. inversion E; subst.
  exists a0, b, c0. auto.
Qed.

Lemma jsonMatch_none : forall s,
  jsonMatch s = None <-> forall x y z, s <> x ++ 123 :: y ++ 125 :: z.
Proof.
  intro s. split.
  - intros H x y z E.
    destruct (first_and_last_brace x y z) as (a & b & c & D & Ha & Hc).
    rewrite <- E in D. unfold jsonMatch, String_match in H.
    rewrite D, (search_re_object a b c Ha Hc) in H. discriminate H.
  - intro H. destruct (jsonMatch s) as [m|] eqn:E; [|reflexivity].
    destruct (jsonMatch_some s m E) as (a & b & c & S & _).
    exfalso. exact (H a b c S).
Qed.

(** ** Code fences, and what the clean-up leaves of them *)

Lemma contains_fence_eq : forall c s,
  contains_fence (c :: s) = starts_fence (c :: s) || contains_fence s.
Proof.
  intros c s. unfold contains_fence. rewrite search_eq.
  destruct (starts_fence (c :: s)) eqn:F.
  - destruct (match_here (lit (js "```")) (c :: s)) as [[m rest]|] eqn:E;
      [reflexivity|]. exfalso. exact (fence_found _ F E).
  - pose proof (fence_pattern_needs_fence [] (c :: s) F) as E.
    rewrite app_nil_r in E. rewrite E.
    destruct (search (lit (js "```")) s) as [[[b m] a]|]; reflexivity.
Qed.

Lemma contains_fence_iff : forall s,
  contains_fence s = true <-> exists a b, s = a ++ [96; 96; 96] ++ b.
Proof.
  intro s. split.
  - induction s as [|c s IH]; intro H; [discriminate H|].
    rewrite contains_fence_eq in H. apply orb_prop in H. destruct H as [H|H].
    + destruct s as [|x [|y s]]; try discriminate H.
      cbn [starts_fence] in H. apply andb_prop in H. destruct H as (H & Hy).
      apply andb_prop in H. destruct H as (Hc & Hx).
      apply N.eqb_eq in Hc, Hx, Hy. subst. exists [], s. reflexivity.
    + destruct (IH H) as (a & b & E). exists (c :: a), b. rewrite E. reflexivity.
  - intros (a & b & E). subst s. induction a as [|x a IH].
    + reflexivity.
    + cbn [app]. rewrite contains_fence_eq.
      cbn [app] in IH. rewrite IH. apply orb_true_r.
Qed.

Lemma contains_fence_rev : forall s, contains_fence (rev s) = contains_fence s.
Proof.
  assert (H : forall s, contains_fence s = true -> contains_fence (rev s) = true).
  { intros s H. apply contains_fence_iff in H. destruct H as (a & b & E).
    apply contains_fence_iff. exists (rev b), (rev a). subst s.
    rewrite !rev_app_distr. cbn [rev app]. rewrite <- !app_assoc. reflexivity. }
  intro s. destruct (contains_fence s) eqn:E.
  - apply H. exact E.
  - destruct (contains_fence (rev s)) eqn:F; [|reflexivity].
    apply H in F. rewrite rev_involutive in F. congruence.
Qed.

Lemma contains_fence_drop_space : forall s,
  contains_fence s = false -> contains_fence (drop_space s) = false.
Proof.
  induction s as [|c s IH]; intro H; [reflexivity|].
  cbn [drop_space]. destruct (is_space c); [|exact H].
  apply IH. apply (contains_fence_cons c s H).
Qed.

Lemma contains_fence_trim : forall s,
  contains_fence s = false -> contains_fence (String_trim s) = false.
Proof.
  intros s H. unfold String_trim. rewrite contains_fence_rev.
  apply contains_fence_drop_space. rewrite contains_fence_rev.
  apply contains_fence_drop_space. exact H.
Qed.

Lemma replace_from_skip : forall r k s,
  match_here r [] = None ->
  replace_from r [] k s = replace_from r [] 0 (skipn k s).
Proof.
  intros r k s E. revert s. induction k as [|k IH]; intro s; [reflexivity|].
  destruct s as [|c s]; cbn [replace_from skipn].
  - rewrite E. reflexivity.
  - apply IH.
Qed.

Lemma fence_match_nonempty : forall r s m rest,
  match_here (lit (js "```") ++ r) s = Some (m, rest) -> m <> [].
Proof.
  intros r s m rest H. change (js "```") with [96; 96; 96] in H.
  destruct s as [|a s]; [discriminate H|]. rewrite match_here_lit_cons in H.
  destruct (N.eqb 96 a); [|discriminate H].
  destruct (match_here (lit [96; 96] ++ r) s) as [[m' rest']|];
    [|discriminate H].
  inversion H. discriminate.
Qed.

Lemma replace_unfenced : forall r repl s,
  contains_fence s = false ->
  replace_from (lit (js "```") ++ r) repl 0 s = s.
Proof.
  intros r repl. induction s as [|c s IH]; intro H.
  - reflexivity.
  - destruct (contains_fence_cons c s H) as (F & H').
    rewrite replace_from_cons, (fence_pattern_needs_fence r _ F), (IH H').
    reflexivity.
Qed.

(** A text that does not start with a fence still does not after the
    fences further on have been taken out. *)
Lemma replace_keeps_start : forall r s,
  starts_fence s = false ->
  starts_fence (replace_from (lit (js "```") ++ r) [] 0 s) = false.
Proof.
  intros r s H.
  assert (K : forall c u,
            starts_fence (c :: u) = false ->
            replace_from (lit (js "```") ++ r) [] 0 (c :: u)
            = c :: replace_from (lit (js "```") ++ r) [] 0 u).
  { intros c u F. rewrite replace_from_cons, (fence_pattern_needs_fence r _ F).
    reflexivity. }
  assert (Z : forall c u, N.eqb 96 c = false -> starts_fence (c :: u) = false).
  { intros c u E. destruct u as [|x [|y u]]; try reflexivity.
    cbn [starts_fence]. rewrite E. reflexivity. }
  assert (Z2 : forall x y u,
             N.eqb 96 y = false -> starts_fence (x :: y :: u) = false).
  { intros x y u E. destruct u as [|z u]; [reflexivity|].
    cbn [starts_fence]. rewrite E, andb_false_r. reflexivity. }
  assert (Z3 : forall x y z u,
             N.eqb 96 z = false -> starts_fence (x :: y :: z :: u) = false).
  { intros x y z u E. cbn [starts_fence]. rewrite E. apply andb_false_r. }
  destruct s as [|a s]; [reflexivity|]. rewrite (K a s H).
  destruct (N.eqb 96 a) eqn:Ea; [|apply Z; exact Ea].
  destruct s as [|b s]; [reflexivity|].
  destruct (N.eqb 96 b) eqn:Eb.
  - destruct s as [|c s]; [rewrite (K b []) by reflexivity; reflexivity|].
    assert (Ec : N.eqb 96 c = false).
    { cbn [starts_fence] in H. rewrite Ea, Eb in H. exact H. }
    rewrite (K b (c :: s)) by (apply Z2; exact Ec).
    rewrite (K c s) by (apply Z; exact Ec).
    apply Z3. exact Ec.
  - rewrite (K b s) by (apply Z; exact Eb).
    apply Z2. exact Eb.
Qed.

Lemma replace_removes_fences : forall n s,
  (length s <= n)%nat ->
  contains_fence (replace_from re_fence [] 0 s) = false.
Proof.
  unfold re_fence.
  induction n as [|n IH]; intros s Hn.
  - destruct s; [reflexivity | cbn in Hn; lia].
  - destruct s as [|c s]; [reflexivity|].
    rewrite replace_from_cons.
    destruct (match_here (lit (js "```") ++ [Many is_space]) (c :: s))
      as [[m rest]|] eqn:E.
    + pose proof (fence_match_nonempty _ _ _ _ E) as Hm.
      destruct m as [|x m]; [contradiction|]. cbn [length app].
      rewrite replace_from_skip by reflexivity.
      apply IH. rewrite length_skipn. cbn [length] in Hn. lia.
    + rewrite contains_fence_eq.
      rewrite (IH s) by (cbn [length] in Hn; lia). rewrite orb_false_r.
      assert (F : starts_fence (c :: s) = false).
      { destruct (starts_fence (c :: s)) eqn:F; [|reflexivity]. exfalso.
        destruct s as [|x [|y s]]; try discriminate F.
        cbn [starts_fence] in F. apply andb_prop in F. destruct F as (F & Hy).
        apply andb_prop in F. destruct F as (Hc & Hx).
        change (js "```") with [96; 96; 96] in E.
        rewrite !match_here_lit_cons, Hc, Hx, Hy in E.
        cbn [lit map app match_here] in E.
        destruct (many is_space (fun s => Some ([], s)) s) as [[m' r']|] eqn:M;
          [discriminate E|].
        clear - M. induction s as [|z s IHs]; [discriminate M|].
        cbn [many] in M. destruct (is_space z); [|discriminate M].
        destruct (many is_space (fun s => Some ([], s)) s) as [[? ?]|];
          discriminate M. }
      pose proof (replace_keeps_start [Many is_space] (c :: s) F) as K.
      rewrite replace_from_cons, E in K. exact K.
Qed.

(** ** Trimmed texts *)

Lemma drop_space_head : forall s,
  match drop_space s with
  | [] => True
  | c :: _ => is_space c = false
  end.
Proof.
  induction s as [|c s IH]; [exact I|].
  cbn [drop_space]. destruct (is_space c) eqn:E; [exact IH | exact E].
Qed.

Lemma drop_space_snoc : forall s c,
  is_space c = false -> drop_space (s ++ [c]) = drop_space s ++ [c].
Proof.
  induction s as [|x s IH]; intros c H; cbn [app drop_space].
  - rewrite H. reflexivity.
  - destruct (is_space x); [apply IH; exact H | reflexivity].
Qed.

Lemma String_trim_shape : forall s,
  String_trim s = []
  \/ exists c u, String_trim s = c :: u /\ is_space c = false
                 /\ exists d v, rev (c :: u) = d :: v /\ is_space d = false.
Proof.
  intro s. unfold String_trim.
  pose proof (drop_space_head s) as H1.
  destruct (drop_space s) as [|c u]; [left; reflexivity|]. right.
  cbn [rev]. rewrite (drop_space_snoc _ _ H1). rewrite rev_app_distr.
  cbn [rev app]. exists c, (rev (drop_space (rev u))).
  split; [reflexivity|]. split; [exact H1|].
  pose proof (drop_space_head (rev u)) as H2.
  cbn [rev]. rewrite rev_involutive.
  destruct (drop_space (rev u)) as [|d v]; cbn [app].
  - exists c, []. auto.
  - exists d, (v ++ [c]). auto.
Qed.

Lemma String_trim_fixed : forall c u d v,
  is_space c = false -> rev (c :: u) = d :: v -> is_space d = false ->
  String_trim (c :: u) = c :: u.
Proof.
  intros c u d v Hc R Hd. unfold String_trim.
  rewrite (drop_space_keeps c u Hc). rewrite R.
  rewrite (drop_space_keeps d v Hd). rewrite <- R. apply rev_involutive.
Qed.

(** ** The clean-up step as a whole *)

Lemma clean_no_fence : forall response, contains_fence (clean response) = false.
Proof.
  intro response. unfold clean, String_replace_all.
  apply contains_fence_trim. eapply replace_removes_fences. apply Nat.le_refl.
Qed.

Lemma String_trim_is_trimmed : forall s, is_trimmed (String_trim s) = true.
Proof.
  intro s. destruct (String_trim_shape s) as [E|(c & u & E & Hc & d & v & R & Hd)];
    rewrite E; [reflexivity|].
  unfold is_trimmed. rewrite Hc. cbn [negb andb].
  assert (L : last (c :: u) c = d).
  { apply (f_equal (@rev N)) in R. rewrite rev_involutive in R.
    rewrite R. cbn [rev]. apply last_last. }
  rewrite L, Hd. reflexivity.
Qed.

Lemma trimmed_fixed : forall s, is_trimmed s = true -> String_trim s = s.
Proof.
  intros s H. destruct s as [|c u]; [reflexivity|].
  unfold is_trimmed in H. apply andb_prop in H. destruct H as (Hc & Hd).
  apply negb_true_iff in Hc, Hd.
  destruct (rev (c :: u)) as [|d v] eqn:R.
  - apply (f_equal (@length N)) in R. rewrite length_rev in R. discriminate R.
  - apply (String_trim_fixed c u d v Hc R).
    assert (L : last (c :: u) c = d).
    { apply (f_equal (@rev N)) in R. rewrite rev_involutive in R.
      rewrite R. cbn [rev]. apply last_last. }
    rewrite <- L. exact Hd.
Qed.

Lemma clean_clean : forall response, clean (clean response) = clean response.
Proof.
  intro response.
  pose proof (clean_no_fence response) as F.
  assert (T : is_trimmed (clean response) = true).
  { unfold clean. apply String_trim_is_trimmed. }
  unfold clean at 1. unfold String_replace_all, re_fence, re_fence_json.
  change (lit (js "```json") ++ [Many is_space])
    with (lit (js "```") ++ lit (js "json") ++ [Many is_space]).
  rewrite (replace_unfenced _ _ _ F). rewrite (replace_unfenced _ _ _ F).
  apply trimmed_fixed. exact T.
Qed.

(** ** What [JSON.parse] returns is well formed *)

(** *** Numbers *)

Lemma drop_zeros_head : forall ds,
  match drop_zeros ds with
  | [] => True
  | d :: _ => d <> 0
  end.
Proof.
  induction ds as [|d ds IH]; [exact I|].
  cbn [drop_zeros]. destruct (N.eqb_spec d 0); [exact IH | assumption].
Qed.

Lemma drop_zeros_small : forall ds,
  forallb (fun x => N.ltb x 10) ds = true ->
  forallb (fun x => N.ltb x 10) (drop_zeros ds) = true.
Proof.
  induction ds as [|d ds IH]; intro H; [reflexivity|].
  cbn [drop_zeros]. destruct (N.eqb d 0); [|exact H].
  cbn [forallb] in H. apply andb_prop in H. apply IH. apply H.
Qed.

Lemma drop_zeros_snoc : forall ds d,
  d <> 0 -> drop_zeros (ds ++ [d]) = drop_zeros ds ++ [d].
Proof.
  induction ds as [|x ds IH]; intros d H; cbn [app drop_zeros].
  - destruct (N.eqb_spec d 0); [contradiction | reflexivity].
  - destruct (N.eqb x 0); [apply IH; exact H | reflexivity].
Qed.

Lemma forallb_rev : forall (A : Type) (f : A -> bool) l,
  forallb f (rev l) = forallb f l.
Proof.
  intros A f. induction l as [|x l IH]; [reflexivity|].
  cbn [rev forallb]. rewrite forallb_app, IH. cbn [forallb].
  rewrite andb_true_r. apply andb_comm.
Qed.

Lemma normalize_number_canonical : forall sg ds pt,
  forallb (fun x => N.ltb x 10) ds = true ->
  canonical (normalize_number sg ds pt) = true.
Proof.
  intros sg ds pt H. unfold normalize_number.
  pose proof (drop_zeros_small ds H) as H1.
  pose proof (drop_zeros_head ds) as Hd.
  destruct (drop_zeros ds) as [|d l]; [reflexivity|].
  cbn [rev]. rewrite (drop_zeros_snoc _ _ Hd), rev_app_distr. cbn [rev app].
  unfold canonical. cbn [digits].
  assert (S : forallb (fun x => N.ltb x 10)
                      (d :: rev (drop_zeros (rev l))) = true).
  { cbn [forallb] in *. apply andb_prop in H1. destruct H1 as (A & B).
    rewrite A. cbn [andb]. rewrite forallb_rev. apply drop_zeros_small.
    rewrite forallb_rev. exact B. }
  rewrite S. cbn [andb].
  replace (N.eqb d 0) with false by (symmetry; apply N.eqb_neq; exact Hd).
  cbn [negb andb]. apply negb_true_iff. apply N.eqb_neq.
  pose proof (drop_zeros_head (rev l)) as Hl.
  destruct (drop_zeros (rev l)) as [|x r]; [exact Hd|].
  cbn [rev].
  change (d :: rev r ++ [x]) with ((d :: rev r) ++ [x]).
  rewrite last_last. exact Hl.
Qed.

Lemma span_class : forall p s a b,
  span p s = (a, b) -> forallb p a = true.
Proof.
  intros p. induction s as [|c s IH]; intros a b H; cbn [span] in H.
  - inversion H. reflexivity.
  - destruct (p c) eqn:E.
    + destruct (span p s) as [a' b'] eqn:S. inversion H; subst.
      cbn [forallb]. rewrite E. exact (IH _ _ eq_refl).
    + inversion H. reflexivity.
Qed.

Lemma digit_vals_small : forall l,
  forallb is_digit l = true ->
  forallb (fun x => N.ltb x 10) (map digit_val l) = true.
Proof.
  induction l as [|c l IH]; intro H; [reflexivity|].
  cbn [forallb map] in *. apply andb_prop in H. destruct H as (Hc & Hl).
  rewrite (IH Hl), andb_true_r. unfold is_digit in Hc.
  apply andb_prop in Hc. destruct Hc as (A & B).
  apply N.leb_le in A, B. apply N.ltb_lt. unfold digit_val. lia.
Qed.

Lemma unsigned_literal_canonical : forall sg r n,
  unsigned_literal sg r = Some n -> canonical n = true.
Proof.
  intros sg r n H. unfold unsigned_literal in H.
  destruct (span is_digit r) as [ip r1] eqn:S1.
  destruct (int_part_ok ip); [|discriminate H].
  destruct (fraction_part r1) as [[fp r2]|] eqn:F; [|discriminate H].
  destruct (exponent_part r2) as [[x [|? ?]]|]; try discriminate H.
  inversion H; subst n. apply normalize_number_canonical.
  apply digit_vals_small. rewrite forallb_app.
  rewrite (span_class _ _ _ _ S1). cbn [andb].
  unfold fraction_part in F. destruct r1 as [|c r1']; [inversion F; reflexivity|].
  destruct (N.eqb c 46); [|inversion F; reflexivity].
  destruct (span is_digit r1') as [fp' r2'] eqn:S2.
  destruct fp' as [|f fp']; [discriminate F|]. inversion F; subst.
  exact (span_class _ _ _ _ S2).
Qed.

Lemma number_of_literal_canonical : forall l n,
  number_of_literal l = Some n -> canonical n = true.
Proof.
  intros l n H. unfold number_of_literal in H.
  destruct l as [|c r]; [discriminate H|].
  destruct (N.eqb c 45); exact (unsigned_literal_canonical _ _ _ H).
Qed.

(** *** The lexer *)

Lemma lex_default_extends : forall toks c st' toks',
  lex_default toks c = Some (st', toks') ->
  toks' = toks \/ exists t, toks' = t :: toks /\ token_ok t = true.
Proof.
  intros toks c st' toks' H. unfold lex_default in H.
  repeat match type of H with
         | (if ?b then _ else _) = _ =>
             destruct b; [inversion H; subst; auto; right; eexists; split;
                          reflexivity|]
         end.
  discriminate H.
Qed.

Lemma lex_step_extends : forall st toks c st' toks',
  lex_step st toks c = Some (st', toks') ->
  exists extra, toks' = extra ++ toks /\ forallb token_ok extra = true.
Proof.
  intros st toks c st' toks' H. destruct st; cbn [lex_step] in H.
  - destruct (lex_default_extends _ _ _ _ H) as [E|(t & E & T)]; subst.
    + exists []. auto.
    + exists [t]. cbn [forallb]. rewrite T. auto.
  - destruct (N.eqb c 34); [inversion H; exists [TString acc]; auto|].
    destruct (N.eqb c 92); [inversion H; exists []; auto|].
    destruct (N.ltb c 32); [discriminate H|]. inversion H. exists []. auto.
  - repeat match type of H with
           | (if ?b then _ else _) = _ =>
               destruct b; [inversion H; exists []; auto|]
           end.
    discriminate H.
  - destruct (hex_val c); [|discriminate H].
    destruct count as [|[|[|[|?]]]]; inversion H; exists []; auto.
  - destruct (is_number_char c); [inversion H; exists []; auto|].
    destruct (number_of_literal l) as [n|] eqn:N; [|discriminate H].
    apply number_of_literal_canonical in N.
    destruct (lex_default_extends _ _ _ _ H) as [E|(t & E & T)]; subst.
    + exists [TNumber n]. cbn [forallb token_ok]. rewrite N. auto.
    + exists [t; TNumber n]. cbn [forallb token_ok]. rewrite T, N. auto.
  - destruct (is_lower c); [inversion H; exists []; auto|].
    destruct (word_token w) as [t0|] eqn:W; [|discriminate H].
    assert (T0 : token_ok t0 = true).
    { unfold word_token in W.
      repeat match type of W with
             | (if ?b then _ else _) = _ =>
                 destruct b; [inversion W; reflexivity|]
             end.
      discriminate W. }
    destruct (lex_default_extends _ _ _ _ H) as [E|(t & E & T)]; subst.
    + exists [t0]. cbn [forallb]. rewrite T0. auto.
    + exists [t; t0]. cbn [forallb]. rewrite T, T0. auto.
Qed.

Lemma lex_end_extends : forall st toks ts,
  lex_end st toks = Some ts ->
  exists extra, ts = rev (extra ++ toks) /\ forallb token_ok extra = true.
Proof.
  intros st toks ts H. destruct st; cbn [lex_end] in H; try discriminate H.
  - inversion H. exists []. auto.
  - destruct (number_of_literal l) as [n|] eqn:N; [|discriminate H].
    apply number_of_literal_canonical in N. inversion H.
    exists [TNumber n]. cbn [forallb token_ok]. rewrite N. auto.
  - destruct (word_token w) as [t0|] eqn:W; [|discriminate H].
    inversion H. exists [t0]. split; [reflexivity|].
    unfold word_token in W.
    repeat match type of W with
           | (if ?b then _ else _) = _ =>
               destruct b; [inversion W; reflexivity|]
           end.
    discriminate W.
Qed.

(** The tokens only grow, and every number among the new ones is in
    canonical form. *)
Lemma lex_run_extends : forall s st toks ts,
  lex_run st toks s = Some ts ->
  exists more, ts = rev toks ++ more /\ forallb token_ok more = true.
Proof.
  induction s as [|c s IH]; intros st toks ts H; cbn [lex_run] in H.
  - destruct (lex_end_extends _ _ _ H) as (extra & E & T). subst ts.
    exists (rev extra). rewrite rev_app_distr, forallb_rev. auto.
  - destruct (lex_step st toks c) as [[st' toks']|] eqn:S; [|discriminate H].
    destruct (lex_step_extends _ _ _ _ _ S) as (extra & E & T). subst toks'.
    destruct (IH _ _ _ H) as (more & E & M). subst ts.
    exists (rev extra ++ more). rewrite rev_app_distr, <- app_assoc.
    split; [reflexivity|]. rewrite forallb_app, forallb_rev, T, M. reflexivity.
Qed.

Lemma lex_tokens_ok : forall s ts,
  lex s = Some ts -> forallb token_ok ts = true.
Proof.
  intros s ts H. destruct (lex_run_extends _ _ _ _ H) as (more & E & M).
  subst ts. exact M.
Qed.

(** *** Property order *)

Lemma fits_eq : forall acc k,
  fits acc k
  = negb (has_key k acc)
    && match array_index k with
       | None => true
       | Some i => forallb (smaller_index i) acc
       end.
Proof. reflexivity. Qed.

Lemma eqb_sym : forall a b, JS.eqb a b = JS.eqb b a.
Proof.
  intros a b. destruct (JS.eqb a b) eqn:E.
  - apply eqb_eq in E. subst. symmetry. apply eqb_refl.
  - destruct (JS.eqb b a) eqn:F; [|reflexivity].
    apply eqb_eq in F. subst. rewrite eqb_refl in E. discriminate E.
Qed.

Lemma has_key_app : forall k a b,
  has_key k (a ++ b) = has_key k a || has_key k b.
Proof.
  intros k. induction a as [|[k' v] a IH]; intro b; [reflexivity|].
  cbn [app has_key]. rewrite IH. apply orb_assoc.
Qed.

Lemma array_index_text : forall k i, array_index k = Some i -> k = N_text i.
Proof.
  intros k i H. unfold array_index in H.
  destruct (forallb is_digit k); [|discriminate H].
  destruct (JS.eqb k (N_text (N_of_digits (map digit_val k)))) eqn:E;
    [|discriminate H].
  destruct (N.ltb _ 4294967295); [|discriminate H].
  cbn [andb] in H. inversion H; subst. apply eqb_eq. exact E.
Qed.

Lemma has_key_same_keys : forall k a b,
  map fst a = map fst b -> has_key k a = has_key k b.
Proof.
  intros k. induction a as [|[ka va] a IH]; intros [|[kb vb] b] H;
    try discriminate H; [reflexivity|].
  cbn [map fst] in H. inversion H; subst. cbn [has_key].
  rewrite (IH b) by assumption. reflexivity.
Qed.

Lemma smaller_same_keys : forall i (a b : object),
  map fst a = map fst b ->
  forallb (smaller_index i) a = forallb (smaller_index i) b.
Proof.
  intros i. induction a as [|[ka va] a IH]; intros [|[kb vb] b] H;
    try discriminate H; [reflexivity|].
  cbn [map fst] in H. inversion H; subst. cbn [forallb].
  rewrite (IH b) by assumption. reflexivity.
Qed.

Lemma ordered_from_same_keys : forall rest a b,
  map fst a = map fst b -> ordered_from a rest = ordered_from b rest.
Proof.
  induction rest as [|[k v] rest IH]; intros a b H; [reflexivity|].
  cbn [ordered_from]. rewrite !fits_eq.
  rewrite (has_key_same_keys k a b H).
  rewrite (IH (a ++ [(k, v)]) (b ++ [(k, v)]))
    by (rewrite !map_app, H; reflexivity).
  destruct (array_index k) as [i|]; [|reflexivity].
  rewrite (smaller_same_keys i a b H). reflexivity.
Qed.

Lemma ordered_from_replace : forall k v rest a,
  ordered_from a (replace_value k v rest) = ordered_from a rest.
Proof.
  intros k v. induction rest as [|[k' v'] rest IH]; intro a; [reflexivity|].
  cbn [replace_value]. destruct (JS.eqb k k'); cbn [ordered_from].
  - f_equal. apply ordered_from_same_keys. rewrite !map_app. reflexivity.
  - rewrite IH. reflexivity.
Qed.

Lemma ordered_from_snoc : forall rest a x,
  ordered_from a (rest ++ [x])
  = ordered_from a rest && fits (a ++ rest) (fst x).
Proof.
  induction rest as [|[k v] rest IH]; intros a [kx vx].
  - cbn [app ordered_from fst]. rewrite app_nil_r, andb_true_r. reflexivity.
  - cbn [app ordered_from]. rewrite IH. rewrite <- app_assoc. cbn [app].
    rewrite andb_assoc. reflexivity.
Qed.

(** A new index key may be put into the properties seen so far, as long
    as a property that comes after it keeps every later index above it. *)
Lemma ordered_from_wider : forall k v i rest p q,
  array_index k = Some i ->
  has_key k rest = false ->
  (exists kv, In kv q
              /\ forall m, smaller_index m kv = true -> N.ltb i m = true) ->
  ordered_from (p ++ q) rest = true ->
  ordered_from (p ++ (k, v) :: q) rest = true.
Proof.
  intros k v i. induction rest as [|[k' v'] rest IH]; intros p q Hi Hk Hq H;
    [reflexivity|].
  cbn [ordered_from] in *. apply andb_prop in H. destruct H as (F & O).
  cbn [has_key] in Hk. apply orb_false_elim in Hk. destruct Hk as (Hkk & Hk).
  apply andb_true_intro. split.
  - rewrite fits_eq in *. apply andb_prop in F. destruct F as (F1 & F2).
    rewrite has_key_app in *. cbn [has_key].
    rewrite (eqb_sym k' k), Hkk. cbn [orb].
    rewrite F1. cbn [andb].
    destruct (array_index k') as [m|]; [|reflexivity].
    rewrite forallb_app in *. cbn [forallb].
    apply andb_prop in F2. destruct F2 as (A & B). rewrite A, B.
    cbn [andb]. rewrite andb_true_r.
    destruct Hq as (kv & Hin & Hkv).
    unfold smaller_index at 1. cbn [fst]. rewrite Hi.
    apply Hkv. rewrite forallb_forall in B. apply B. exact Hin.
  - rewrite <- app_assoc. cbn [app].
    apply IH; try assumption.
    + destruct Hq as (kv & Hin & Hkv). exists kv. split; [|exact Hkv].
      apply in_or_app. left. exact Hin.
    + rewrite app_assoc. exact O.
Qed.

Lemma ordered_from_insert : forall k v i rest a,
  array_index k = Some i ->
  has_key k (a ++ rest) = false ->
  forallb (smaller_index i) a = true ->
  ordered_from a rest = true ->
  ordered_from a (insert_index i k v rest) = true.
Proof.
  intros k v i. induction rest as [|[k' v'] rest IH]; intros a Hi Hk Ha H.
  - cbn [insert_index ordered_from]. rewrite fits_eq, Hi, Ha.
    rewrite app_nil_r in Hk. rewrite Hk. reflexivity.
  - rewrite has_key_app in Hk. apply orb_false_elim in Hk.
    destruct Hk as (Hka & Hkr). pose proof Hkr as Hkr'.
    cbn [has_key] in Hkr. apply orb_false_elim in Hkr.
    destruct Hkr as (Hkk & Hkrest).
    cbn [ordered_from] in H. apply andb_prop in H. destruct H as (F & O).
    assert (Fk : fits a k = true).
    { rewrite fits_eq, Hka, Hi, Ha. reflexivity. }
    assert (W : match array_index k' with
                | Some j => N.ltb i j = true
                | None => True
                end ->
                ordered_from a ((k, v) :: (k', v') :: rest) = true).
    { intro C.
      assert (B : forall m, smaller_index m (k', v') = true -> N.ltb i m = true).
      { intros m Hm. unfold smaller_index in Hm. cbn [fst] in Hm.
        destruct (array_index k') as [j|]; [|discriminate Hm].
        apply N.ltb_lt in Hm, C. apply N.ltb_lt. lia. }
      cbn [ordered_from]. rewrite Fk. cbn [andb].
      apply andb_true_intro. split.
      - rewrite fits_eq in *. apply andb_prop in F. destruct F as (F1 & F2).
        rewrite has_key_app. cbn [has_key]. rewrite (eqb_sym k' k), Hkk.
        rewrite orb_false_r. rewrite F1. cbn [andb].
        destruct (array_index k') as [j|] eqn:Hj; [|reflexivity].
        rewrite forallb_app, F2. cbn [forallb andb].
        rewrite andb_true_r. unfold smaller_index. cbn [fst]. rewrite Hi.
        exact C.
      - rewrite <- app_assoc. cbn [app].
        apply (ordered_from_wider k v i rest a [(k', v')]); try assumption.
        exists (k', v'). split; [left; reflexivity | exact B]. }
    cbn [insert_index].
    destruct (array_index k') as [j|] eqn:Hj.
    + destruct (N.ltb_spec j i) as [L|L].
      * cbn [ordered_from]. rewrite F. cbn [andb].
        apply IH; try assumption.
        -- rewrite <- app_assoc. cbn [app]. rewrite has_key_app, Hka, Hkr'.
           reflexivity.
        -- rewrite forallb_app, Ha. cbn [forallb andb]. unfold smaller_index.
           cbn [fst]. rewrite Hj. rewrite andb_true_r. apply N.ltb_lt. exact L.
      * apply W. apply N.ltb_lt.
        assert (i <> j).
        { intro E. subst j. apply array_index_text in Hi, Hj. subst k k'.
          rewrite eqb_refl in Hkk. discriminate Hkk. }
        lia.
    + apply W. exact I.
Qed.

Lemma forallb_replace : forall (f : value -> bool) k v o,
  f v = true ->
  forallb (fun kv => f (snd kv)) o = true ->
  forallb (fun kv => f (snd kv)) (replace_value k v o) = true.
Proof.
  intros f k v. induction o as [|[k' v'] o IH]; intros Hv H; [reflexivity|].
  cbn [replace_value]. cbn [forallb snd] in H. apply andb_prop in H.
  destruct H as (A & B).
  destruct (JS.eqb k k'); cbn [forallb snd].
  - rewrite Hv, B. reflexivity.
  - rewrite A, (IH Hv B). reflexivity.
Qed.

Lemma forallb_insert : forall (f : value -> bool) i k v o,
  f v = true ->
  forallb (fun kv => f (snd kv)) o = true ->
  forallb (fun kv => f (snd kv)) (insert_index i k v o) = true.
Proof.
  intros f i k v. induction o as [|[k' v'] o IH]; intros Hv H.
  - cbn [insert_index forallb snd]. rewrite Hv. reflexivity.
  - pose proof H as H0. cbn [forallb snd] in H. apply andb_prop in H.
    destruct H as (A & B). cbn [insert_index].
    destruct (array_index k') as [j|];
      [destruct (N.ltb j i)|]; cbn [forallb snd].
    + rewrite A, (IH Hv B). reflexivity.
    + rewrite Hv. exact H0.
    + rewrite Hv. exact H0.
Qed.

(** Assigning a property keeps an object well formed. *)
Lemma set_wf : forall k v o,
  wf (JObj o) = true -> wf v = true -> wf (JObj (set k v o)) = true.
Proof.
  intros k v o H Hv. cbn [wf] in *. apply andb_prop in H. destruct H as (O & W).
  unfold set. destruct (has_key k o) eqn:K.
  - rewrite ordered_from_replace, O. cbn [andb].
    apply (forallb_replace wf); assumption.
  - destruct (array_index k) as [i|] eqn:I.
    + rewrite (ordered_from_insert k v i o []); try assumption; try reflexivity.
      cbn [andb]. apply (forallb_insert wf); assumption.
    + rewrite ordered_from_snoc, O. cbn [app fst andb].
      rewrite fits_eq, K, I. cbn [negb andb].
      rewrite forallb_app, W. cbn [forallb snd]. rewrite Hv. reflexivity.
Qed.

(** *** The parser *)

Lemma plug_ok : forall v stk,
  wf v = true -> forallb context_ok stk = true -> state_ok (plug v stk) = true.
Proof.
  intros v stk Hv H. destruct stk as [|[acc|acc k] stk]; cbn [plug state_ok].
  - exact Hv.
  - cbn [forallb context_ok] in H. apply andb_prop in H. destruct H as (A & B).
    rewrite B, andb_true_r. cbn [wf] in *. rewrite forallb_app, A.
    cbn [forallb]. rewrite Hv. reflexivity.
  - cbn [forallb context_ok] in H. apply andb_prop in H. destruct H as (A & B).
    rewrite B, andb_true_r. apply set_wf; assumption.
Qed.

Lemma parse_value_ok : forall stk t st',
  forallb context_ok stk = true -> token_ok t = true ->
  parse_value stk t = Some st' -> state_ok st' = true.
Proof.
  intros stk t st' H T P. destruct t; cbn [parse_value] in P;
    try discriminate P; inversion P; subst; try (apply plug_ok; auto; fail);
    exact H.
Qed.

Lemma parse_step_ok : forall st t st',
  state_ok st = true -> token_ok t = true ->
  parse_step st t = Some st' -> state_ok st' = true.
Proof.
  intros st t st' H T P. destruct st; cbn [parse_step state_ok] in *.
  - exact (parse_value_ok _ _ _ H T P).
  - destruct t; try (apply (parse_value_ok (CArr [] :: stk) _ _) in P;
                     [exact P | cbn [forallb context_ok wf]; exact H | exact T]).
    inversion P. apply plug_ok; [reflexivity | exact H].
  - destruct t; try discriminate P; inversion P; subst.
    + apply plug_ok; [reflexivity | exact H].
    + cbn [state_ok]. exact H.
  - destruct t; try discriminate P; inversion P; subst. exact H.
  - destruct t; try discriminate P; inversion P; subst.
    cbn [state_ok forallb context_ok]. exact H.
  - apply andb_prop in H. destruct H as (A & B).
    destruct t; try discriminate P; inversion P; subst.
    + apply plug_ok; assumption.
    + cbn [state_ok forallb context_ok]. rewrite A, B. reflexivity.
  - apply andb_prop in H. destruct H as (A & B).
    destruct t; try discriminate P; inversion P; subst.
    + apply plug_ok; assumption.
    + cbn [state_ok]. rewrite A, B. reflexivity.
  - discriminate P.
Qed.

Lemma parse_run_ok : forall ts st v,
  state_ok st = true -> forallb token_ok ts = true ->
  parse_run st ts = Some v -> wf v = true.
Proof.
  induction ts as [|t ts IH]; intros st v H T P; cbn [parse_run] in P.
  - destruct st; try discriminate P. inversion P; subst. exact H.
  - destruct (parse_step st t) as [st'|] eqn:S; [|discriminate P].
    cbn [forallb] in T. apply andb_prop in T. destruct T as (T1 & T2).
    exact (IH st' v (parse_step_ok _ _ _ H T1 S) T2 P).
Qed.

(** Every value [JSON.parse] returns is well formed, so that writing it
    with [JSON.stringify] and reading the text again gives it back. *)
Lemma JSON_parse_wf : forall text v,
  JSON_parse text = Some v -> wf v = true.
Proof.
  intros text v H. unfold JSON_parse in H.
  destruct (lex text) as [ts|] eqn:L; [|discriminate H].
  exact (parse_run_ok ts (PValue []) v eq_refl (lex_tokens_ok _ _ L) H).
Qed.

Lemma JSON_parse_again : forall text v,
  JSON_parse text = Some v -> JSON_parse (JSON_stringify v) = Some v.
Proof.
  intros text v H. apply parse_stringify. exact (JSON_parse_wf _ _ H).
Qed.

(** *** The outermost container decides what is returned *)

Lemma outermost_push : forall obj c stk,
  outermost obj (c :: stk) = outermost_with obj (is_object_context c) stk.
Proof. intros obj c [|c' stk]; reflexivity. Qed.

Lemma plug_rooted : forall obj v stk,
  outermost obj stk = true -> rooted obj (plug v stk) = true.
Proof.
  intros obj v [|[acc|acc k] stk] H; [discriminate H| |];
    rewrite outermost_push in H; exact H.
Qed.

Lemma plug_container_rooted : forall obj v stk,
  outermost_with obj (value_is true v) stk = true ->
  value_is true v || value_is false v = true ->
  rooted obj (plug v stk) = true.
Proof.
  intros obj v stk H K. destruct stk as [|c stk].
  - cbn [plug rooted]. cbn [outermost_with] in H.
    destruct v; try discriminate K; destruct obj; try discriminate H;
      reflexivity.
  - apply plug_rooted. exact H.
Qed.

Lemma parse_value_rooted : forall obj stk t st',
  outermost obj stk = true ->
  parse_value stk t = Some st' -> rooted obj st' = true.
Proof.
  intros obj stk t st' H P.
  assert (W : forall own, outermost_with obj own stk = true).
  { intro own. destruct stk; [discriminate H | exact H]. }
  destruct t; cbn [parse_value] in P; try discriminate P; inversion P; subst;
    try (apply plug_rooted; exact H); cbn [rooted]; apply W.
Qed.

Lemma parse_step_rooted : forall obj st t st',
  rooted obj st = true -> parse_step st t = Some st' -> rooted obj st' = true.
Proof.
  intros obj st t st' H P. destruct st; cbn [parse_step rooted] in *.
  - exact (parse_value_rooted _ _ _ _ H P).
  - destruct t;
      try (apply (parse_value_rooted obj (CArr [] :: stk)) in P;
           [exact P | rewrite outermost_push; exact H]).
    inversion P. apply plug_container_rooted; [exact H | reflexivity].
  - destruct t; try discriminate P; inversion P; subst.
    + apply plug_container_rooted; [exact H | reflexivity].
    + exact H.
  - destruct t; try discriminate P; inversion P; subst. exact H.
  - destruct t; try discriminate P; inversion P; subst.
    cbn [rooted]. rewrite outermost_push. exact H.
  - destruct t; try discriminate P; inversion P; subst.
    + apply plug_container_rooted; [exact H | reflexivity].
    + cbn [rooted]. rewrite outermost_push. exact H.
  - destruct t; try discriminate P; inversion P; subst.
    + apply plug_container_rooted; [exact H | reflexivity].
    + exact H.
  - discriminate P.
Qed.

Lemma parse_run_rooted : forall obj ts st v,
  rooted obj st = true -> parse_run st ts = Some v -> value_is obj v = true.
Proof.
  intros obj. induction ts as [|t ts IH]; intros st v H P; cbn [parse_run] in P.
  - destruct st; try discriminate P. inversion P; subst. exact H.
  - destruct (parse_step st t) as [st'|] eqn:S; [|discriminate P].
    exact (IH st' v (parse_step_rooted _ _ _ _ H S) P).
Qed.

(** A text that starts with an opening brace is read as an object, or
    not at all. *)
Lemma JSON_parse_braced : forall s v,
  JSON_parse (123 :: s) = Some v -> exists o, v = JObj o.
Proof.
  intros s v H. unfold JSON_parse, lex in H.
  change (lex_run LDefault [] (123 :: s)) with (lex_run LDefault [TLBrace] s) in H.
  destruct (lex_run LDefault [TLBrace] s) as [ts|] eqn:L; [|discriminate H].
  destruct (lex_run_extends _ _ _ _ L) as (more & E & _). subst ts.
  cbn [rev app parse_run parse_step parse_value] in H.
  apply (parse_run_rooted true) in H; [|reflexivity].
  destruct v; try discriminate H. eexists. reflexivity.
Qed.

(** ** The normalisation step, whatever the reply *)

Lemma restamp_wf : forall d t o,
  wf (JObj o) = true -> wf (JObj (restamp d t o)) = true.
Proof.
  intros d t o H. unfold restamp, fix_field.
  destruct (truthy (get (js "date") o));
    [apply (set_wf (js "date") (JStr d)) in H; [|reflexivity]|];
    destruct (truthy (get (js "analyzed_at") _)); try exact H;
    apply set_wf; try exact H; reflexivity.
Qed.

(** The step has two outcomes: nothing was read and the reply is kept, or
    an object was read out of the span between the braces, and corrected. *)
Lemma normalize_cases : forall response d t,
  (parse_fails response = true /\ normalize response d t = (JNull, response))
  \/ exists m o,
       jsonMatch (clean response) = Some m /\ JSON_parse m = Some (JObj o)
       /\ normalize response d t
          = (JObj (restamp d t o), JSON_stringify (JObj (restamp d t o))).
Proof.
  intros response d t. destruct (parse_fails response) eqn:F.
  - left. split; [reflexivity|]. apply normalize_parse_fails. exact F.
  - right. unfold parse_fails in F. unfold normalize.
    destruct (jsonMatch (clean response)) as [m|] eqn:M; [|discriminate F].
    destruct (JSON_parse m) as [v|] eqn:P; [|discriminate F].
    destruct (jsonMatch_some _ _ M) as (a & b & c & _ & Em & _).
    rewrite Em in P. destruct (JSON_parse_braced _ _ P) as (o & Ev). subst v.
    exists m, o. rewrite Em. auto.
Qed.

Lemma restamp_twice : forall d t o,
  restamp d t (restamp d t o) = restamp d t o.
Proof.
  intros d t o.
  destruct (restamp_fields d t (restamp d t o)) as (_ & _ & _ & _).
  unfold restamp at 1.
  destruct (restamp_fields d t o) as (A & B & _ & _).
  assert (F1 : fix_field (js "date") d (restamp d t o) = restamp d t o).
  { unfold fix_field. rewrite A.
    destruct (truthy (get (js "date") o)) eqn:T.
    - destruct (truthy (Some (JStr d))); [|reflexivity].
      unfold set. rewrite (get_has_key _ _ _ A).
      clear - A. induction (restamp d t o) as [|[k v] l IH]; [reflexivity|].
      cbn [get] in A. cbn [replace_value].
      destruct (JS.eqb (js "date") k) eqn:E.
      + inversion A; subst. reflexivity.
      + rewrite (IH A). reflexivity.
    - rewrite T. reflexivity. }
  rewrite F1. unfold fix_field. rewrite B.
  destruct (truthy (get (js "analyzed_at") o)) eqn:T.
  - destruct (truthy (Some (JStr t))); [|reflexivity].
    unfold set. rewrite (get_has_key _ _ _ B).
    clear - B. induction (restamp d t o) as [|[k v] l IH]; [reflexivity|].
    cbn [get] in B. cbn [replace_value].
    destruct (JS.eqb (js "analyzed_at") k) eqn:E.
    + inversion B; subst. reflexivity.
    + rewrite (IH B). reflexivity.
  - rewrite T. reflexivity.
Qed.

Lemma normalize_shape : forall response d t,
  (parse_fails response = true /\ normalize response d t = (JNull, response))
  \/ (parse_fails response = false
      /\ exists o,
           normalize response d t = (JObj o, JSON_stringify (JObj o))
           /\ wf (JObj o) = true).
Proof.
  intros response d t.
  destruct (normalize_cases response d t) as [(F & N)|(m & o & M & P & N)].
  - left. auto.
  - right. split.
    + unfold parse_fails. rewrite M, P. reflexivity.
    + exists (restamp d t o). split; [exact N|].
      apply restamp_wf. exact (JSON_parse_wf _ _ P).
Qed.

(** ** The text of an object starts and ends with a brace *)

Lemma word_token_scalar : forall w t, word_token w = Some t -> scalar_token t = true.
Proof.
  intros w t W. unfold word_token in W.
  repeat match type of W with
         | (if ?b then _ else _) = _ => destruct b; [inversion W; reflexivity|]
         end.
  discriminate W.
Qed.

(** Inside a string, a number or a word, the next token to come out is
    that string, number or word. *)
Lemma lex_run_pending : forall s st toks ts,
  st <> LDefault ->
  lex_run st toks s = Some ts ->
  exists t more, ts = rev toks ++ t :: more /\ scalar_token t = true.
Proof.
  assert (D : forall s t toks ts,
            lex_run LDefault (t :: toks) s = Some ts ->
            exists more, ts = rev toks ++ t :: more).
  { intros s t toks ts H. destruct (lex_run_extends _ _ _ _ H) as (more & E & _).
    exists more. rewrite E. cbn [rev]. rewrite <- app_assoc. reflexivity. }
  assert (F : forall s t toks c st' toks' ts,
            lex_default (t :: toks) c = Some (st', toks') ->
            lex_run st' toks' s = Some ts ->
            exists more, ts = rev toks ++ t :: more).
  { intros s t toks c st' toks' ts H R.
    destruct (lex_run_extends _ _ _ _ R) as (more & E & _).
    destruct (lex_default_extends _ _ _ _ H) as [E'|(t' & E' & _)]; subst.
    - exists more. cbn [rev]. rewrite <- app_assoc. reflexivity.
    - exists (t' :: more). cbn [rev]. rewrite <- !app_assoc. reflexivity. }
  induction s as [|c s IH]; intros st toks ts N H.
  - cbn [lex_run] in H. destruct st; cbn [lex_end] in H; try discriminate H;
      try contradiction.
    + destruct (number_of_literal l) as [n|]; [|discriminate H].
      inversion H. exists (TNumber n), []. auto.
    + destruct (word_token w) as [t|] eqn:W; [|discriminate H].
      inversion H. exists t, []. split; [reflexivity|].
      exact (word_token_scalar _ _ W).
  - cbn [lex_run] in H.
    destruct (lex_step st toks c) as [[st' toks']|] eqn:S; [|discriminate H].
    destruct st; cbn [lex_step] in S; try contradiction.
    + destruct (N.eqb c 34).
      { inversion S; subst. destruct (D _ _ _ _ H) as (more & E).
        exists (TString acc), more. auto. }
      destruct (N.eqb c 92);
        [inversion S; subst; (eapply IH; [|exact H]; discriminate)|].
      destruct (N.ltb c 32); [discriminate S|].
      inversion S; subst. (eapply IH; [|exact H]; discriminate).
    + repeat match type of S with
             | (if ?b then _ else _) = _ =>
                 destruct b;
                 [inversion S; subst; (eapply IH; [|exact H]; discriminate)|]
             end.
      discriminate S.
    + destruct (hex_val c); [|discriminate S].
      destruct count as [|[|[|[|?]]]]; inversion S; subst;
        (eapply IH; [|exact H]; discriminate).
    + destruct (is_number_char c);
        [inversion S; subst; (eapply IH; [|exact H]; discriminate)|].
      destruct (number_of_literal l) as [n|]; [|discriminate S].
      destruct (F _ _ _ _ _ _ _ S H) as (more & E).
      exists (TNumber n), more. auto.
    + destruct (is_lower c);
        [inversion S; subst; (eapply IH; [|exact H]; discriminate)|].
      destruct (word_token w) as [t|] eqn:W; [|discriminate S].
      destruct (F _ _ _ _ _ _ _ S H) as (more & E).
      exists t, more. split; [exact E | exact (word_token_scalar _ _ W)].
Qed.

Lemma parse_scalar_first : forall t more v,
  scalar_token t = true ->
  parse_run (PValue []) (t :: more) = Some v -> value_is true v = false.
Proof.
  intros t more v T H. destruct t; try discriminate T;
    cbn [parse_run parse_step parse_value plug] in H;
    destruct more; cbn [parse_run parse_step] in H; try discriminate H;
    inversion H; reflexivity.
Qed.

Lemma json_ws_is_space : forall c, is_json_ws c = true -> is_space c = true.
Proof.
  intros c H. unfold is_json_ws in H.
  repeat (apply orb_prop in H; destruct H as [H|H]);
    apply N.eqb_eq in H; subst; reflexivity.
Qed.

Lemma object_text_starts_with_brace : forall c s o,
  JSON_parse (c :: s) = Some (JObj o) -> is_space c = false -> c = 123.
Proof.
  intros c s o H Hc.
  assert (Hw : is_json_ws c = false).
  { destruct (is_json_ws c) eqn:E; [|reflexivity].
    apply json_ws_is_space in E. congruence. }
  unfold JSON_parse, lex in H.
  destruct (lex_run LDefault [] (c :: s)) as [ts|] eqn:L; [|discriminate H].
  cbn [lex_run lex_step] in L. unfold lex_default in L. rewrite Hw in L.
  destruct (N.eqb_spec c 123); [assumption|]. exfalso.
  assert (P : forall t, t <> TLBrace -> t <> TLBracket -> scalar_token t = false ->
              lex_run LDefault [t] s = Some ts -> False).
  { intros t T1 T2 T3 R. destruct (lex_run_extends _ _ _ _ R) as (more & E & _).
    subst ts. cbn [rev app parse_run parse_step] in H.
    destruct t; try discriminate T3; try contradiction; discriminate H. }
  destruct (N.eqb c 125); [exact (P TRBrace ltac:(discriminate)
                                   ltac:(discriminate) eq_refl L)|].
  destruct (N.eqb c 91).
  { destruct (lex_run_extends _ _ _ _ L) as (more & E & _). subst ts.
    cbn [rev app parse_run parse_step parse_value] in H.
    apply (parse_run_rooted false) in H; [discriminate H | reflexivity]. }
  destruct (N.eqb c 93); [exact (P TRBracket ltac:(discriminate)
                                  ltac:(discriminate) eq_refl L)|].
  destruct (N.eqb c 58); [exact (P TColon ltac:(discriminate)
                                  ltac:(discriminate) eq_refl L)|].
  destruct (N.eqb c 44); [exact (P TComma ltac:(discriminate)
                                  ltac:(discriminate) eq_refl L)|].
  assert (Q : forall st, st <> LDefault -> lex_run st [] s = Some ts -> False).
  { intros st N R. destruct (lex_run_pending _ _ _ _ N R) as (t & more & E & T).
    subst ts. cbn [rev app] in H.
    apply parse_scalar_first in H; [discriminate H | exact T]. }
  destruct (N.eqb c 34); [eapply Q; [|exact L]; discriminate|].
  destruct (is_digit c || N.eqb c 45); [eapply Q; [|exact L]; discriminate|].
  destruct (is_lower c); [eapply Q; [|exact L]; discriminate | discriminate L].
Qed.

Lemma plug_done : forall v stk v', plug v stk = PDone v' -> v = v'.
Proof.
  intros v [|[acc|acc k] stk] v' H; cbn [plug] in H; try discriminate H.
  inversion H. reflexivity.
Qed.

Lemma parse_step_closes_object : forall st t o,
  parse_step st t = Some (PDone (JObj o)) -> t = TRBrace.
Proof.
  intros st t o H.
  assert (V : forall stk, parse_value stk t = Some (PDone (JObj o)) -> False).
  { intros stk P. destruct t; cbn [parse_value] in P; try discriminate P;
      inversion P as [E]; apply plug_done in E; discriminate E. }
  destruct st; cbn [parse_step] in H; try discriminate H.
  - destruct (V _ H).
  - destruct t; try (destruct (V _ H)).
    inversion H as [E]. apply plug_done in E. discriminate E.
  - destruct t; try discriminate H; reflexivity.
  - destruct t; discriminate H.
  - destruct t; discriminate H.
  - destruct t; try discriminate H.
    inversion H as [E]. apply plug_done in E. discriminate E.
  - destruct t; try discriminate H; reflexivity.
Qed.

Lemma parse_run_ends_with_brace : forall ts st o,
  match st with PDone _ => False | _ => True end ->
  parse_run st ts = Some (JObj o) -> exists ts', ts = ts' ++ [TRBrace].
Proof.
  induction ts as [|t ts IH]; intros st o N H; cbn [parse_run] in H.
  - destruct st; try discriminate H. destruct N.
  - destruct (parse_step st t) as [st'|] eqn:S; [|discriminate H].
    destruct st';
      try (apply IH in H;
           [destruct H as (ts' & E); exists (t :: ts'); rewrite E; reflexivity
           | exact I]).
    destruct ts as [|t' ts]; [|cbn [parse_run parse_step] in H; discriminate H].
    cbn [parse_run] in H. inversion H; subst.
    apply parse_step_closes_object in S. subst t. exists []. reflexivity.
Qed.

Lemma lex_default_closes : forall toks d rest,
  lex_default toks d = Some (LDefault, TRBrace :: rest) ->
  is_json_ws d = false -> d = 125.
Proof.
  intros toks d rest H W. unfold lex_default in H. rewrite W in H.
  destruct (N.eqb d 123); [discriminate H|].
  destruct (N.eqb_spec d 125); [assumption|].
  repeat match type of H with
         | (if ?b then _ else _) = _ => destruct b; [discriminate H|]
         end.
  discriminate H.
Qed.

Lemma lex_run_ends_with_brace : forall d s st toks ts',
  is_json_ws d = false ->
  lex_run st toks (s ++ [d]) = Some (ts' ++ [TRBrace]) -> d = 125.
Proof.
  intros d. induction s as [|c s IH]; intros st toks ts' W H.
  - cbn [app lex_run] in H.
    destruct (lex_step st toks d) as [[st' toks']|] eqn:S; [|discriminate H].
    assert (E : st' = LDefault /\ exists rest, toks' = TRBrace :: rest).
    { assert (R : forall X, Some (rev X) = Some (ts' ++ [TRBrace]) ->
                            X = TRBrace :: rev ts').
      { intros X HX. inversion HX as [HX']. apply (f_equal (@rev token)) in HX'.
        rewrite rev_involutive, rev_app_distr in HX'. exact HX'. }
      destruct st'; cbn [lex_end] in H; try discriminate H.
      - split; [reflexivity|]. exists (rev ts'). exact (R _ H).
      - destruct (number_of_literal l); [|discriminate H].
        apply R in H. discriminate H.
      - destruct (word_token w) as [t|] eqn:Wt; [|discriminate H].
        apply R in H. inversion H; subst.
        apply word_token_scalar in Wt. discriminate Wt. }
    destruct E as (E1 & rest & E2). subst st' toks'.
    destruct st; cbn [lex_step] in S.
    + exact (lex_default_closes _ _ _ S W).
    + destruct (N.eqb d 34); [discriminate S|].
      destruct (N.eqb d 92); [discriminate S|].
      destruct (N.ltb d 32); discriminate S.
    + repeat match type of S with
             | (if ?b then _ else _) = _ => destruct b; [discriminate S|]
             end.
      discriminate S.
    + destruct (hex_val d); [|discriminate S].
      destruct count as [|[|[|[|?]]]]; discriminate S.
    + destruct (is_number_char d); [discriminate S|].
      destruct (number_of_literal l); [|discriminate S].
      destruct (lex_default_extends _ _ _ _ S) as [E|(t & E & _)].
      * discriminate E.
      * inversion E; subst. exact (lex_default_closes _ _ _ S W).
    + destruct (is_lower d); [discriminate S|].
      destruct (word_token w) as [t0|] eqn:Wt; [|discriminate S].
      destruct (lex_default_extends _ _ _ _ S) as [E|(t & E & _)].
      * inversion E; subst. apply word_token_scalar in Wt. discriminate Wt.
      * inversion E; subst. exact (lex_default_closes _ _ _ S W).
  - cbn [app lex_run] in H.
    destruct (lex_step st toks c) as [[st' toks']|]; [|discriminate H].
    exact (IH _ _ _ W H).
Qed.

Lemma object_text_ends_with_brace : forall s d o,
  JSON_parse (s ++ [d]) = Some (JObj o) -> is_space d = false -> d = 125.
Proof.
  intros s d o H Hd.
  assert (Hw : is_json_ws d = false).
  { destruct (is_json_ws d) eqn:E; [|reflexivity].
    apply json_ws_is_space in E. congruence. }
  unfold JSON_parse, lex in H.
  destruct (lex_run LDefault [] (s ++ [d])) as [ts|] eqn:L; [|discriminate H].
  destruct (parse_run_ends_with_brace ts (PValue []) o I H) as (ts' & E).
  subst ts.
  exact (lex_run_ends_with_brace d s _ _ _ Hw L).
Qed.

(** A trimmed text that [JSON.parse] reads as an object is what the
    pattern of the handler finds in it. *)
Lemma trimmed_object_text : forall s o,
  is_trimmed s = true -> JSON_parse s = Some (JObj o) -> jsonMatch s = Some s.
Proof.
  intros s o T P. destruct s as [|c u]; [discriminate P|].
  unfold is_trimmed in T. apply andb_prop in T. destruct T as (Tc & Td).
  apply negb_true_iff in Tc, Td.
  pose proof (object_text_starts_with_brace _ _ _ P Tc). subst c.
  destruct (rev u) as [|d v] eqn:R.
  - apply (f_equal (@rev N)) in R. rewrite rev_involutive in R. subst u.
    vm_compute in P. discriminate P.
  - apply (f_equal (@rev N)) in R. rewrite rev_involutive in R. cbn [rev] in R.
    subst u.
    change (123 :: rev v ++ [d]) with ((123 :: rev v) ++ [d]) in *.
    rewrite last_last in Td.
    pose proof (object_text_ends_with_brace _ _ _ P Td). subst d.
    unfold jsonMatch, String_match.
    pose proof (search_re_object [] (rev v) [] ltac:(intros [])
                                 ltac:(intros [])) as S.
    cbn [app] in S |- *. rewrite S. reflexivity.
Qed.

(* ================================================================== *)
(** * The claims of the design document *)
(* ================================================================== *)

(** ** C1: round trip of a conforming object *)

(** C1, as the handler has it.  Take an object that conforms to
    [moodboardOutputSchema] and whose JSON text has no three backticks in a
    row, and send that text as the reply, bare or inside a code block.  The
    step parses it back: [parsed_data] is the object with a non-empty
    [date] and a non-empty [analyzed_at] replaced by the timestamps of the
    invocation, and every other property, and the order of the properties,
    unchanged; [corrected_response] is its JSON text.  The handler returns
    it with [raw] true, and the returned object has no [validated]
    property. *)
Theorem C1_reply_object_is_recovered_up_to_timestamps :
  forall (o : object) (m : Zod.MoodboardOutput) (reply : jsstring),
    wf (JObj o) = true ->
    Zod.moodboardOutputSchema (Some (JObj o)) = Some m ->
    contains_fence (JSON_stringify (JObj o)) = false ->
    In reply [JSON_stringify (JObj o);
              fenced_json (JSON_stringify (JObj o));
              fenced_plain (JSON_stringify (JObj o))] ->
    (forall d t,
       normalize reply d t
       = (JObj (restamp d t o), JSON_stringify (JObj (restamp d t o)))
       /\ get (js "date") (restamp d t o)
          = Some (JStr (if nonempty (Zod.date m) then d else Zod.date m))
       /\ get (js "analyzed_at") (restamp d t o)
          = Some (JStr (if nonempty (Zod.analyzed_at m) then t
                        else Zod.analyzed_at m))
       /\ (forall k, k <> js "date" -> k <> js "analyzed_at" ->
                     get k (restamp d t o) = get k o)
       /\ map fst (restamp d t o) = map fst o)
    /\ forall cfg rt w i c cs tm chs,
         coingecko w = Return (Some (c :: cs)) ->
         nonempty (jatevoApiKey cfg) = true ->
         upstream w
         = Answers tm {| ok := true;
                         body := Completion (Some ({| content := reply |} :: chs)) |} ->
         tm < TIMEOUT_MS ->
         exists r st,
           handler cfg rt w i initial = (Return r, st)
           /\ parsed_data (output r)
              = JObj (restamp (date (output r)) (analyzed_at (output r)) o)
           /\ corrected_response (output r)
              = JSON_stringify (parsed_data (output r))
           /\ raw r = true
           /\ get (js "validated") (result_fields r) = None.
Proof.
  intros o m reply W S F Hin.
  pose proof (clean_reply_forms o reply F Hin) as C.
  destruct (schema_dates o m S) as (Gd & Gt).
  split.
  - intros d t. split; [exact (normalize_object_text reply o d t W C)|].
    destruct (restamp_fields d t o) as (A & B & K & L).
    rewrite Gd in A. rewrite Gt in B. cbn [truthy] in A, B.
    split; [rewrite A; destruct (nonempty (Zod.date m)); reflexivity|].
    split; [rewrite B; destruct (nonempty (Zod.analyzed_at m)); reflexivity|].
    split; [exact K | exact L].
  - intros cfg rt w i c cs tm chs Hc K Hu Ht.
    pose proof (handler_runs cfg rt w i c cs tm _ chs Hc K Hu Ht) as H.
    cbn zeta in H. cbn [content] in H.
    eexists. eexists. split; [exact H|].
    cbn [output parsed_data corrected_response date analyzed_at raw].
    rewrite (normalize_object_text reply o _ _ W C). cbn [fst snd].
    repeat split; reflexivity.
Qed.

Lemma C1_witness_conforming_object :
  normalize (fenced_json (JSON_stringify (JObj Demo.conforming)))
            Demo.today Demo.this_instant
  = (JObj Demo.restamped, JSON_stringify (JObj Demo.restamped)).
Proof.
  destruct (C1_reply_object_is_recovered_up_to_timestamps
              Demo.conforming
              {| Zod.date := js "2020-01-01";
                 Zod.coins := [{| Zod.symbol := js "BTC";
                                  Zod.mood := [55357; 56520];
                                  Zod.narrative := js "rally";
                                  Zod.score := Number false [8] 0;
                                  Zod.price_change_24h := None;
                                  Zod.market_cap_rank := None |}];
                 Zod.market_sentiment := None;
                 Zod.analyzed_at := js "2020-01-01T00:00:00.000Z" |}
              (fenced_json (JSON_stringify (JObj Demo.conforming)))
              eq_refl eq_refl eq_refl
              (or_intror (or_introl eq_refl)))
    as (H & _).
  destruct (H Demo.today Demo.this_instant) as (E & _).
  exact E.
Defined.

(** C1, as stated, fails on a conforming object: what comes back carries
    the timestamps of the invocation in place of the object's own, and the
    returned value is marked [raw], has no [validated] property and counts
    as not validated for the consistency script. *)
Lemma C1_counterexample_dates_replaced_and_no_validated_flag :
  wf (JObj Demo.conforming) = true
  /\ (exists m, Zod.moodboardOutputSchema (Some (JObj Demo.conforming)) = Some m)
  /\ fst (normalize (JSON_stringify (JObj Demo.conforming))
                    Demo.today Demo.this_instant)
     = JObj Demo.restamped
  /\ JObj Demo.restamped <> JObj Demo.conforming
  /\ exists r st,
       handler Demo.cfg Demo.rt
               (Demo.answering (JSON_stringify (JObj Demo.conforming)))
               Demo.input initial = (Return r, st)
       /\ parsed_data (output r) = JObj Demo.restamped
       /\ raw r = true
       /\ get (js "validated") (result_fields r) = None
       /\ body_validated (result_fields r) = false.
Proof.
  split; [reflexivity|]. split; [eexists; reflexivity|].
  split; [vm_compute; reflexivity|]. split; [discriminate|].
  eexists. eexists. split; [vm_compute; reflexivity|].
  repeat split; vm_compute; reflexivity.
Qed.

(** The scenarios of the design document. *)
Example scenario_fenced_reply_with_prose :
  fst (normalize (js "Sure! ```json" ++ [10]
                    ++ jsq "{'coins':[{'symbol':'BTC','mood':'"
                    ++ [55357; 56520]
                    ++ jsq "','narrative':'rally','score':0.8}]}"
                    ++ [10] ++ js "```")
                 Demo.today Demo.this_instant)
  = JObj [ (js "coins",
            JArr [JObj [ (js "symbol", JStr (js "BTC"));
                         (js "mood", JStr [55357; 56520]);
                         (js "narrative", JStr (js "rally"));
                         (js "score", JNum (Number false [8] 0)) ]]) ].
Proof. vm_compute. reflexivity. Qed.

Example fence_inside_a_string_is_removed :
  fst (normalize (jsq "{'date':'x','note':'use ``` for code'}")
                 Demo.today Demo.this_instant)
  = JObj [ (js "date", JStr Demo.today);
           (js "note", JStr (js "use for code")) ].
Proof. vm_compute. reflexivity. Qed.

(** ** C2: the exit code of the consistency script *)

(** C2, as the script has it.  The script exits with 0 exactly when each
    of the five trials is a success whose [validated] is not false, and
    with 1 otherwise.  A trial is a success exactly when the first request
    is answered 402, the payment header can be built, and the paid request
    is answered with an ok status and a JSON body other than [null]. *)
Theorem C2_exit_zero_iff_all_succeed_and_validate :
  forall (msg : jsstring) (trials : nat -> Trial),
    (runConsistencyTest msg trials = 0
     <-> forall r, In r (runTrials msg trials) ->
                   success r = true /\ validated r <> Some false)
    /\ (runConsistencyTest msg trials = 0 \/ runConsistencyTest msg trials = 1)
    /\ forall n t,
         success (runSingleTest msg n t) = true
         <-> initialStatus t = Return 402
             /\ (exists u, paymentHeader t = Return u)
             /\ exists a paidBody,
                  paidResponse t = Return a /\ http_ok a = true
                  /\ JSON_parse (text a) = Some paidBody /\ paidBody <> JNull.
Proof.
  intros msg trials. split; [|split].
  - unfold runConsistencyTest. apply exitCode_zero. reflexivity.
  - unfold runConsistencyTest, exitCode.
    destruct (Nat.eqb _ 5 && Nat.eqb _ 5); [left; reflexivity|].
    right. destruct (Nat.eqb _ 5 && Nat.ltb 0 _); reflexivity.
  - intros n t. apply runSingleTest_success.
Qed.

(** C2, as stated, fails: five trials that all succeed at the transport
    level (success rate 100 %) and carry the handler's raw output make the
    script exit with 1. *)
Lemma C2_counterexample_all_succeed_exit_one :
  map success (runTrials Demo.null_message Demo.all_raw)
  = [true; true; true; true; true]
  /\ map status (runTrials Demo.null_message Demo.all_raw)
     = [200; 200; 200; 200; 200]
  /\ (successRate (runTrials Demo.null_message Demo.all_raw) == 100)%Q
  /\ runConsistencyTest Demo.null_message Demo.all_raw = 1.
Proof. vm_compute. repeat split; reflexivity. Qed.

(** ** C3: timestamp override *)

(** C3, as the handler has it.  When the reply parses to an object, the
    parsed object carries the timestamp of the invocation in [date] (in
    [analyzed_at]) where the reply had a truthy value there; a falsy value,
    or none, is left as it is; and [corrected_response] is the JSON text of
    that object. *)
Theorem C3_truthy_dates_are_replaced_by_the_clock :
  forall (reply m : jsstring) (o : object) (d t : jsstring),
    jsonMatch (clean reply) = Some m ->
    JSON_parse m = Some (JObj o) ->
    normalize reply d t
    = (JObj (restamp d t o), JSON_stringify (JObj (restamp d t o)))
    /\ get (js "date") (restamp d t o)
       = (if truthy (get (js "date") o) then Some (JStr d)
          else get (js "date") o)
    /\ get (js "analyzed_at") (restamp d t o)
       = (if truthy (get (js "analyzed_at") o) then Some (JStr t)
          else get (js "analyzed_at") o).
Proof.
  intros reply m o d t M P. split.
  - unfold normalize. rewrite M, P. reflexivity.
  - destruct (restamp_fields d t o) as (A & B & _). split; assumption.
Qed.

Lemma C3_witness_stale_dates :
  fst (normalize Demo.stale_dates Demo.today Demo.this_instant)
  = JObj [ (js "date", JStr Demo.today); (js "coins", JArr []);
           (js "analyzed_at", JStr Demo.this_instant) ].
Proof.
  destruct (C3_truthy_dates_are_replaced_by_the_clock
              Demo.stale_dates Demo.stale_dates
              [ (js "date", JStr (js "1999-12-31")); (js "coins", JArr []);
                (js "analyzed_at", JStr (js "yesterday")) ]
              Demo.today Demo.this_instant eq_refl eq_refl)
    as (E & _).
  rewrite E. reflexivity.
Defined.

(** C3, as stated, fails at a reply whose [date] and [analyzed_at] are
    empty strings: the parsed object and the corrected text keep the empty
    strings, while a reply with made-up dates gets the timestamps of the
    invocation. *)
Lemma C3_empty_dates_are_not_replaced :
  normalize Demo.empty_dates Demo.today Demo.this_instant
  = (JObj [ (js "date", JStr []); (js "coins", JArr []);
            (js "analyzed_at", JStr []) ],
     Demo.empty_dates)
  /\ JStr [] <> JStr Demo.today
  /\ normalize Demo.stale_dates Demo.today Demo.this_instant
     = (JObj [ (js "date", JStr Demo.today); (js "coins", JArr []);
               (js "analyzed_at", JStr Demo.this_instant) ],
        jsq "{'date':'2026-11-02','coins':[],'analyzed_at':'2026-11-02T10:00:00.500Z'}").
Proof.
  split; [vm_compute; reflexivity|]. split; [discriminate|].
  vm_compute. reflexivity.
Qed.

(** ** C4: the degraded path *)

Example parse_fails_on_empty_reply : parse_fails [] = true.
Proof. reflexivity. Qed.

Example parse_fails_on_prose : parse_fails Demo.refusal = true.
Proof. vm_compute. reflexivity. Qed.

Example parse_fails_on_truncated_json :
  parse_fails (jsq "{'date':'2026-11-02','coins':[{'symbol':'BT") = true.
Proof. vm_compute. reflexivity. Qed.

Example parse_fails_on_braced_prose :
  parse_fails (js "Here you go: {not json} enjoy") = true.
Proof. vm_compute. reflexivity. Qed.

Example scenario_refusal :
  normalize Demo.refusal Demo.today Demo.this_instant = (JNull, Demo.refusal).
Proof. vm_compute. reflexivity. Qed.

(** C4.  Whatever string the endpoint sends as content, the steps after
    the inference call do not throw: the handler returns an object with
    [raw] true whose [raw_response] is that string.  When no object can be
    read out of it, [parsed_data] is [null] and [corrected_response] is the
    string itself; and the consistency script counts a body that carries
    this output as a raw response, not as validated. *)
Theorem C4_normalization_never_throws_and_keeps_the_reply :
  forall (cfg : Config) (rt : Runtime) (w : World) (i : Zod.Input)
         (c : Coin) (cs : list Coin) (t : N) (chs : list Choice)
         (reply : jsstring),
    coingecko w = Return (Some (c :: cs)) ->
    nonempty (jatevoApiKey cfg) = true ->
    upstream w
    = Answers t {| ok := true;
                   body := Completion (Some ({| content := reply |} :: chs)) |} ->
    t < TIMEOUT_MS ->
    exists r st,
      handler cfg rt w i initial = (Return r, st)
      /\ raw r = true
      /\ raw_response (output r) = reply
      /\ (parse_fails reply = true ->
          parsed_data (output r) = JNull
          /\ corrected_response (output r) = reply)
      /\ forall body : object,
           get (js "output") body = Some (output_value (output r)) ->
           body_hasRawResponse body = true /\ body_validated body = false.
Proof.
  intros cfg rt w i c cs t chs reply Hc K Hu Ht.
  pose proof (handler_runs cfg rt w i c cs t _ chs Hc K Hu Ht) as H.
  cbn zeta in H. cbn [content] in H.
  eexists. eexists. split; [exact H|].
  cbn [raw output raw_response parsed_data corrected_response].
  split; [reflexivity|]. split; [reflexivity|]. split.
  - intro F. rewrite (normalize_parse_fails _ _ _ F). auto.
  - intros body Hb. eapply body_carrying_output_is_raw. exact Hb.
Qed.

Lemma C4_witness_refusal :
  exists r st,
    handler Demo.cfg Demo.rt (Demo.answering Demo.refusal) Demo.input initial
    = (Return r, st)
    /\ raw_response (output r) = Demo.refusal
    /\ parsed_data (output r) = JNull
    /\ corrected_response (output r) = Demo.refusal
    /\ body_validated (match result_value r with JObj o => o | _ => [] end)
       = false.
Proof.
  destruct (C4_normalization_never_throws_and_keeps_the_reply
              Demo.cfg Demo.rt (Demo.answering Demo.refusal) Demo.input
              Demo.btc [] 1200 [] Demo.refusal eq_refl eq_refl eq_refl eq_refl)
    as (r & st & E & _ & A & B & C).
  exists r, st. split; [exact E|]. split; [exact A|].
  destruct (B parse_fails_on_prose) as (B1 & B2).
  split; [exact B1|]. split; [exact B2|].
  apply (C (match result_value r with JObj o => o | _ => [] end)).
  reflexivity.
Defined.

(** ** C5: the mean response time *)

(** C5 at a run with a failed trial: four trials succeed in 100 ms each,
    the fifth fails after 100 ms; the script reports 500/4 = 125 ms, the
    mean over the successful trials is 100 ms. *)
Lemma C5_mean_counts_the_failed_trial :
  map success (runTrials Demo.null_message Demo.one_failure)
  = [true; true; true; true; false]
  /\ map responseTime (runTrials Demo.null_message Demo.one_failure)
     = [100; 100; 100; 100; 100]%Z
  /\ avgResponseTime (runTrials Demo.null_message Demo.one_failure)
     = Finite (500 # 4)
  /\ (mean_of_successful (runTrials Demo.null_message Demo.one_failure) == 100)%Q
  /\ ~ (500 # 4 == 100)%Q
  /\ (successRate (runTrials Demo.null_message Demo.one_failure) == 80)%Q
  /\ (validatedRate (runTrials Demo.null_message Demo.one_failure) == 0)%Q.
Proof. vm_compute. repeat split; try reflexivity; discriminate. Qed.

(** ** C6: the candidate span *)

(** C6.  A cleaned text with a [{] and, somewhere after it, a [}] splits
    at its first [{] and its last [}]; [cleaned.match] returns exactly that
    span, and the span is what the step hands to [JSON.parse].  When
    [JSON.parse] reads an object from it, that object, with its dates
    corrected, is the result; [JSON.parse] reads nothing else from a span
    that starts with a brace; and when it rejects the span the handler is
    left with [parsedResponse = null] and [correctedResponse = response]. *)
Theorem C6_candidate_is_first_to_last_brace :
  forall x y z : jsstring,
  exists a b c,
    x ++ 123 :: y ++ 125 :: z = a ++ 123 :: b ++ 125 :: c
    /\ ~ In 123 a /\ ~ In 125 c
    /\ jsonMatch (x ++ 123 :: y ++ 125 :: z) = Some (123 :: b ++ [125])
    /\ (forall v, JSON_parse (123 :: b ++ [125]) = Some v -> exists o, v = JObj o)
    /\ forall response currentDate currentTimestamp,
         clean response = x ++ 123 :: y ++ 125 :: z ->
         normalize response currentDate currentTimestamp
         = match JSON_parse (123 :: b ++ [125]) with
           | Some (JObj o) =>
               (JObj (restamp currentDate currentTimestamp o),
                JSON_stringify (JObj (restamp currentDate currentTimestamp o)))
           | _ => (JNull, response)
           end
         /\ (JSON_parse (123 :: b ++ [125]) = None ->
             normalize response currentDate currentTimestamp = (JNull, response)).
Proof.
  intros x y z.
  destruct (first_and_last_brace x y z) as (a & b & c & E & Ha & Hc).
  exists a, b, c. rewrite E.
  assert (Hm : jsonMatch (a ++ 123 :: b ++ 125 :: c) = Some (123 :: b ++ [125])).
  { unfold jsonMatch, String_match. rewrite search_re_object by assumption.
    reflexivity. }
  assert (Hb : forall v, JSON_parse (123 :: b ++ [125]) = Some v ->
                         exists o, v = JObj o).
  { intros v P. exact (JSON_parse_braced _ _ P). }
  repeat split; try assumption.
  - unfold normalize. rewrite H, Hm.
    destruct (JSON_parse (123 :: b ++ [125])) as [v|] eqn:P; [|reflexivity].
    destruct (Hb v eq_refl) as (o & Ev). subst v. reflexivity.
  - intro Hparse. unfold normalize. rewrite H, Hm, Hparse. reflexivity.
Qed.

(** The span at work: prose without braces around the object does no
    harm; a brace in the prose before the object makes the span start
    there, and the step gives up. *)
Example candidate_span_at_work :
  fst (normalize (js "Result: " ++ Demo.stale_dates ++ js " (done)")
                 Demo.today Demo.this_instant)
  = JObj [ (js "date", JStr Demo.today); (js "coins", JArr []);
           (js "analyzed_at", JStr Demo.this_instant) ]
  /\ normalize (js "{see} " ++ Demo.stale_dates) Demo.today Demo.this_instant
     = (JNull, js "{see} " ++ Demo.stale_dates).
Proof. split; vm_compute; reflexivity. Qed.

(** ** C7: the inference timeout *)

(** C7 at an answer whose body never arrives.  The abort timer is set to
    60 000 ms and cleared as soon as [fetch] resolves, that is, when the
    headers are there; the body is read after that, with no timer.  So
    when the headers come before the timer fires and the body does not
    come at all, [fetch] is not aborted, the request has gone out, the
    clock has been read for the fifth time, and neither the client nor the
    handler ever returns or throws.  An endpoint that sends nothing at all
    is cut off by the timer: the same invocation then fails with "Moodboard
    analysis failed: Failed to call <model>: <abort message>". *)
Theorem C7_stalled_body_is_never_aborted :
  forall (cfg : Config) (rt : Runtime) (w : World) (i : Zod.Input)
         (c : Coin) (cs : list Coin) (t : N) (okr : bool),
    coingecko w = Return (Some (c :: cs)) ->
    nonempty (jatevoApiKey cfg) = true ->
    upstream w = Answers t {| ok := okr; body := Stalled |} ->
    t < TIMEOUT_MS ->
    TIMEOUT_MS = 60 * 1000
    /\ fetch_with_timeout rt (upstream w)
       = Return {| ok := okr; body := Stalled |}
    /\ (forall prompt apiKey modelName endpoint st,
          nonempty apiKey = true ->
          callGLM46 rt (clock w) (upstream w) prompt apiKey modelName endpoint st
          = (Pending, answered (clock w) endpoint modelName prompt st))
    /\ (exists prompt before,
          handler cfg rt w i initial
          = (Pending,
             State 5 (EvNow (clock w 4)
                        :: EvInference default_endpoint (jatevoModel cfg) prompt
                        :: before)))
    /\ (forall r st, handler cfg rt w i initial <> (Return r, st))
    /\ (forall e st, handler cfg rt w i initial <> (Throw e, st))
    /\ forall w' : World,
         coingecko w' = coingecko w ->
         no_answer_before_ceiling (upstream w') = true ->
         fetch_with_timeout rt (upstream w') = Throw (JsError (abort_message rt))
         /\ fst (handler cfg rt w' i initial)
            = Throw (JsError (js "Moodboard analysis failed: "
                                ++ js "Failed to call " ++ jatevoModel cfg
                                ++ js ": " ++ abort_message rt)).
Proof.
  intros cfg rt w i c cs t okr Hc K Hu Ht.
  assert (P : exists prompt before,
            handler cfg rt w i initial
            = (Pending,
               State 5 (EvNow (clock w 4)
                          :: EvInference default_endpoint (jatevoModel cfg) prompt
                          :: before))).
  { rewrite handler_unfold. cbn zeta. rewrite Hc, Hu.
    rewrite callGLM46_stalls by assumption.
    eexists. eexists. reflexivity. }
  split; [reflexivity|].
  split; [rewrite Hu; cbn [fetch_with_timeout];
          apply N.ltb_lt in Ht; rewrite Ht; reflexivity|].
  split; [intros; rewrite Hu; apply callGLM46_stalls; assumption|].
  split; [exact P|].
  destruct P as (prompt & before & P). rewrite P.
  split; [intros r st; discriminate|].
  split; [intros e st; discriminate|].
  intros w' Hc' Hu'. split; [apply fetch_aborted; exact Hu'|].
  rewrite Hc in Hc'. eapply handler_times_out; eassumption.
Qed.

Lemma C7_witness_stalling_endpoint :
  fst (handler Demo.cfg Demo.rt Demo.stalling Demo.input initial) = Pending
  /\ reads (snd (handler Demo.cfg Demo.rt Demo.stalling Demo.input initial))
     = 5%nat
  /\ fst (handler Demo.cfg Demo.rt Demo.hanging Demo.input initial)
     = Throw (JsError (js "Moodboard analysis failed: Failed to call zai-glm-4.6: The operation was aborted.")).
Proof.
  destruct (C7_stalled_body_is_never_aborted
              Demo.cfg Demo.rt Demo.stalling Demo.input Demo.btc [] 1200 true
              eq_refl eq_refl eq_refl eq_refl)
    as (_ & _ & _ & (prompt & before & P) & _ & _ & H).
  rewrite P. split; [reflexivity|]. split; [reflexivity|].
  exact (proj2 (H Demo.hanging eq_refl eq_refl)).
Defined.

(** ** C8: the bound on [limit] *)

(** C8.  A body is accepted only with a [limit] in [1, 50]: the number
    it carries, or 10 when it carries none.  A number outside [1, 50], and
    a [limit] that is not a number, make the schema reject the body; a body
    whose [limit] is absent or a number in [1, 50] is accepted (its
    [vs_currency] being absent or a string).  The entrypoint hands the
    handler only what the input schema returns: a rejected body is answered
    without any call to CoinGecko or to the inference endpoint, and every
    call that is made belongs to an accepted body, the first of them being
    the data fetch with the accepted [limit]. *)
Theorem C8_limit_is_checked_before_any_paid_work :
  forall (cfg : Config) (rt : Runtime) (w : World) (requestBody : value),
    (forall i, Zod.input_schema (Some requestBody) = Some i ->
       (1 <= number_to_Q (Zod.limit i))%Q
       /\ (number_to_Q (Zod.limit i) <= 50)%Q
       /\ exists o, requestBody = JObj o
                    /\ match get (js "limit") o with
                       | None => Zod.limit i = number_of_Z 10
                       | Some x => x = JNum (Zod.limit i)
                       end)
    /\ (forall o n,
          requestBody = JObj o ->
          get (js "limit") o = Some (JNum n) ->
          ~ ((1 <= number_to_Q n)%Q /\ (number_to_Q n <= 50)%Q) ->
          Zod.input_schema (Some requestBody) = None)
    /\ (forall o x,
          requestBody = JObj o ->
          get (js "limit") o = Some x ->
          (forall n, x <> JNum n) ->
          Zod.input_schema (Some requestBody) = None)
    /\ (forall o,
          requestBody = JObj o ->
          match get (js "limit") o with
          | None => True
          | Some x =>
              exists n, x = JNum n
                        /\ (1 <= number_to_Q n)%Q /\ (number_to_Q n <= 50)%Q
          end ->
          match get (js "vs_currency") o with
          | None => True
          | Some x => exists c, x = JStr c
          end ->
          exists i,
            Zod.input_schema (Some requestBody) = Some i
            /\ match get (js "limit") o with
               | None => Zod.limit i = number_of_Z 10
               | Some x => x = JNum (Zod.limit i)
               end)
    /\ (Zod.input_schema (Some requestBody) = None ->
        invoke cfg rt w requestBody = (Invalid, State 0 []))
    /\ (forall e,
          In e (trace (snd (invoke cfg rt w requestBody))) ->
          exists i later,
            Zod.input_schema (Some requestBody) = Some i
            /\ (1 <= number_to_Q (Zod.limit i))%Q
            /\ (number_to_Q (Zod.limit i) <= 50)%Q
            /\ trace (snd (invoke cfg rt w requestBody))
               = later ++ [EvGetTopCoins (Zod.limit i) (Zod.vs_currency i)]).
Proof.
  intros cfg rt w body.
  assert (A : forall i, Zod.input_schema (Some body) = Some i ->
       (1 <= number_to_Q (Zod.limit i))%Q
       /\ (number_to_Q (Zod.limit i) <= 50)%Q
       /\ exists o, body = JObj o
                    /\ match get (js "limit") o with
                       | None => Zod.limit i = number_of_Z 10
                       | Some x => x = JNum (Zod.limit i)
                       end).
  { intros i H. unfold Zod.input_schema in H.
    destruct body as [| | | | |o]; try discriminate H.
    unfold Zod.field in H.
    destruct (Zod.limit_schema (get (js "limit") o)) as [l|] eqn:L;
      [|discriminate H].
    destruct (Zod.vs_currency_schema (get (js "vs_currency") o)) as [c|];
      [|discriminate H].
    inversion H; subst i. cbn [Zod.limit].
    destruct (limit_schema_accepts _ _ L) as (L1 & L2 & L3).
    split; [exact L1|]. split; [exact L2|]. exists o. split; [reflexivity|].
    exact L3. }
  split; [exact A|]. split; [|split; [|split; [|split]]].
  - intros o n Hb Hg Hn. subst body. unfold Zod.input_schema, Zod.field.
    rewrite Hg. rewrite (limit_schema_rejects n Hn). reflexivity.
  - intros o x Hb Hg Hn. subst body. unfold Zod.input_schema, Zod.field.
    rewrite Hg. rewrite (limit_schema_not_a_number x Hn). reflexivity.
  - intros o Hb HL HC. subst body. unfold Zod.input_schema, Zod.field.
    assert (L : exists l, Zod.limit_schema (get (js "limit") o) = Some l
                          /\ match get (js "limit") o with
                             | None => l = number_of_Z 10
                             | Some x => x = JNum l
                             end).
    { destruct (get (js "limit") o) as [x|].
      - destruct HL as (n & X & L1 & L2). subst x. exists n.
        split; [apply limit_schema_complete; assumption | reflexivity].
      - exists (number_of_Z 10). split; reflexivity. }
    destruct L as (l & L & L').
    assert (C : exists c, Zod.vs_currency_schema (get (js "vs_currency") o)
                          = Some c).
    { destruct (get (js "vs_currency") o) as [x|].
      - destruct HC as (c & X). subst x. exists c. reflexivity.
      - exists (js "usd"). reflexivity. }
    destruct C as (c & C). rewrite L, C.
    eexists. split; [reflexivity | exact L'].
  - intro H. unfold invoke. rewrite H. reflexivity.
  - intros e He. unfold invoke in *.
    destruct (Zod.input_schema (Some body)) as [i|] eqn:E.
    + destruct (handler_trace_starts cfg rt w i) as (later & T).
      exists i, later. split; [reflexivity|].
      destruct (A i eq_refl) as (L1 & L2 & _).
      split; [exact L1|]. split; [exact L2|].
      destruct (handler cfg rt w i initial) as [[[r|e']|] st]; exact T.
    + cbn in He. destruct He.
Qed.

Example limit_absent_defaults_to_10 :
  Zod.input_schema (Some (JObj [(js "vs_currency", JStr (js "eur"))]))
  = Some {| Zod.limit := number_of_Z 10; Zod.vs_currency := js "eur" |}.
Proof. vm_compute. reflexivity. Qed.

Example limit_bounds_are_inclusive :
  option_map Zod.limit (Zod.input_schema (JSON_parse (jsq "{'limit':1}")))
  = Some (number_of_Z 1)
  /\ option_map Zod.limit (Zod.input_schema (JSON_parse (jsq "{'limit':50}")))
     = Some (number_of_Z 50)
  /\ option_map Zod.limit (Zod.input_schema (JSON_parse (jsq "{'limit':12.5}")))
     = Some (Number false [1; 2; 5] 2).
Proof. vm_compute. repeat split; reflexivity. Qed.

Example limit_out_of_range_is_rejected :
  Zod.input_schema (JSON_parse (jsq "{'limit':0}")) = None
  /\ Zod.input_schema (JSON_parse (jsq "{'limit':51}")) = None
  /\ Zod.input_schema (JSON_parse (jsq "{'limit':50.01}")) = None
  /\ Zod.input_schema (JSON_parse (jsq "{'limit':-3}")) = None
  /\ Zod.input_schema (JSON_parse (jsq "{'limit':'10'}")) = None
  /\ Zod.input_schema (JSON_parse (jsq "{'limit':null}")) = None.
Proof. vm_compute. repeat split; reflexivity. Qed.

(** ** C9: determinism of the normalisation step *)

(** C9.  The fields the normalisation step produces are a function of the
    reply and of the two timestamps: two invocations that get the same
    reply and compute the same [date] and [analyzed_at] return the same
    [raw_response], [corrected_response] and [parsed_data], whatever the
    configuration, the request, the market data and the latencies were. *)
Theorem C9_normalized_output_depends_on_reply_and_timestamps_only :
  forall (cfg1 cfg2 : Config) (rt1 rt2 : Runtime) (w1 w2 : World)
         (i1 i2 : Zod.Input) (r1 r2 : Result) (st1 st2 : state),
    handler cfg1 rt1 w1 i1 initial = (Return r1, st1) ->
    handler cfg2 rt2 w2 i2 initial = (Return r2, st2) ->
    raw_response (output r1) = raw_response (output r2) ->
    date (output r1) = date (output r2) ->
    analyzed_at (output r1) = analyzed_at (output r2) ->
    normalized_output (output r1) = normalized_output (output r2)
    /\ normalized_output (output r1)
       = (date (output r1), analyzed_at (output r1), raw_response (output r1),
          snd (normalize (raw_response (output r1)) (date (output r1))
                         (analyzed_at (output r1))),
          fst (normalize (raw_response (output r1)) (date (output r1))
                         (analyzed_at (output r1)))).
Proof.
  intros cfg1 cfg2 rt1 rt2 w1 w2 i1 i2 r1 r2 st1 st2 H1 H2.
  apply handler_returns in H1. apply handler_returns in H2.
  destruct H1 as (c1 & cs1 & t1 & ch1 & chs1 & _ & _ & _ & _ & E1 & _).
  destruct H2 as (c2 & cs2 & t2 & ch2 & chs2 & _ & _ & _ & _ & E2 & _).
  cbn zeta in E1, E2. subst r1 r2.
  unfold normalized_output.
  cbn [output raw_response date analyzed_at corrected_response parsed_data].
  intros A B C. rewrite A, B, C. split; reflexivity.
Qed.

Lemma C9_witness_two_runs :
  exists r1 st1 r2 st2,
    handler Demo.cfg Demo.rt (Demo.answering Demo.refusal) Demo.input initial
    = (Return r1, st1)
    /\ handler Demo.cfg Demo.rt (Demo.answering_slowly Demo.refusal) Demo.input
               initial = (Return r2, st2)
    /\ analysis_duration_ms (output r1) <> analysis_duration_ms (output r2)
    /\ normalized_output (output r1) = normalized_output (output r2).
Proof.
  destruct (handler Demo.cfg Demo.rt (Demo.answering Demo.refusal) Demo.input
                    initial) as [[[r1|e1]|] st1] eqn:E1;
    [|vm_compute in E1; discriminate E1..].
  destruct (handler Demo.cfg Demo.rt (Demo.answering_slowly Demo.refusal)
                    Demo.input initial) as [[[r2|e2]|] st2] eqn:E2;
    [|vm_compute in E2; discriminate E2..].
  exists r1, st1, r2, st2. split; [reflexivity|]. split; [reflexivity|].
  split.
  - vm_compute in E1, E2. inversion E1; inversion E2; subst. cbn. discriminate.
  - apply (C9_normalized_output_depends_on_reply_and_timestamps_only
             Demo.cfg Demo.cfg Demo.rt Demo.rt
             (Demo.answering Demo.refusal) (Demo.answering_slowly Demo.refusal)
             Demo.input Demo.input r1 r2 st1 st2 E1 E2);
      vm_compute in E1, E2; inversion E1; inversion E2; subst; reflexivity.
Defined.

(** ** C10: what every returned value carries *)

(** C10.  Whenever the handler returns, the returned value has [raw] true,
    [raw_response] is the content the endpoint sent, [model_used] is the
    configured model, and [date] and [analyzed_at] are made from the first
    two readings of the clock, both taken before the inference request
    goes out; nothing of this depends on what the reply looks like. *)
Theorem C10_returned_value_is_raw_and_carries_reply :
  forall (cfg : Config) (rt : Runtime) (w : World) (i : Zod.Input)
         (r : Result) (st : state),
    handler cfg rt w i initial = (Return r, st) ->
    raw r = true
    /\ (exists t ch chs,
          upstream w
          = Answers t {| ok := true; body := Completion (Some (ch :: chs)) |}
          /\ raw_response (output r) = content ch)
    /\ model_used (output r) = jatevoModel cfg
    /\ date (output r) = before_first 84 (toISOString rt (clock w 0))
    /\ analyzed_at (output r) = toISOString rt (clock w 1)
    /\ exists prompt after before,
         trace st
         = after ++ EvInference default_endpoint (jatevoModel cfg) prompt :: before
         /\ In (EvNow (clock w 0)) before /\ In (EvNow (clock w 1)) before.
Proof.
  intros cfg rt w i r st H.
  apply handler_returns in H.
  destruct H as (c & cs & t & ch & chs & Hc & K & Hu & Ht & Hr & Hst).
  cbn zeta in Hr, Hst. subst r st. cbn [raw output raw_response model_used
    date analyzed_at trace].
  repeat split; try reflexivity.
  - exists t, ch, chs. split; [exact Hu | reflexivity].
  - eexists. exists [EvNow (clock w 5); EvNow (clock w 4)]. eexists.
    split; [reflexivity|]. cbn. auto 10.
Qed.

Lemma C10_witness_refusal :
  exists r st,
    handler Demo.cfg Demo.rt (Demo.answering Demo.refusal) Demo.input initial
    = (Return r, st)
    /\ raw r = true
    /\ raw_response (output r) = Demo.refusal
    /\ model_used (output r) = js "zai-glm-4.6"
    /\ date (output r) = Demo.today
    /\ analyzed_at (output r) = Demo.this_instant.
Proof.
  destruct (handler Demo.cfg Demo.rt (Demo.answering Demo.refusal) Demo.input
                    initial) as [[[r|e]|] st] eqn:E.
  - exists r, st. split; [reflexivity|].
    destruct (C10_returned_value_is_raw_and_carries_reply
                Demo.cfg Demo.rt (Demo.answering Demo.refusal) Demo.input r st E)
      as (A & (t & ch & chs & Hu & B) & C & D & F & _).
    inversion Hu; subst ch. repeat split; [exact A | exact B | exact C | exact D | exact F].
  - vm_compute in E. discriminate E.
  - vm_compute in E. discriminate E.
Defined.

(* ================================================================== *)
(** * Further properties of the code *)
(* ================================================================== *)

(** ** The configuration module *)

(** X1.  [loadConfig] throws exactly when [PRIVATE_KEY] or
    [JATEVO_API_KEY] is unset or empty.  The private key is looked at
    first: when both are missing the error names [PRIVATE_KEY]; the error
    names [JATEVO_API_KEY] only when the private key is there. *)
Theorem X1_loadConfig_fails_iff_a_key_is_missing :
  forall (StringToNumber : jsstring -> Settings.numeric)
         (env : Settings.environment) (e : thrown),
    Settings.loadConfig StringToNumber env = Throw e
    <-> (Settings.set_value (env (js "PRIVATE_KEY")) = None
         /\ e = JsError (js "PRIVATE_KEY is required. Please set it in your .env file."))
        \/ (Settings.set_value (env (js "PRIVATE_KEY")) <> None
            /\ Settings.set_value (env (js "JATEVO_API_KEY")) = None
            /\ e = JsError (js "JATEVO_API_KEY is required. Please set it in your .env file.")).
Proof.
  intros S2N env e. unfold Settings.loadConfig.
  destruct (Settings.set_value (env (js "PRIVATE_KEY"))) as [pk|];
    [destruct (Settings.set_value (env (js "JATEVO_API_KEY"))) as [ak|]|];
    split; intro H.
  - discriminate H.
  - destruct H as [(H & _)|(_ & H & _)]; discriminate H.
  - inversion H. right. repeat split. discriminate.
  - destruct H as [(H & _)|(_ & _ & H)]; [discriminate H|]. subst e. reflexivity.
  - inversion H. left. split; reflexivity.
  - destruct H as [(_ & H)|(H & _)]; [subst e; reflexivity|].
    exfalso. apply H. reflexivity.
Qed.

(** X2.  A configuration that [loadConfig] returns holds the two keys as
    the environment has them, and none of its string settings is empty: an
    empty variable counts as unset and gets the default.  So the API key
    the handler passes to [callGLM46] is never empty. *)
Theorem X2_loaded_config_has_no_empty_setting :
  forall (StringToNumber : jsstring -> Settings.numeric)
         (env : Settings.environment) (config : Settings.AgentConfig),
    Settings.loadConfig StringToNumber env = Return config ->
    env (js "PRIVATE_KEY") = Some (Settings.privateKey config)
    /\ env (js "JATEVO_API_KEY") = Some (Settings.jatevoApiKey config)
    /\ Forall (fun s => nonempty s = true)
              [Settings.apiBaseUrl config; Settings.jatevoApiKey config;
               Settings.jatevoApiEndpoint config; Settings.jatevoModel config;
               Settings.privateKey config; Settings.facilitatorUrl config;
               Settings.payTo config; Settings.network config;
               Settings.defaultPriceUsdc config;
               Settings.coinGeckoBaseUrl config]
    /\ forall prompt_text,
         nonempty (jatevoApiKey (Settings.handler_config config prompt_text))
         = true.
Proof.
  intros S2N env config H. unfold Settings.loadConfig in H.
  destruct (Settings.set_value (env (js "PRIVATE_KEY"))) as [pk|] eqn:P;
    [|discriminate H].
  destruct (Settings.set_value (env (js "JATEVO_API_KEY"))) as [ak|] eqn:A;
    [|discriminate H].
  apply set_value_nonempty in P. apply set_value_nonempty in A.
  destruct P as (P1 & P2). destruct A as (A1 & A2).
  inversion H; subst config; clear H.
  cbn [Settings.privateKey Settings.jatevoApiKey Settings.apiBaseUrl
       Settings.jatevoApiEndpoint Settings.jatevoModel Settings.facilitatorUrl
       Settings.payTo Settings.network Settings.defaultPriceUsdc
       Settings.coinGeckoBaseUrl Settings.handler_config jatevoApiKey].
  split; [exact P1|]. split; [exact A1|]. split; [|intros _; exact A2].
  repeat constructor; try assumption; apply or_else_nonempty; reflexivity.
Qed.

Lemma X2_witness_empty_network :
  exists config,
    Settings.loadConfig Samples.demo_number Samples.demo_env = Return config
    /\ Settings.network config = js "base"
    /\ nonempty (Settings.jatevoApiKey config) = true.
Proof.
  destruct (Settings.loadConfig Samples.demo_number Samples.demo_env) as [config|e] eqn:E;
    [|vm_compute in E; discriminate E].
  exists config. split; [reflexivity|].
  destruct (X2_loaded_config_has_no_empty_setting Samples.demo_number Samples.demo_env config E)
    as (_ & _ & _ & K).
  split; [|exact (K (fun _ _ _ _ => []))].
  vm_compute in E. inversion E. reflexivity.
Defined.

(** X3.  [getDefaultPrice] loads the configuration first, so it throws
    what [loadConfig] throws, also when [DEFAULT_PRICE] is set.  Otherwise
    it returns [DEFAULT_PRICE] as it is when that is set and not empty, and
    else the base units of [DEFAULT_PRICE_USDC], or of "0.01". *)
Theorem X3_getDefaultPrice_prefers_DEFAULT_PRICE :
  forall (StringToNumber : jsstring -> Settings.numeric)
         (usdcToBaseUnits : jsstring -> jsstring)
         (env : Settings.environment),
    match Settings.loadConfig StringToNumber env with
    | Throw e =>
        Settings.getDefaultPrice StringToNumber usdcToBaseUnits env = Throw e
    | Return config =>
        exists price,
          Settings.getDefaultPrice StringToNumber usdcToBaseUnits env
          = Return price
          /\ (forall s, env (js "DEFAULT_PRICE") = Some s -> nonempty s = true ->
                        price = s)
          /\ (Settings.set_value (env (js "DEFAULT_PRICE")) = None ->
              price = usdcToBaseUnits
                        (Settings.or_else (env (js "DEFAULT_PRICE_USDC"))
                                          (js "0.01")))
    end.
Proof.
  intros S2N u2b env. unfold Settings.getDefaultPrice.
  destruct (Settings.loadConfig S2N env) as [config|e] eqn:L; [|reflexivity].
  eexists. split; [reflexivity|].
  unfold Settings.loadConfig in L.
  destruct (Settings.set_value (env (js "PRIVATE_KEY"))); [|discriminate L].
  destruct (Settings.set_value (env (js "JATEVO_API_KEY"))); [|discriminate L].
  inversion L; subst config; clear L. cbn [Settings.defaultPriceUsdc].
  split.
  - intros s E N. rewrite E. cbn [Settings.set_value]. rewrite N. reflexivity.
  - intro E. rewrite E. reflexivity.
Qed.

(** X4.  The handler calls [callGLM46] without an endpoint: every
    inference request it sends goes to the built-in address, whatever
    [JATEVO_API_ENDPOINT] says, and names the model of [JATEVO_MODEL], or
    "deepseek-ai/DeepSeek-R1-0528" when that is not set. *)
Theorem X4_configured_endpoint_is_not_used :
  forall (StringToNumber : jsstring -> Settings.numeric)
         (env : Settings.environment) (config : Settings.AgentConfig)
         (prompt_text : number -> jsstring -> jsstring -> jsstring -> jsstring)
         (rt : Runtime) (w : World) (i : Zod.Input)
         (endpoint model prompt : jsstring),
    Settings.loadConfig StringToNumber env = Return config ->
    In (EvInference endpoint model prompt)
       (trace (snd (handler (Settings.handler_config config prompt_text)
                            rt w i initial))) ->
    endpoint = js "https://inference.jatevo.id/v1/chat/completions"
    /\ model = Settings.or_else (env (js "JATEVO_MODEL"))
                                (js "deepseek-ai/DeepSeek-R1-0528").
Proof.
  intros S2N env config pt rt w i endpoint model prompt L H.
  assert (M : Settings.jatevoModel config
              = Settings.or_else (env (js "JATEVO_MODEL"))
                                 (js "deepseek-ai/DeepSeek-R1-0528")).
  { unfold Settings.loadConfig in L.
    destruct (Settings.set_value (env (js "PRIVATE_KEY"))); [|discriminate L].
    destruct (Settings.set_value (env (js "JATEVO_API_KEY"))); [|discriminate L].
    inversion L. reflexivity. }
  rewrite <- M. clear M L.
  remember (Settings.handler_config config pt) as cfg eqn:C.
  assert (J : jatevoModel cfg = Settings.jatevoModel config) by (subst cfg; reflexivity).
  rewrite <- J. clear J C.
  destruct (handler_trace_cases cfg rt w i)
    as [T|(c & cs & _ & [(_ & T)|(_ & [T|[T|T]])])];
    cbn zeta in T; rewrite T in H; cbn [In] in H;
    repeat (destruct H as [H|H]; [try discriminate H|]);
    try contradiction H; inversion H; split; reflexivity.
Qed.

Lemma X4_witness_local_endpoint :
  exists config endpoint model prompt,
    Settings.loadConfig Samples.demo_number Samples.demo_env = Return config
    /\ Settings.jatevoApiEndpoint config = js "http://localhost:9000/v1"
    /\ nth_error
         (trace (snd (handler (Settings.handler_config config
                                 (prompt_text Demo.cfg))
                              Demo.rt (Demo.answering Demo.refusal)
                              Demo.input initial))) 2
       = Some (EvInference endpoint model prompt)
    /\ endpoint = js "https://inference.jatevo.id/v1/chat/completions"
    /\ model = js "deepseek-ai/DeepSeek-R1-0528".
Proof.
  destruct (Settings.loadConfig Samples.demo_number Samples.demo_env) as [config|e] eqn:L;
    [|vm_compute in L; discriminate L].
  destruct (nth_error
              (trace (snd (handler (Settings.handler_config config
                                      (prompt_text Demo.cfg))
                                   Demo.rt (Demo.answering Demo.refusal)
                                   Demo.input initial))) 2)
    as [[| |endpoint model prompt]|] eqn:E;
    try (vm_compute in L; inversion L; subst config; vm_compute in E;
         discriminate E).
  exists config, endpoint, model, prompt.
  split; [reflexivity|].
  split; [vm_compute in L; inversion L; reflexivity|].
  split; [exact E|].
  exact (X4_configured_endpoint_is_not_used Samples.demo_number Samples.demo_env config
           (prompt_text Demo.cfg) Demo.rt (Demo.answering Demo.refusal)
           Demo.input endpoint model prompt L (nth_error_In _ _ E)).
Defined.

(** ** The inference client *)

(** X5.  With an empty API key [callGLM46] throws "JATEVO_API_KEY is
    required", unwrapped, before anything else: the clock is not read and
    nothing is sent.  With a key it reads the clock and sends exactly one
    request.  When [fetch] rejects (the connection fails, or the timer
    fires first) it throws "Failed to call <model>: ..." without reading
    the clock again.  When the headers arrive in time it reads the clock a
    second time, and then returns the content of the first choice (an ok
    status and a body with a choice), or throws "Failed to call <model>:
    ...", or, when the body never arrives, stays pending. *)
Theorem X5_callGLM46_sends_one_request_or_none :
  forall (rt : Runtime) (clock : nat -> N) (u : Upstream)
         (prompt apiKey modelName endpoint : jsstring) (st : state),
    (nonempty apiKey = false
     /\ callGLM46 rt clock u prompt apiKey modelName endpoint st
        = (Throw (JsError (js "JATEVO_API_KEY is required")), st))
    \/ (nonempty apiKey = true
        /\ ((exists e msg,
               fetch_with_timeout rt u = Throw e
               /\ callGLM46 rt clock u prompt apiKey modelName endpoint st
                  = (Throw (JsError (js "Failed to call " ++ modelName
                                       ++ js ": " ++ msg)),
                     requested clock endpoint modelName prompt st))
            \/ (exists t r,
                  u = Answers t r /\ t < TIMEOUT_MS
                  /\ snd (callGLM46 rt clock u prompt apiKey modelName
                                    endpoint st)
                     = answered clock endpoint modelName prompt st
                  /\ ((exists ch chs,
                         r = {| ok := true;
                                body := Completion (Some (ch :: chs)) |}
                         /\ fst (callGLM46 rt clock u prompt apiKey modelName
                                           endpoint st)
                            = Return (content ch))
                      \/ (body r = Stalled
                          /\ fst (callGLM46 rt clock u prompt apiKey modelName
                                            endpoint st)
                             = Pending)
                      \/ (exists msg,
                            fst (callGLM46 rt clock u prompt apiKey modelName
                                           endpoint st)
                            = Throw (JsError (js "Failed to call " ++ modelName
                                                ++ js ": " ++ msg))))))).
Proof. exact callGLM46_cases. Qed.

(** X6.  What [callGLM46] reports for an answer whose headers arrive in
    time and whose body does not stall.  Whatever the status: a body that
    breaks off passes the message of that failure on; a body that is not
    JSON is reported as such; a body with an [error] member that is not
    null is reported with the message, code and type of that member; one
    whose [error] is null, or has no text, ends in a TypeError.  With an ok
    status: a body that is null, a boolean, a number or a string ends in
    the TypeError of ["error" in data]; a body without choices is "No
    response from <model> model"; a first choice without message or
    content ends in a TypeError.  With another status and no [error]
    member, reading [errorData.error.message] (on null: [errorData.error])
    ends in a TypeError.  A failed connection passes its message on, or
    "Unknown error".  Every one of them comes wrapped in "Failed to call
    <model>: ". *)
Theorem X6_callGLM46_failure_messages :
  forall (rt : Runtime) (clock : nat -> N) (t : N)
         (prompt apiKey modelName endpoint : jsstring) (st : state),
    nonempty apiKey = true ->
    t < TIMEOUT_MS ->
    let call r : promise jsstring :=
      fst (callGLM46 rt clock (Answers t r) prompt apiKey modelName
                     endpoint st) in
    let failed msg : promise jsstring :=
      Throw (JsError (js "Failed to call " ++ modelName ++ js ": " ++ msg)) in
    let type_error e := failed (type_error_message rt e) in
    (forall okr syntax_error,
       call {| ok := okr; body := NotJson syntax_error |}
       = failed (js "Failed to parse Jatevo API response as JSON: "
                   ++ syntax_error))
    /\ (forall okr e,
          call {| ok := okr; body := Interrupted e |}
          = failed (match e with
                    | JsError m => m
                    | NonError => js "Unknown error"
                    end))
    /\ (forall okr message code type,
          call {| ok := okr; body := ErrorBody message code type |}
          = failed (js "Jatevo API error: " ++ message ++ js " (Code: " ++ code
                      ++ js ", Type: " ++ type ++ js ")"))
    /\ (forall okr,
          call {| ok := okr; body := ErrorNull |}
          = type_error (MessageOfError Null))
    /\ (forall okr,
          call {| ok := okr; body := ErrorWithoutText |}
          = type_error TextOfError)
    /\ (forall data,
          call {| ok := true; body := Primitive data |}
          = type_error (InPrimitive data))
    /\ call {| ok := true; body := Completion None |}
       = failed (js "No response from " ++ modelName ++ js " model")
    /\ call {| ok := true; body := Completion (Some []) |}
       = failed (js "No response from " ++ modelName ++ js " model")
    /\ (forall x,
          call {| ok := true; body := Incomplete (NoChoice x) |}
          = type_error (MessageOfChoice x)
          /\ call {| ok := true; body := Incomplete (NoMessage x) |}
             = type_error (ContentOfMessage x)
          /\ call {| ok := true; body := Incomplete (NoContent x) |}
             = type_error (LengthOfContent x))
    /\ call {| ok := false; body := Primitive PNull |}
       = type_error ErrorOfNull
    /\ (forall data,
          data <> PNull ->
          call {| ok := false; body := Primitive data |}
          = type_error (MessageOfError Undefined))
    /\ (forall choices,
          call {| ok := false; body := Completion choices |}
          = type_error (MessageOfError Undefined))
    /\ (forall missing,
          call {| ok := false; body := Incomplete missing |}
          = type_error (MessageOfError Undefined))
    /\ (forall e,
          fst (callGLM46 rt clock (Fails t e) prompt apiKey modelName
                         endpoint st)
          = failed (match e with
                    | JsError m => m
                    | NonError => js "Unknown error"
                    end)).
Proof.
  intros rt clock t prompt apiKey modelName endpoint st K Ht call failed
         type_error.
  apply N.ltb_lt in Ht.
  assert (U : forall u,
            fst (callGLM46 rt clock u prompt apiKey modelName endpoint st)
            = match fetch_with_timeout rt u with
              | Return r =>
                  match read_answer rt modelName r with
                  | Settled (Return reply) => Settled (Return reply)
                  | Settled (Throw (JsError m)) => failed m
                  | Settled (Throw NonError) => failed (js "Unknown error")
                  | Pending => Pending
                  end
              | Throw (JsError m) => failed m
              | Throw NonError => failed (js "Unknown error")
              end).
  { intro u. rewrite callGLM46_unfold, K. unfold failed.
    destruct (fetch_with_timeout rt u) as [r|[m|]];
      [destruct (read_answer rt modelName r) as [[reply|[m|]]|]| |];
      cbn [rethrow throw fst]; rewrite <- ?app_assoc; reflexivity. }
  unfold call, type_error.
  repeat split; intros; rewrite U; cbn [fetch_with_timeout];
    rewrite ?Ht; unfold read_answer, TypeError; cbn [body ok negb];
    try reflexivity.
  - destruct e; reflexivity.
  - destruct data; try reflexivity. exfalso. apply H. reflexivity.
  - destruct e; reflexivity.
Qed.

Lemma X6_witness_error_body :
  fst (callGLM46 Demo.rt Demo.ticking
         (Answers 300 {| ok := true;
                         body := ErrorBody (js "Invalid API key") (js "401")
                                           (js "auth") |})
         (js "hello") (js "jk-test") (js "zai-glm-4.6") default_endpoint initial)
  = Throw (JsError (js "Failed to call zai-glm-4.6: Jatevo API error: Invalid API key (Code: 401, Type: auth)")).
Proof.
  destruct (X6_callGLM46_failure_messages Demo.rt Demo.ticking 300 (js "hello")
              (js "jk-test") (js "zai-glm-4.6") default_endpoint initial
              eq_refl eq_refl)
    as (_ & _ & H & _).
  exact (H true (js "Invalid API key") (js "401") (js "auth")).
Defined.

(** ** The handler *)

(** X7.  When CoinGecko gives no coin (it throws, or returns nothing or
    an empty list), the handler throws "Moodboard analysis failed: ..."
    right after that one call: the clock is not read and no inference
    request is sent. *)
Theorem X7_handler_stops_without_market_data :
  forall (cfg : Config) (rt : Runtime) (w : World) (i : Zod.Input),
    (forall c cs, coingecko w <> Return (Some (c :: cs))) ->
    exists msg,
      handler cfg rt w i initial
      = (Throw (JsError (js "Moodboard analysis failed: " ++ msg)),
         State 0 [EvGetTopCoins (Zod.limit i) (Zod.vs_currency i)])
      /\ msg = match coingecko w with
               | Throw (JsError m) => m
               | Throw NonError => js "Unknown error"
               | Return _ => js "No coin data received from CoinGecko"
               end.
Proof.
  intros cfg rt w i H. rewrite handler_unfold. cbn zeta.
  destruct (coingecko w) as [[[|c cs]|]|[m|]];
    try (eexists; split; reflexivity).
  exfalso. exact (H c cs eq_refl).
Qed.

Lemma X7_witness_empty_list :
  handler Demo.cfg Demo.rt
          {| clock := Demo.ticking; fetched := Return (Some []);
             upstream := Silent |}
          Demo.input initial
  = (Throw (JsError (js "Moodboard analysis failed: No coin data received from CoinGecko")),
     State 0 [EvGetTopCoins (number_of_Z 10) (js "usd")]).
Proof.
  destruct (X7_handler_stops_without_market_data Demo.cfg Demo.rt
              {| clock := Demo.ticking; fetched := Return (Some []);
                 upstream := Silent |}
              Demo.input)
    as (msg & E & M).
  - intros c cs. discriminate.
  - rewrite E, M. reflexivity.
Defined.

(** X8.  Whatever makes the handler throw, it throws an [Error] whose
    message starts with "Moodboard analysis failed: ".  A failure before
    the clock is read comes from the data fetch: what follows is the
    message of its error (of [getTopCoins], or of reading its rows),
    "Unknown error" when that was not an [Error], or "No coin data
    received from CoinGecko".  A failure after three readings of the clock
    comes from an empty API key: no request has gone out and what follows
    is "JATEVO_API_KEY is required".  Every other failure comes from the
    client after its one request: what follows is "Failed to call <model>:
    ...". *)
Theorem X8_handler_failures_are_wrapped :
  forall (cfg : Config) (rt : Runtime) (w : World) (i : Zod.Input)
         (e : thrown) (st : state),
    handler cfg rt w i initial = (Throw e, st) ->
    exists msg,
      e = JsError (js "Moodboard analysis failed: " ++ msg)
      /\ ((reads st = 0%nat
           /\ (forall c cs, coingecko w <> Return (Some (c :: cs)))
           /\ msg = match coingecko w with
                    | Throw (JsError m) => m
                    | Throw NonError => js "Unknown error"
                    | Return _ => js "No coin data received from CoinGecko"
                    end)
          \/ (reads st = 3%nat
              /\ nonempty (jatevoApiKey cfg) = false
              /\ filter is_inference (trace st) = []
              /\ msg = js "JATEVO_API_KEY is required")
          \/ ((reads st = 4%nat \/ reads st = 5%nat)
              /\ nonempty (jatevoApiKey cfg) = true
              /\ length (filter is_inference (trace st)) = 1%nat
              /\ exists cause,
                   msg = js "Failed to call " ++ jatevoModel cfg ++ js ": "
                         ++ cause)).
Proof.
  intros cfg rt w i e st H. rewrite handler_unfold in H. cbn zeta in H.
  destruct (coingecko w) as [[[|c cs]|]|[m|]] eqn:Hc;
    try (inversion H; eexists; split; [reflexivity|]; left;
         split; [reflexivity|]; split; [intros; discriminate | reflexivity]).
  rewrite callGLM46_unfold in H.
  destruct (nonempty (jatevoApiKey cfg)) eqn:K.
  - destruct (fetch_with_timeout rt (upstream w)) as [r|e1].
    + destruct (read_answer rt (jatevoModel cfg) r) as [[reply|e2]|];
        [discriminate H| |discriminate H].
      destruct (rethrow_wraps jsstring
                  (js "Failed to call " ++ jatevoModel cfg ++ js ": ") e2
                  (answered (clock w) default_endpoint (jatevoModel cfg)
                     (prompt_text cfg (Zod.limit i)
                        (join [10] (map (coin_line rt) (c :: cs)))
                        (before_first 84 (toISOString rt (clock w 0)))
                        (toISOString rt (clock w 1)))
                     (State 3 [EvNow (clock w 2); EvNow (clock w 1);
                               EvNow (clock w 0);
                               EvGetTopCoins (Zod.limit i) (Zod.vs_currency i)])))
        as (cause & E).
      rewrite E in H. inversion H; subst. eexists. split; [reflexivity|].
      right; right. split; [right; reflexivity|]. split; [reflexivity|].
      split; [reflexivity|]. exists cause. rewrite <- !app_assoc. reflexivity.
    + destruct (rethrow_wraps jsstring
                  (js "Failed to call " ++ jatevoModel cfg ++ js ": ") e1
                  (requested (clock w) default_endpoint (jatevoModel cfg)
                     (prompt_text cfg (Zod.limit i)
                        (join [10] (map (coin_line rt) (c :: cs)))
                        (before_first 84 (toISOString rt (clock w 0)))
                        (toISOString rt (clock w 1)))
                     (State 3 [EvNow (clock w 2); EvNow (clock w 1);
                               EvNow (clock w 0);
                               EvGetTopCoins (Zod.limit i) (Zod.vs_currency i)])))
        as (cause & E).
      rewrite E in H. inversion H; subst. eexists. split; [reflexivity|].
      right; right. split; [left; reflexivity|]. split; [reflexivity|].
      split; [reflexivity|]. exists cause. rewrite <- !app_assoc. reflexivity.
  - inversion H; subst. eexists. split; [reflexivity|].
    right; left. repeat split; reflexivity.
Qed.

Lemma X8_witness_silent_endpoint :
  exists msg,
    fst (handler Demo.cfg Demo.rt Demo.hanging Demo.input initial)
    = Throw (JsError (js "Moodboard analysis failed: " ++ msg)).
Proof.
  destruct (handler Demo.cfg Demo.rt Demo.hanging Demo.input initial)
    as [[[r|e]|] st] eqn:E.
  - vm_compute in E. discriminate E.
  - destruct (X8_handler_failures_are_wrapped Demo.cfg Demo.rt Demo.hanging
                Demo.input e st E) as (msg & M & _).
    exists msg. rewrite M. reflexivity.
  - vm_compute in E. discriminate E.
Defined.

(** X9.  In every invocation the first call to the outside is the one
    call to CoinGecko, with the [limit] and [vs_currency] of the input.
    At most one inference request follows, and only when CoinGecko
    returned a coin and the API key is set; it goes to the default
    endpoint, names the configured model, and its prompt is built from
    the first two readings of the clock. *)
Theorem X9_handler_calls_out_in_order :
  forall (cfg : Config) (rt : Runtime) (w : World) (i : Zod.Input),
  exists later,
    trace (snd (handler cfg rt w i initial))
    = later ++ [EvGetTopCoins (Zod.limit i) (Zod.vs_currency i)]
    /\ (forall l c, ~ In (EvGetTopCoins l c) later)
    /\ (length (filter is_inference later) <= 1)%nat
    /\ forall endpoint model prompt,
         In (EvInference endpoint model prompt) later ->
         endpoint = default_endpoint
         /\ model = jatevoModel cfg
         /\ nonempty (jatevoApiKey cfg) = true
         /\ (exists c cs, coingecko w = Return (Some (c :: cs)))
         /\ exists coinsSummary,
              prompt = prompt_text cfg (Zod.limit i) coinsSummary
                         (before_first 84 (toISOString rt (clock w 0)))
                         (toISOString rt (clock w 1)).
Proof.
  intros cfg rt w i.
  destruct (handler_trace_cases cfg rt w i)
    as [T|(c & cs & Hc & [(K & T)|(K & [T|[T|T]])])];
    cbn zeta in T; rewrite T.
  - exists []. split; [reflexivity|].
    split; [intros l c []|]. split; [cbn; lia|]. intros ? ? ? [].
  - exists [EvNow (clock w 2); EvNow (clock w 1); EvNow (clock w 0)].
    split; [reflexivity|].
    split; [intros l c' [H|[H|[H|[]]]]; discriminate H|].
    split; [cbn; lia|].
    intros ? ? ? [H|[H|[H|[]]]]; discriminate H.
  - eexists (EvInference _ _ _
               :: [EvNow (clock w 3); EvNow (clock w 2); EvNow (clock w 1);
                   EvNow (clock w 0)]).
    split; [reflexivity|].
    split; [intros l c' [H|[H|[H|[H|[H|[]]]]]]; discriminate H|].
    split; [cbn; lia|].
    intros ? ? ? [H|[H|[H|[H|[H|[]]]]]]; try discriminate H.
    inversion H; subst. repeat split; auto.
    + exists c, cs. exact Hc.
    + eexists. reflexivity.
  - eexists (EvNow _ :: EvInference _ _ _
               :: [EvNow (clock w 3); EvNow (clock w 2); EvNow (clock w 1);
                   EvNow (clock w 0)]).
    split; [reflexivity|].
    split; [intros l c' [H|[H|[H|[H|[H|[H|[]]]]]]]; discriminate H|].
    split; [cbn; lia|].
    intros ? ? ? [H|[H|[H|[H|[H|[H|[]]]]]]]; try discriminate H.
    inversion H; subst. repeat split; auto.
    + exists c, cs. exact Hc.
    + eexists. reflexivity.
  - eexists (EvNow _ :: EvNow _ :: EvInference _ _ _
               :: [EvNow (clock w 3); EvNow (clock w 2); EvNow (clock w 1);
                   EvNow (clock w 0)]).
    split; [reflexivity|].
    split; [intros l c' [H|[H|[H|[H|[H|[H|[H|[]]]]]]]]; discriminate H|].
    split; [cbn; lia|].
    intros ? ? ? [H|[H|[H|[H|[H|[H|[H|[]]]]]]]]; try discriminate H.
    inversion H; subst. repeat split; auto.
    + exists c, cs. exact Hc.
    + eexists. reflexivity.
Qed.

(** X10.  When the handler returns, the clock has been read six times:
    three times by the handler before the call, twice by the client
    (before [fetch] and after it), and once more by the handler.
    [analysis_duration_ms] is the sixth reading less the third: the time
    around the whole call of the client.  It is negative when the clock
    went back in between. *)
Theorem X10_analysis_duration_spans_the_inference_call :
  forall (cfg : Config) (rt : Runtime) (w : World) (i : Zod.Input)
         (r : Result) (st : state),
    handler cfg rt w i initial = (Return r, st) ->
    analysis_duration_ms (output r)
    = (Z.of_N (clock w 5) - Z.of_N (clock w 2))%Z
    /\ (clock w 2 <= clock w 5 -> (0 <= analysis_duration_ms (output r))%Z)
    /\ (clock w 5 < clock w 2 -> (analysis_duration_ms (output r) < 0)%Z)
    /\ reads st = 6%nat
    /\ exists request,
         is_inference request = true
         /\ trace st
            = [EvNow (clock w 5); EvNow (clock w 4); request; EvNow (clock w 3);
               EvNow (clock w 2); EvNow (clock w 1); EvNow (clock w 0);
               EvGetTopCoins (Zod.limit i) (Zod.vs_currency i)].
Proof.
  intros cfg rt w i r st H. apply handler_returns in H.
  destruct H as (c & cs & t & ch & chs & _ & _ & _ & _ & Hr & Hst).
  cbn zeta in Hr, Hst. subst r st. cbn [output analysis_duration_ms reads trace].
  split; [reflexivity|]. split; [lia|]. split; [lia|]. split; [reflexivity|].
  eexists. split; [|reflexivity]. reflexivity.
Qed.

Lemma X10_witness_ticking_clock :
  exists r st,
    handler Demo.cfg Demo.rt (Demo.answering Demo.refusal) Demo.input initial
    = (Return r, st)
    /\ analysis_duration_ms (output r) = 1500%Z.
Proof.
  destruct (handler Demo.cfg Demo.rt (Demo.answering Demo.refusal) Demo.input
                    initial) as [[[r|e]|] st] eqn:E;
    [|vm_compute in E; discriminate E..].
  exists r, st. split; [reflexivity|].
  destruct (X10_analysis_duration_spans_the_inference_call _ _ _ _ r st E)
    as (D & _).
  rewrite D. reflexivity.
Defined.

(** X11.  The entrypoint declares [moodboardOutputSchema] as its output,
    and no value the handler returns conforms to it: neither the returned
    object nor its [output] has a [coins] property (the coins are inside
    [parsed_data]). *)
Theorem X11_handler_output_is_not_a_moodboard :
  forall (r : Result),
    Zod.moodboardOutputSchema (Some (output_value (output r))) = None
    /\ Zod.moodboardOutputSchema (Some (result_value r)) = None
    /\ get (js "coins") (match output_value (output r) with
                         | JObj o => o
                         | _ => []
                         end) = None.
Proof.
  intro r. repeat split; reflexivity.
Qed.

(** ** The schemas *)

(** X12.  What [moodboardOutputSchema] accepts is an object with string
    [date] and [analyzed_at], a [market_sentiment] that is a string or
    absent, and a [coins] array with at least one element; every element
    is an object with non-empty [symbol], [mood] and [narrative], a
    [score] from 0 to 1, and [price_change_24h] and [market_cap_rank]
    that are numbers or absent. *)
Theorem X12_accepted_moodboard_is_well_formed :
  forall (v : option value) (m : Zod.MoodboardOutput),
    Zod.moodboardOutputSchema v = Some m ->
    exists o l,
      v = Some (JObj o)
      /\ get (js "date") o = Some (JStr (Zod.date m))
      /\ get (js "analyzed_at") o = Some (JStr (Zod.analyzed_at m))
      /\ get (js "market_sentiment") o
         = option_map JStr (Zod.market_sentiment m)
      /\ get (js "coins") o = Some (JArr l)
      /\ (1 <= length (Zod.coins m))%nat
      /\ Forall2 coin_conforms l (Zod.coins m).
Proof.
  intros v m H.
  destruct (moodboardOutputSchema_fields v m H)
    as (o & l & E & D & C & P & N & S & A).
  exists o, l. repeat split; try assumption.
  - apply parse_all_sound in P. apply Forall2_length in P.
    destruct l; [contradiction|]. rewrite <- P. cbn. lia.
  - apply parse_all_sound. exact P.
Qed.

Lemma X12_witness_conforming_object :
  exists m,
    Zod.moodboardOutputSchema (Some (JObj Demo.conforming)) = Some m
    /\ (1 <= length (Zod.coins m))%nat.
Proof.
  destruct (Zod.moodboardOutputSchema (Some (JObj Demo.conforming)))
    as [m|] eqn:E; [|vm_compute in E; discriminate E].
  exists m. split; [reflexivity|].
  destruct (X12_accepted_moodboard_is_well_formed _ m E)
    as (o & l & _ & _ & _ & _ & _ & L & _).
  exact L.
Defined.

(** X13.  The correction of the dates keeps an object conforming: when
    the parsed reply conforms to [moodboardOutputSchema], so does the
    corrected object, with the same coins and sentiment and with the
    non-empty dates replaced. *)
Theorem X13_restamp_preserves_conformance :
  forall (o : object) (m : Zod.MoodboardOutput) (d t : jsstring),
    Zod.moodboardOutputSchema (Some (JObj o)) = Some m ->
    Zod.moodboardOutputSchema (Some (JObj (restamp d t o)))
    = Some {| Zod.date := if nonempty (Zod.date m) then d else Zod.date m;
              Zod.coins := Zod.coins m;
              Zod.market_sentiment := Zod.market_sentiment m;
              Zod.analyzed_at :=
                if nonempty (Zod.analyzed_at m) then t else Zod.analyzed_at m |}.
Proof.
  intros o m d t H.
  destruct (moodboardOutputSchema_fields _ m H)
    as (o' & l & E & D & C & P & N & S & A).
  inversion E; subst o'; clear E.
  destruct (restamp_fields d t o) as (RD & RA & RK & _).
  rewrite D in RD. rewrite A in RA. cbn [truthy] in RD, RA.
  unfold Zod.moodboardOutputSchema, Zod.field.
  rewrite RD, RA.
  rewrite (RK (js "coins")) by discriminate.
  rewrite (RK (js "market_sentiment")) by discriminate.
  rewrite C, S.
  unfold Zod.z_array_min, Zod.z_array. rewrite P.
  assert (L : Nat.leb 1 (length (Zod.coins m)) = true).
  { destruct (Zod.coins m) eqn:Q; [|reflexivity].
    destruct l; [contradiction|]. cbn [Zod.parse_all] in P.
    destruct (Zod.coinMoodSchema (Some v)); [|discriminate P].
    destruct (Zod.parse_all Zod.coinMoodSchema l); discriminate P. }
  rewrite L.
  destruct (nonempty (Zod.date m)); destruct (nonempty (Zod.analyzed_at m));
    destruct (Zod.market_sentiment m); reflexivity.
Qed.

Lemma X13_witness_conforming_object :
  exists m,
    Zod.moodboardOutputSchema
      (Some (JObj (restamp Demo.today Demo.this_instant Demo.conforming)))
    = Some m
    /\ Zod.date m = Demo.today.
Proof.
  destruct (Zod.moodboardOutputSchema (Some (JObj Demo.conforming)))
    as [m|] eqn:E; [|vm_compute in E; discriminate E].
  eexists. split.
  - exact (X13_restamp_preserves_conformance Demo.conforming m Demo.today
             Demo.this_instant E).
  - vm_compute in E. inversion E. reflexivity.
Defined.

(** X14.  The input schema accepts a body exactly when it is an object
    whose [limit] is absent or a number from 1 to 50 and whose
    [vs_currency] is absent or a string; what it returns has the values
    of the body, 10 for an absent [limit] and "usd" for an absent
    [vs_currency].  Other properties of the body are ignored. *)
Theorem X14_input_schema_accepts_exactly :
  forall (requestBody : value) (i : Zod.Input),
    Zod.input_schema (Some requestBody) = Some i
    <-> exists o,
          requestBody = JObj o
          /\ match get (js "limit") o with
             | None => Zod.limit i = number_of_Z 10
             | Some x =>
                 x = JNum (Zod.limit i)
                 /\ (1 <= number_to_Q (Zod.limit i))%Q
                 /\ (number_to_Q (Zod.limit i) <= 50)%Q
             end
          /\ match get (js "vs_currency") o with
             | None => Zod.vs_currency i = js "usd"
             | Some x => x = JStr (Zod.vs_currency i)
             end.
Proof.
  intros body i. split.
  - intro H. unfold Zod.input_schema in H.
    destruct body as [| | | | |o]; try discriminate H. unfold Zod.field in H.
    destruct (Zod.limit_schema (get (js "limit") o)) as [l|] eqn:L;
      [|discriminate H].
    destruct (Zod.vs_currency_schema (get (js "vs_currency") o)) as [c|] eqn:C;
      [|discriminate H].
    inversion H; subst i; clear H. cbn [Zod.limit Zod.vs_currency].
    exists o. split; [reflexivity|].
    destruct (limit_schema_accepts _ _ L) as (L1 & L2 & L3).
    split.
    + destruct (get (js "limit") o); [repeat split; assumption | exact L3].
    + unfold Zod.vs_currency_schema, Zod.z_default, Zod.z_optional,
        Zod.z_string, option_map in C.
      destruct (get (js "vs_currency") o) as [[| | |s| |]|];
        try discriminate C; inversion C; reflexivity.
  - intros (o & E & L & C). subst body. destruct i as [l c].
    cbn [Zod.limit Zod.vs_currency] in L, C.
    unfold Zod.input_schema, Zod.field.
    assert (HL : Zod.limit_schema (get (js "limit") o) = Some l).
    { destruct (get (js "limit") o) as [x|].
      - destruct L as (X & L1 & L2). subst x.
        change (number_to_Q (number_of_Z 1) <= number_to_Q l)%Q in L1.
        change (number_to_Q l <= number_to_Q (number_of_Z 50))%Q in L2.
        apply number_leb_le in L1, L2.
        unfold Zod.limit_schema, Zod.z_default, Zod.z_optional, Zod.z_max,
          Zod.z_min, Zod.z_number, option_map.
        rewrite L1, L2. reflexivity.
      - subst l. reflexivity. }
    assert (HC : Zod.vs_currency_schema (get (js "vs_currency") o) = Some c).
    { destruct (get (js "vs_currency") o) as [x|]; subst; reflexivity. }
    rewrite HL, HC. reflexivity.
Qed.

(** ** The consistency script *)

(** X15.  Every result of [runSingleTest] carries the number of the
    attempt and the time since the trial started.  A success has status
    200 (whatever 2xx status the answer had), no error, and both flags,
    where [validated] is never true together with [hasRawResponse]; a
    failure has an error and neither flag. *)
Theorem X15_every_result_is_complete :
  forall (msg : jsstring) (n : nat) (t : Trial),
    attempt (runSingleTest msg n t) = n
    /\ responseTime (runSingleTest msg n t) = elapsed t
    /\ result_shape (runSingleTest msg n t)
    /\ (success (runSingleTest msg n t) = true ->
        exists a, paidResponse t = Return a /\ http_ok a = true
                  /\ status (runSingleTest msg n t) = 200).
Proof.
  intros msg n t.
  destruct (runSingleTest_attempt msg n t) as (A & B).
  split; [exact A|]. split; [exact B|].
  split; [apply runSingleTest_shape|].
  intro S. pose proof (runSingleTest_shape msg n t) as Sh.
  unfold result_shape in Sh. rewrite S in Sh. destruct Sh as (St & _).
  apply runSingleTest_success in S.
  destruct S as (_ & _ & a & pb & P & O & _).
  exists a. auto.
Qed.

(** X16.  A run has five results; a result is never counted both as
    validated and as a raw response, and only successes are counted as
    either: validatedCount + rawResponseCount <= successCount <= 5. *)
Theorem X16_run_counts_are_consistent :
  forall (msg : jsstring) (trials : nat -> Trial),
    length (runTrials msg trials) = 5%nat
    /\ (validatedCount (runTrials msg trials)
        + rawResponseCount (runTrials msg trials)
        <= successCount (runTrials msg trials))%nat
    /\ (successCount (runTrials msg trials) <= 5)%nat.
Proof.
  intros msg trials. split; [reflexivity|]. split.
  - unfold validatedCount, rawResponseCount, successCount.
    apply count_le. intros r Hr.
    unfold runTrials in Hr. apply in_map_iff in Hr.
    destruct Hr as (i & E & _). subst r.
    pose proof (runSingleTest_shape msg i (trials i)) as Sh.
    unfold result_shape, counts_validated in *.
    destruct (success (runSingleTest msg i (trials i))).
    + destruct Sh as (_ & _ & raw & v & R & V & RV). rewrite R, V.
      split; [reflexivity|]. split; [reflexivity|].
      intros Hv Hraw. destruct raw; [|discriminate Hraw].
      destruct v; [|discriminate Hv]. specialize (RV eq_refl). discriminate RV.
    + destruct Sh as (R & _). rewrite R.
      repeat split; intros; discriminate.
  - unfold successCount.
    change 5%nat with (length (runTrials msg trials)). apply filter_length_le.
Qed.

(** X17.  When the results with a positive response time are exactly the
    successful ones, and there is at least one, the reported average is
    the mean response time of the successful trials. *)
Theorem X17_average_is_the_mean_when_only_successes_take_time :
  forall (results : list TestResult),
    (0 < successCount results)%nat ->
    (forall r, In r results -> success r = (0 <? responseTime r)%Z) ->
    avgResponseTime results = Finite (mean_of_successful results).
Proof.
  intros results P H.
  rewrite (avgResponseTime_sums_every_trial results P).
  unfold mean_of_successful.
  rewrite (filter_same _ (fun r => (0 <? responseTime r)%Z) success results).
  - reflexivity.
  - intros r Hr. symmetry. apply H. exact Hr.
Qed.

Lemma X17_witness_five_successes :
  avgResponseTime (runTrials Demo.null_message Demo.all_raw) = Finite (500 # 5).
Proof.
  rewrite (X17_average_is_the_mean_when_only_successes_take_time
             (runTrials Demo.null_message Demo.all_raw)).
  - reflexivity.
  - vm_compute. lia.
  - intros r Hr. vm_compute in Hr.
    repeat (destruct Hr as [Hr|Hr]; [subst r; reflexivity|]). destruct Hr.
Defined.

(** X18.  One trial whose paid answer carries an output of the shape the
    handler returns (an [output] with a [raw_response]) is enough for the
    script to exit with 1, whatever the other trials do. *)
Theorem X18_raw_output_fails_the_run :
  forall (out : Output) (msg : jsstring) (trials : nat -> Trial) (n : nat)
         (a : Answer) (body : object),
    In n trial_numbers ->
    paidResponse (trials n) = Return a ->
    JSON_parse (text a) = Some (JObj body) ->
    get (js "output") body = Some (output_value out) ->
    runConsistencyTest msg trials = 1.
Proof.
  intros out msg trials n a body Hn P J O.
  unfold runConsistencyTest.
  assert (E : exitCode (runTrials msg trials) = 0
              \/ exitCode (runTrials msg trials) = 1).
  { unfold exitCode.
    destruct (Nat.eqb _ 5 && Nat.eqb _ 5); [left; reflexivity|].
    right. destruct (Nat.eqb _ 5 && Nat.ltb 0 _); reflexivity. }
  destruct E as [E|E]; [|exact E]. exfalso.
  pose proof (proj1 (exitCode_zero (runTrials msg trials) eq_refl) E) as E'.
  destruct (E' (runSingleTest msg n (trials n))) as (S & V).
  { unfold runTrials. apply in_map_iff. exists n. split; [reflexivity|exact Hn]. }
  apply V. clear V E E'.
  destruct (body_carrying_output_is_raw body out O) as (_ & B).
  unfold runSingleTest in *.
  destruct (initialStatus (trials n)) as [s0|e]; [|discriminate S].
  destruct (negb (N.eqb s0 402)); [discriminate S|].
  destruct (paymentHeader (trials n)) as [u|e]; [|discriminate S].
  rewrite P in *. rewrite J in *.
  destruct (negb (http_ok a)); [discriminate S|].
  cbn [validated]. rewrite B. reflexivity.
Qed.

Lemma X18_witness_third_trial :
  runConsistencyTest Demo.null_message
    (fun n => if Nat.eqb n 3
              then Demo.paid_trial 200
                     (JSON_stringify (result_value Samples.refusal_result))
              else Demo.paid_trial 200 (jsq "{'output':{'coins':[]}}"))
  = 1.
Proof.
  apply (X18_raw_output_fails_the_run Samples.refusal_output Demo.null_message _ 3%nat
           {| http_status := 200;
              text := JSON_stringify (result_value Samples.refusal_result) |}
           (result_fields Samples.refusal_result)).
  - cbn. auto.
  - reflexivity.
  - vm_compute. reflexivity.
  - reflexivity.
Defined.

(** X19.  When no trial succeeded the reported average is not a mean: it
    is [Infinity] as soon as one trial took a positive time ([|| 0] only
    replaces [NaN]), and 0 otherwise. *)
Theorem X19_average_without_a_success :
  forall (results : list TestResult),
    successCount results = 0%nat ->
    (avgResponseTime results = Infinity
     <-> exists r, In r results /\ (0 < responseTime r)%Z)
    /\ (avgResponseTime results = Finite 0
        <-> forall r, In r results -> (responseTime r <= 0)%Z).
Proof.
  intros results S. unfold avgResponseTime. rewrite S.
  destruct (timeSum_positive results) as (P0 & P).
  destruct (0 <? timeSum results)%Z eqn:E.
  - apply Z.ltb_lt in E. split.
    + split; [intros _; apply P; exact E | reflexivity].
    + split; [discriminate|]. intro H. exfalso.
      apply P in E. destruct E as (r & Hr & Pr). specialize (H r Hr). lia.
  - apply Z.ltb_ge in E. split.
    + split; [discriminate|]. intro H. apply P in H. lia.
    + split; [|reflexivity]. intros _ r Hr.
      destruct (Z_lt_le_dec 0 (responseTime r)) as [L|L]; [|exact L].
      assert (0 < timeSum results)%Z by (apply P; exists r; auto). lia.
Qed.

Lemma X19_witness_five_refused_connections :
  avgResponseTime
    (runTrials Demo.null_message
       (fun _ => {| startTime := 1793613600000;
                    endTime := 1793613600040;
                    initialStatus := Throw (JsError (js "Connection refused"));
                    paymentHeader := Return tt;
                    paidResponse := Throw NonError |}))
  = Infinity.
Proof.
  apply (X19_average_without_a_success
           (runTrials Demo.null_message
              (fun _ => {| startTime := 1793613600000;
                           endTime := 1793613600040;
                           initialStatus :=
                             Throw (JsError (js "Connection refused"));
                           paymentHeader := Return tt;
                           paidResponse := Throw NonError |}))
           eq_refl).
  eexists. split; [left; reflexivity|]. vm_compute. reflexivity.
Defined.

(** ** The request of the inference client *)

(** X20.  Whatever the prompt and the model name contain (quotes,
    backslashes, line breaks, lone surrogates), the body [callGLM46] sends
    is JSON text that reads back as the request object itself: the model,
    the system message and the sampling parameters are as written in the
    source, and the user message is the prompt, unchanged. *)
Theorem X20_request_payload_decodes_to_the_request :
  forall (apiKey modelName prompt : jsstring),
    let init := Request.request_init apiKey modelName prompt in
    JSON_parse (Request.payload init)
    = Some (Request.requestBody modelName prompt)
    /\ (forall body,
          JSON_parse (Request.payload init) = Some (JObj body) ->
          get (js "model") body = Some (JStr modelName)
          /\ member_opt "content"
               (Request.element 1 (get (js "messages") body))
             = Some (JStr prompt)
          /\ member_opt "content"
               (Request.element 0 (get (js "messages") body))
             = Some (JStr Request.system_content)
          /\ map fst body
             = map js ["model"; "messages"; "stop"; "stream"; "top_p";
                       "max_tokens"; "temperature"; "presence_penalty";
                       "frequency_penalty"]%string)
    /\ Request.headers init
       = [ (js "Authorization", js "Bearer " ++ apiKey);
           (js "Content-Type", js "application/json") ].
Proof.
  intros apiKey modelName prompt init.
  assert (P : JSON_parse (Request.payload init)
              = Some (Request.requestBody modelName prompt)).
  { unfold init, Request.request_init. cbn [Request.payload].
    apply parse_stringify. vm_compute. reflexivity. }
  split; [exact P|]. split; [|reflexivity].
  intros body H. rewrite P in H. inversion H; subst body; clear H.
  repeat split; reflexivity.
Qed.

(** ** The clean-up and the search for the object *)

(** X21.  The pattern finds nothing exactly when the cleaned reply has
    no opening brace with a closing brace somewhere after it; the handler
    is then left with [parsedResponse = null] and the reply as it came.
    What the pattern finds is always a span of the cleaned reply that
    starts at its first opening brace and ends at its last closing brace. *)
Theorem X21_reply_without_braces_is_left_raw :
  forall (response currentDate currentTimestamp : jsstring),
    (jsonMatch (clean response) = None
     <-> forall x y z, clean response <> x ++ 123 :: y ++ 125 :: z)
    /\ (jsonMatch (clean response) = None ->
        normalize response currentDate currentTimestamp = (JNull, response))
    /\ forall m,
         jsonMatch (clean response) = Some m ->
         exists a b c,
           clean response = a ++ m ++ c /\ m = 123 :: b ++ [125]
           /\ ~ In 123 a /\ ~ In 125 c.
Proof.
  intros response d t. split; [apply jsonMatch_none|]. split.
  - intro H. unfold normalize. rewrite H. reflexivity.
  - intros m H. destruct (jsonMatch_some _ _ H) as (a & b & c & S & M & Ha & Hc).
    exists a, b, c. subst m. repeat split; try assumption.
    rewrite S. cbn [app]. rewrite <- app_assoc. reflexivity.
Qed.

(** X22.  After the two replacements and [trim], no three backticks in a
    row are left anywhere in the text, and it neither starts nor ends with
    white space. *)
Theorem X22_clean_leaves_no_fence_and_no_margin :
  forall (response : jsstring),
    contains_fence (clean response) = false
    /\ is_trimmed (clean response) = true
    /\ forall a b, clean response <> a ++ js "```" ++ b.
Proof.
  intro response. split; [apply clean_no_fence|].
  split; [unfold clean; apply String_trim_is_trimmed|].
  intros a b E. pose proof (clean_no_fence response) as F.
  assert (T : contains_fence (clean response) = true).
  { apply contains_fence_iff. exists a, b. exact E. }
  congruence.
Qed.

(** X23.  Cleaning a cleaned reply changes nothing, so a reply and its
    cleaned form give the same [parsed_data]. *)
Theorem X23_clean_is_idempotent :
  forall (response currentDate currentTimestamp : jsstring),
    clean (clean response) = clean response
    /\ fst (normalize (clean response) currentDate currentTimestamp)
       = fst (normalize response currentDate currentTimestamp).
Proof.
  intros response d t. split; [apply clean_clean|].
  unfold normalize. rewrite clean_clean.
  destruct (jsonMatch (clean response)) as [m|]; [|reflexivity].
  destruct (JSON_parse m) as [[| | | | |o]|]; reflexivity.
Qed.

(** ** The normalisation step, whatever the reply *)

(** X24.  The step has two outcomes.  Either nothing could be read, and
    then [parsedResponse] is [null] and [correctedResponse] is the reply;
    or [parsedResponse] is an object (never an array, a string, a number
    or a boolean) in the form [JSON.parse] gives an object, and
    [correctedResponse] is its JSON text. *)
Theorem X24_parsed_data_is_null_or_an_object :
  forall (response currentDate currentTimestamp : jsstring),
    (parse_fails response = true
     /\ normalize response currentDate currentTimestamp = (JNull, response))
    \/ (parse_fails response = false
        /\ exists o,
             normalize response currentDate currentTimestamp
             = (JObj o, JSON_stringify (JObj o))
             /\ wf (JObj o) = true).
Proof. exact normalize_shape. Qed.

(** X25.  In every returned value, [corrected_response] is the raw reply
    when [parsed_data] is [null]; otherwise it is the JSON text of
    [parsed_data], which [JSON.parse] reads again; and when no number in
    [parsed_data] is zero or outside the range of the doubles, what it
    reads is [parsed_data] itself. *)
Theorem X25_corrected_response_parses_back :
  forall (cfg : Config) (rt : Runtime) (w : World) (i : Zod.Input)
         (r : Result) (st : state),
    handler cfg rt w i initial = (Return r, st) ->
    match parsed_data (output r) with
    | JNull => corrected_response (output r) = raw_response (output r)
    | parsed =>
        corrected_response (output r) = JSON_stringify parsed
        /\ (exists again, JSON_parse (corrected_response (output r)) = Some again)
        /\ (every_number finite_nonzero parsed = true ->
            JSON_parse (corrected_response (output r)) = Some parsed)
    end.
Proof.
  intros cfg rt w i r st H. apply handler_returns in H.
  destruct H as (c & cs & t & ch & chs & _ & _ & _ & _ & Hr & _).
  cbn zeta in Hr. subst r.
  cbn [output parsed_data corrected_response raw_response].
  destruct (normalize_shape (content ch)
              (before_first 84 (toISOString rt (clock w 0)))
              (toISOString rt (clock w 1)))
    as [(_ & N)|(_ & o & N & W)]; rewrite N; cbn [fst snd].
  - reflexivity.
  - split; [reflexivity|].
    split; [eexists|intros _]; apply parse_stringify; exact W.
Qed.

Lemma X25_witness_scored_reply :
  exists r st,
    handler Demo.cfg Demo.rt (Demo.answering Samples.scored_reply) Demo.input
            initial = (Return r, st)
    /\ JSON_parse (corrected_response (output r))
       = Some (JObj [ (js "date", JStr Demo.today);
                      (js "coins",
                       JArr [JObj [ (js "symbol", JStr (js "BTC"));
                                    (js "score", JNum (Number false [6; 5] 0));
                                    (js "price_change_24h",
                                     JNum (Number true [2; 0; 9] 1)) ]]) ]).
Proof.
  destruct (handler Demo.cfg Demo.rt (Demo.answering Samples.scored_reply)
                    Demo.input initial) as [[[r|e]|] st] eqn:E;
    [|vm_compute in E; discriminate E..].
  exists r, st. split; [reflexivity|].
  pose proof (X25_corrected_response_parses_back _ _ _ _ r st E) as H.
  assert (P : parsed_data (output r)
              = JObj [ (js "date", JStr Demo.today);
                       (js "coins",
                        JArr [JObj [ (js "symbol", JStr (js "BTC"));
                                     (js "score", JNum (Number false [6; 5] 0));
                                     (js "price_change_24h",
                                      JNum (Number true [2; 0; 9] 1)) ]]) ]).
  { vm_compute in E. inversion E. reflexivity. }
  rewrite P in H. destruct H as (_ & _ & H). apply H.
  vm_compute. reflexivity.
Defined.

(** X26.  When an object was read, no number in it is zero or outside
    the range of the doubles, and its corrected text has no three
    backticks in a row, running the step again on the corrected text, with
    the same timestamps, gives the same [parsed_data] and the same
    [corrected_response]. *)
Theorem X26_corrected_response_is_a_fixed_point :
  forall (response currentDate currentTimestamp : jsstring) (o : object),
    fst (normalize response currentDate currentTimestamp) = JObj o ->
    every_number finite_nonzero (JObj o) = true ->
    contains_fence (snd (normalize response currentDate currentTimestamp))
    = false ->
    normalize (snd (normalize response currentDate currentTimestamp))
              currentDate currentTimestamp
    = normalize response currentDate currentTimestamp.
Proof.
  intros response d t o Ho _ F.
  destruct (normalize_cases response d t) as [(_ & N)|(m & o0 & _ & P & N)];
    rewrite N in *; cbn [fst snd] in *; [discriminate Ho|].
  assert (W : wf (JObj (restamp d t o0)) = true).
  { apply restamp_wf. exact (JSON_parse_wf _ _ P). }
  rewrite (normalize_object_text _ (restamp d t o0) d t W).
  - rewrite restamp_twice. reflexivity.
  - change (JSON_stringify (JObj (restamp d t o0)))
      with (123 :: join (js ",")
                     (map (fun kv => quote (fst kv) ++ js ":"
                                       ++ JSON_stringify (snd kv))
                          (restamp d t o0)) ++ [125]) in *.
    apply clean_bare. exact F.
Qed.

Lemma X26_witness_fenced_reply :
  normalize (snd (normalize (fenced_json Samples.scored_reply)
                            Demo.today Demo.this_instant))
            Demo.today Demo.this_instant
  = normalize (fenced_json Samples.scored_reply) Demo.today Demo.this_instant.
Proof.
  apply (X26_corrected_response_is_a_fixed_point
           (fenced_json Samples.scored_reply) Demo.today Demo.this_instant
           [ (js "date", JStr Demo.today);
             (js "coins",
              JArr [JObj [ (js "symbol", JStr (js "BTC"));
                           (js "score", JNum (Number false [6; 5] 0));
                           (js "price_change_24h",
                            JNum (Number true [2; 0; 9] 1)) ]]) ]).
  - vm_compute. reflexivity.
  - vm_compute. reflexivity.
  - vm_compute. reflexivity.
Defined.

(** X27.  scripts/test-jatevo-full.ts parses the cleaned content whole.
    Whenever that gives an object, the handler's search for braces finds
    the whole cleaned content, and the handler reads the same object (and
    then corrects its dates). *)
Theorem X27_what_the_script_parses_the_handler_parses :
  forall (content currentDate currentTimestamp : jsstring) (o : object),
    parse_cleaned content = Some (JObj o) ->
    parse_fails content = false
    /\ normalize content currentDate currentTimestamp
       = (JObj (restamp currentDate currentTimestamp o),
          JSON_stringify (JObj (restamp currentDate currentTimestamp o))).
Proof.
  intros content d t o P. unfold parse_cleaned in P.
  assert (T : is_trimmed (clean content) = true).
  { unfold clean. apply String_trim_is_trimmed. }
  pose proof (trimmed_object_text _ _ T P) as M.
  unfold parse_fails, normalize. rewrite M, P. auto.
Qed.

Lemma X27_witness_fenced_reply :
  fst (normalize (fenced_json Demo.stale_dates) Demo.today Demo.this_instant)
  = JObj [ (js "date", JStr Demo.today); (js "coins", JArr []);
           (js "analyzed_at", JStr Demo.this_instant) ].
Proof.
  destruct (X27_what_the_script_parses_the_handler_parses
              (fenced_json Demo.stale_dates) Demo.today Demo.this_instant
              [ (js "date", JStr (js "1999-12-31")); (js "coins", JArr []);
                (js "analyzed_at", JStr (js "yesterday")) ]
              eq_refl) as (_ & E).
  rewrite E. reflexivity.
Defined.

(** The converse fails: with prose around the object the parse of the
    script throws, and the handler still reads the object. *)
Example handler_reads_more_than_the_script :
  parse_cleaned (js "Here you go: " ++ Demo.stale_dates) = None
  /\ parse_fails (js "Here you go: " ++ Demo.stale_dates) = false.
Proof. split; vm_compute; reflexivity. Qed.

(** ** What the date correction leaves alone *)

(** X28.  When [parsed_data] is an object, it is the object that
    [JSON.parse] read from the braces of the cleaned reply, with the same
    properties in the same order and the same value under every property
    other than [date] and [analyzed_at]; each of these two either keeps
    the value that was read or holds the date, respectively the
    timestamp, of this run. *)
Theorem X28_correction_touches_only_the_two_dates :
  forall (cfg : Config) (rt : Runtime) (w : World) (i : Zod.Input)
         (r : Result) (st : state) (o : object),
    handler cfg rt w i initial = (Return r, st) ->
    parsed_data (output r) = JObj o ->
    exists m read,
      jsonMatch (clean (raw_response (output r))) = Some m
      /\ JSON_parse m = Some (JObj read)
      /\ map fst o = map fst read
      /\ (forall k, k <> js "date" -> k <> js "analyzed_at" ->
                    get k o = get k read)
      /\ (get (js "date") o = get (js "date") read
          \/ get (js "date") o = Some (JStr (date (output r))))
      /\ (get (js "analyzed_at") o = get (js "analyzed_at") read
          \/ get (js "analyzed_at") o = Some (JStr (analyzed_at (output r)))).
Proof.
  intros cfg rt w i r st o H P. apply handler_returns in H.
  destruct H as (c & cs & t & ch & chs & _ & _ & _ & _ & Hr & _).
  cbn zeta in Hr. subst r.
  cbn [output parsed_data raw_response date analyzed_at] in *.
  destruct (normalize_cases (content ch)
              (before_first 84 (toISOString rt (clock w 0)))
              (toISOString rt (clock w 1)))
    as [(_ & N)|(m & read & M & J & N)]; rewrite N in P; cbn [fst] in P;
    [discriminate P|].
  inversion P; subst o; clear P.
  destruct (restamp_fields (before_first 84 (toISOString rt (clock w 0)))
                           (toISOString rt (clock w 1)) read)
    as (D & A & K & F).
  exists m, read. split; [exact M|]. split; [exact J|]. split; [exact F|].
  split; [exact K|]. split.
  - rewrite D. destruct (truthy (get (js "date") read)); auto.
  - rewrite A. destruct (truthy (get (js "analyzed_at") read)); auto.
Qed.

Lemma X28_witness_stale_dates :
  exists r st,
    handler Demo.cfg Demo.rt (Demo.answering Demo.stale_dates) Demo.input
            initial = (Return r, st)
    /\ exists o,
         parsed_data (output r) = JObj o
         /\ map fst o = [js "date"; js "coins"; js "analyzed_at"]
         /\ get (js "coins") o = Some (JArr []).
Proof.
  destruct (handler Demo.cfg Demo.rt (Demo.answering Demo.stale_dates)
                    Demo.input initial) as [[[r|e]|] st] eqn:E;
    [|vm_compute in E; discriminate E..].
  exists r, st. split; [reflexivity|].
  destruct (parsed_data (output r)) as [| | | | |o] eqn:P;
    try (vm_compute in E; inversion E; subst r; discriminate P).
  exists o. split; [reflexivity|].
  destruct (X28_correction_touches_only_the_two_dates _ _ _ _ r st o E P)
    as (m & read & M & J & F & K & _).
  assert (R : raw_response (output r) = Demo.stale_dates).
  { vm_compute in E. inversion E. reflexivity. }
  rewrite R in M. vm_compute in M. inversion M; subst m.
  vm_compute in J. inversion J; subst read.
  split; [exact F|]. rewrite (K (js "coins")) by discriminate. reflexivity.
Defined.
